(** * Real-time collaboration broker: room registry, fan-out, eviction, ingress

    A shallow embedding of the socket server of the repository:

    - [apps/sim/socket-server/rooms/manager.ts]   (class [RoomManager])
    - [apps/sim/socket-server/handlers/workspace.ts] ([setupWorkspaceHandlers])
    - [apps/sim/socket-server/routes/http.ts]     ([createHttpHandler])
    - [apps/sim/lib/realtime/notify-workspace-change.ts]

    The private fields of [RoomManager] and the part of the socket.io server
    that the code touches are one record, [State], threaded through every
    operation.  A JavaScript [Map<string, V>] is a [gmap string V], a
    [Set<string>] a [gset string]; iteration over a [Map] follows
    [map_to_list] (JavaScript iterates in insertion order; no statement below
    depends on the order).  Numbers are [Z].  Calls to the logger leave the
    state alone and are not modelled, except in the notifier, whose only
    observable behaviour is what it logs. *)

From stdpp Require Import gmap strings list fin_maps pretty.
From Stdlib Require Import ZArith.

Open Scope Z_scope.

#[local] Set Warnings "-clear-no-such-hyp".

(** ** JSON values ([data: any], request bodies) *)

#[local] Set Warnings "-register-all".

Inductive JsValue :=
| JNull
| JBool (b : bool)
| JNum (n : Z)
| JStr (s : string)
| JArr (items : list JsValue)
| JObj (fields : list (string * JsValue)).

(** ** Data model ([rooms/manager.ts], lines 24-49) *)

Inductive SelectionType := block | edge | none.

Module UserPresence.
Record t := mk {
  userId : string;
  workflowId : string;
  userName : string;
  socketId : string;
  joinedAt : Z;
  lastActivity : Z;
  (* declared [string]; [presence.role = newRole!] also stores [null],
     which is [None] here *)
  role : option string;
  cursor : option (Z * Z);
  selection : option (SelectionType * option string);
  avatarUrl : option string
}.

Definition set_role (r : option string) (p : t) : t :=
  mk (userId p) (workflowId p) (userName p) (socketId p) (joinedAt p)
     (lastActivity p) r (cursor p) (selection p) (avatarUrl p).
End UserPresence.

Module WorkflowRoom.
Record t := mk {
  workflowId : string;
  users : gmap string UserPresence.t;      (* socketId -> UserPresence *)
  lastModified : Z;
  activeConnections : Z
}.

Definition set_users (u : gmap string UserPresence.t) (r : t) : t :=
  mk (workflowId r) u (lastModified r) (activeConnections r).
Definition set_lastModified (ts : Z) (r : t) : t :=
  mk (workflowId r) (users r) ts (activeConnections r).
Definition set_activeConnections (n : Z) (r : t) : t :=
  mk (workflowId r) (users r) (lastModified r) n.
End WorkflowRoom.

Module WorkspaceRoom.
Record t := mk {
  workspaceId : string;
  users : gset string;                      (* socketIds *)
  lastModified : Z;
  activeConnections : Z
}.

Definition set_users (u : gset string) (r : t) : t :=
  mk (workspaceId r) u (lastModified r) (activeConnections r).
Definition set_lastModified (ts : Z) (r : t) : t :=
  mk (workspaceId r) (users r) ts (activeConnections r).
Definition set_activeConnections (n : Z) (r : t) : t :=
  mk (workspaceId r) (users r) (lastModified r) n.
End WorkspaceRoom.

Record UserSession := {
  session_userId : string;
  session_userName : string;
  session_avatarUrl : option string
}.

(** [resourceType] and [operation] of [handleWorkspaceResourceChange]. *)
Inductive ResourceType := env | tools | folders | mcp | workflows.
Inductive Operation := create | update | delete_.

Definition ResourceType_name (rt : ResourceType) : string :=
  match rt with
  | env => "env" | tools => "tools" | folders => "folders"
  | mcp => "mcp" | workflows => "workflows"
  end.

Definition Operation_name (op : Operation) : string :=
  match op with create => "create" | update => "update" | delete_ => "delete" end.

(** ** The socket.io server as the code uses it

    [io.to(room).emit(event, payload)] and [socket.emit(event, payload)]
    append to [sent]; [io.sockets.sockets] is the set [sockets] of connected
    socket ids; [socket.join]/[socket.leave] edit the adapter's membership
    relation [joined].  Nothing in the modelled code calls
    [socket.disconnect], so no operation removes an id from [sockets]. *)

Inductive Target := ToRoom (room : string) | ToSocket (socketId : string).

Inductive Payload :=
| WorkflowNotice (workflowId message : string) (timestamp : Z)
| CopilotEdit (workflowId : string) (description : option string)
              (message : string) (timestamp : Z)
| PermissionRevoked (workspaceId message : string) (timestamp : Z)
| PermissionChanged (workspaceId workflowId : string)
                    (oldRole newRole : option string)
                    (message : string) (timestamp : Z)
| PresenceList (roomPresence : list UserPresence.t)
| ResourceChange (workspaceId : string) (resourceType : ResourceType)
                 (operation : Operation) (data : option JsValue) (timestamp : Z)
| ErrorReason (error : string)
| JoinedWorkspace (workspaceId role : string) (activeUsers : Z)
| LeftWorkspace (workspaceId : string)
| JoinedWorkflow (workflowId role : string).

Record Emit := { target : Target; event : string; payload : Payload }.

Record State := {
  workflowRooms : gmap string WorkflowRoom.t;
  workspaceRooms : gmap string WorkspaceRoom.t;
  socketToWorkflow : gmap string string;
  socketToWorkspace : gmap string (string * string);  (* workspaceId, role *)
  userSessions : gmap string UserSession;
  sockets : gset string;
  joined : gset (string * string);                     (* socketId, room *)
  sent : list Emit;
  clock : Z            (* Date.now(); read by the handlers, never advanced *)
}.

Definition upd_workflowRooms (f : gmap string WorkflowRoom.t → gmap string WorkflowRoom.t)
    (st : State) : State :=
  {| workflowRooms := f (workflowRooms st); workspaceRooms := workspaceRooms st;
     socketToWorkflow := socketToWorkflow st; socketToWorkspace := socketToWorkspace st;
     userSessions := userSessions st; sockets := sockets st; joined := joined st;
     sent := sent st; clock := clock st |}.

Definition upd_workspaceRooms (f : gmap string WorkspaceRoom.t → gmap string WorkspaceRoom.t)
    (st : State) : State :=
  {| workflowRooms := workflowRooms st; workspaceRooms := f (workspaceRooms st);
     socketToWorkflow := socketToWorkflow st; socketToWorkspace := socketToWorkspace st;
     userSessions := userSessions st; sockets := sockets st; joined := joined st;
     sent := sent st; clock := clock st |}.

Definition upd_socketToWorkflow (f : gmap string string → gmap string string)
    (st : State) : State :=
  {| workflowRooms := workflowRooms st; workspaceRooms := workspaceRooms st;
     socketToWorkflow := f (socketToWorkflow st); socketToWorkspace := socketToWorkspace st;
     userSessions := userSessions st; sockets := sockets st; joined := joined st;
     sent := sent st; clock := clock st |}.

Definition upd_socketToWorkspace
    (f : gmap string (string * string) → gmap string (string * string))
    (st : State) : State :=
  {| workflowRooms := workflowRooms st; workspaceRooms := workspaceRooms st;
     socketToWorkflow := socketToWorkflow st; socketToWorkspace := f (socketToWorkspace st);
     userSessions := userSessions st; sockets := sockets st; joined := joined st;
     sent := sent st; clock := clock st |}.

Definition upd_userSessions (f : gmap string UserSession → gmap string UserSession)
    (st : State) : State :=
  {| workflowRooms := workflowRooms st; workspaceRooms := workspaceRooms st;
     socketToWorkflow := socketToWorkflow st; socketToWorkspace := socketToWorkspace st;
     userSessions := f (userSessions st); sockets := sockets st; joined := joined st;
     sent := sent st; clock := clock st |}.

Definition upd_joined (f : gset (string * string) → gset (string * string))
    (st : State) : State :=
  {| workflowRooms := workflowRooms st; workspaceRooms := workspaceRooms st;
     socketToWorkflow := socketToWorkflow st; socketToWorkspace := socketToWorkspace st;
     userSessions := userSessions st; sockets := sockets st; joined := f (joined st);
     sent := sent st; clock := clock st |}.

(** [emit] is both [io.to(room).emit] and [socket.emit]. *)
Definition emit (tgt : Target) (ev : string) (p : Payload) (st : State) : State :=
  {| workflowRooms := workflowRooms st; workspaceRooms := workspaceRooms st;
     socketToWorkflow := socketToWorkflow st; socketToWorkspace := socketToWorkspace st;
     userSessions := userSessions st; sockets := sockets st; joined := joined st;
     sent := sent st ++ [ {| target := tgt; event := ev; payload := p |} ];
     clock := clock st |}.

Definition socket_join (socketId room : string) : State → State :=
  upd_joined (λ j, {[ (socketId, room) ]} ∪ j).

Definition socket_leave (socketId room : string) : State → State :=
  upd_joined (λ j, j ∖ {[ (socketId, room) ]}).

(** [const socket = this.io.sockets.sockets.get(socketId); if (socket) ...] *)
Definition if_connected (socketId : string) (f : State → State) (st : State) : State :=
  if decide (socketId ∈ sockets st) then f st else st.

(** The registry the server starts with. *)
Definition initial (now : Z) : State :=
  {| workflowRooms := ∅; workspaceRooms := ∅; socketToWorkflow := ∅;
     socketToWorkspace := ∅; userSessions := ∅; sockets := ∅; joined := ∅;
     sent := []; clock := now |}.

(** ** [class RoomManager] ([rooms/manager.ts]) *)

Module RoomManager.

Definition createWorkflowRoom (workflowId : string) (now : Z) : WorkflowRoom.t :=
  WorkflowRoom.mk workflowId ∅ now 0.

(** Lines 75-89.  The room object is updated in place and dropped from the
    registry when its counter reaches zero. *)
Definition cleanupUserFromRoom (socketId workflowId : string) (st : State) : State :=
  let st1 :=
    match workflowRooms st !! workflowId with
    | Some room =>
        let room' :=
          WorkflowRoom.set_activeConnections
            (Z.max 0 (WorkflowRoom.activeConnections room - 1))
            (WorkflowRoom.set_users (delete socketId (WorkflowRoom.users room)) room) in
        if decide (WorkflowRoom.activeConnections room' = 0)
        then upd_workflowRooms (delete workflowId) st
        else upd_workflowRooms (insert workflowId room') st
    | None => st
    end in
  upd_userSessions (delete socketId)
    (upd_socketToWorkflow (delete socketId) st1).

(** Lines 91-124. *)
Definition handleWorkflowDeletion (workflowId : string) (st : State) : State :=
  match workflowRooms st !! workflowId with
  | None => st
  | Some room =>
      let st1 :=
        emit (ToRoom workflowId) "workflow-deleted"
             (WorkflowNotice workflowId "This workflow has been deleted" (clock st)) st in
      let socketsToDisconnect := (map_to_list (WorkflowRoom.users room)).*1 in
      let st2 :=
        foldl (λ acc socketId,
                 cleanupUserFromRoom socketId workflowId
                   (if_connected socketId (socket_leave socketId workflowId) acc))
              st1 socketsToDisconnect in
      upd_workflowRooms (delete workflowId) st2
  end.

(** Lines 126-144. *)
Definition handleWorkflowRevert (workflowId : string) (timestamp : Z) (st : State) : State :=
  match workflowRooms st !! workflowId with
  | None => st
  | Some room =>
      let st1 :=
        emit (ToRoom workflowId) "workflow-reverted"
             (WorkflowNotice workflowId "Workflow has been reverted to deployed state"
                             timestamp) st in
      upd_workflowRooms (insert workflowId (WorkflowRoom.set_lastModified timestamp room)) st1
  end.

(** Lines 146-166. *)
Definition handleWorkflowUpdate (workflowId : string) (st : State) : State :=
  match workflowRooms st !! workflowId with
  | None => st
  | Some room =>
      let timestamp := clock st in
      let st1 :=
        emit (ToRoom workflowId) "workflow-updated"
             (WorkflowNotice workflowId "Workflow has been updated externally" timestamp) st in
      upd_workflowRooms (insert workflowId (WorkflowRoom.set_lastModified timestamp room)) st1
  end.

(** Lines 168-189. *)
Definition handleCopilotWorkflowEdit (workflowId : string) (description : option string)
    (st : State) : State :=
  match workflowRooms st !! workflowId with
  | None => st
  | Some room =>
      let timestamp := clock st in
      let st1 :=
        emit (ToRoom workflowId) "copilot-workflow-edit"
             (CopilotEdit workflowId description
                "Copilot has edited the workflow - rehydrating from database" timestamp) st in
      upd_workflowRooms (insert workflowId (WorkflowRoom.set_lastModified timestamp room)) st1
  end.

(** Lines 344-350. *)
Definition broadcastPresenceUpdate (workflowId : string) (st : State) : State :=
  match workflowRooms st !! workflowId with
  | Some room =>
      emit (ToRoom workflowId) "presence-update"
           (PresenceList (map_to_list (WorkflowRoom.users room)).*2) st
  | None => st
  end.

(** Lines 337-342. *)
Definition getTotalActiveConnections (st : State) : Z :=
  foldl (λ total room, total + WorkflowRoom.activeConnections room) 0
        (map_to_list (workflowRooms st)).*2.

(** Lines 191-263.  [affectedRooms] holds references to the room objects of
    the registry: an entry of the list is the registry key that reaches the
    object, with the contents read when the list is built.  A room is
    registered under its own [workflowId] (see [rooms_keyed_by_id] below),
    so the cleanup that one turn of the loop runs for [room.workflowId]
    reaches that room only, and the contents of the rooms still to come are
    those that were read.  The list of a room's [userSockets] is read
    before the inner loop runs, as in the source. *)
Definition userSocketsOf (userId : string) (room : WorkflowRoom.t)
    : list (string * UserPresence.t) :=
  filter (λ sp, UserPresence.userId sp.2 = userId) (map_to_list (WorkflowRoom.users room)).

Definition affectedRoomsOf (userId : string) (st : State)
    : list (string * WorkflowRoom.t) :=
  filter (λ kr, (0 < length (userSocketsOf userId kr.2))%nat)
         (map_to_list (workflowRooms st)).

(** One turn of the inner loop, lines 221-256; [key] reaches the room object
    whose presence object is assigned to. *)
Definition permissionStep (workspaceId : string) (newRole : option string)
    (isRemoved : bool) (key : string) (room : WorkflowRoom.t)
    (st : State) (sp : string * UserPresence.t) : State :=
  let '(socketId, presence) := sp in
  if isRemoved then
    cleanupUserFromRoom socketId (WorkflowRoom.workflowId room)
      (if_connected socketId
         (λ s, socket_leave socketId (WorkflowRoom.workflowId room)
                 (emit (ToSocket socketId) "permission-revoked"
                       (PermissionRevoked workspaceId
                          "Your access to this workspace has been removed" (clock s)) s))
         st)
  else
    let oldRole := UserPresence.role presence in
    let st1 :=
      upd_workflowRooms
        (alter (λ r, WorkflowRoom.set_users
                       (alter (UserPresence.set_role newRole) socketId
                              (WorkflowRoom.users r)) r) key) st in
    if_connected socketId
      (λ s, emit (ToSocket socketId) "permission-changed"
              (PermissionChanged workspaceId (WorkflowRoom.workflowId room) oldRole newRole
                 "Your permissions have been updated" (clock s)) s)
      st1.

(** One turn of the outer loop, lines 216-260. *)
Definition permissionRoomStep (userId workspaceId : string) (newRole : option string)
    (isRemoved : bool) (st : State) (kr : string * WorkflowRoom.t) : State :=
  let '(key, room) := kr in
  broadcastPresenceUpdate (WorkflowRoom.workflowId room)
    (foldl (permissionStep workspaceId newRole isRemoved key room) st
           (userSocketsOf userId room)).

Definition handlePermissionChange (userId workspaceId : string) (newRole : option string)
    (isRemoved : bool) (st : State) : State :=
  let affectedRooms := affectedRoomsOf userId st in
  if decide (length affectedRooms = 0%nat) then st
  else foldl (permissionRoomStep userId workspaceId newRole isRemoved) st affectedRooms.

(** *** Workspace rooms, lines 372-472 *)

Definition createWorkspaceRoom (workspaceId : string) (now : Z) : WorkspaceRoom.t :=
  WorkspaceRoom.mk workspaceId ∅ now 0.

(** Lines 383-396. *)
Definition cleanupUserFromWorkspaceRoom (socketId workspaceId : string) (st : State) : State :=
  let st1 :=
    match workspaceRooms st !! workspaceId with
    | Some room =>
        let room' :=
          WorkspaceRoom.set_activeConnections
            (Z.max 0 (WorkspaceRoom.activeConnections room - 1))
            (WorkspaceRoom.set_users (WorkspaceRoom.users room ∖ {[ socketId ]}) room) in
        if decide (WorkspaceRoom.activeConnections room' = 0)
        then upd_workspaceRooms (delete workspaceId) st
        else upd_workspaceRooms (insert workspaceId room') st
    | None => st
    end in
  upd_socketToWorkspace (delete socketId) st1.

Definition hasWorkflowRoom (workflowId : string) (st : State) : bool :=
  bool_decide (is_Some (workflowRooms st !! workflowId)).

Definition hasWorkspaceRoom (workspaceId : string) (st : State) : bool :=
  bool_decide (is_Some (workspaceRooms st !! workspaceId)).

Definition getWorkspaceIdForSocket (socketId : string) (st : State) : option string :=
  fst <$> socketToWorkspace st !! socketId.

Definition setSocketWorkspace (socketId workspaceId role : string) : State → State :=
  upd_socketToWorkspace (insert socketId (workspaceId, role)).

(** The object literal [eventMap] of lines 451-457, indexed by
    [resourceType]; the template strings splice the operation's name. *)
Definition eventMap (operation : Operation) (resourceType : ResourceType) : string :=
  match resourceType with
  | env => "workspace-env-updated"
  | tools => "workspace-tool-" +:+ Operation_name operation +:+ "d"
  | folders => "workspace-folder-" +:+ Operation_name operation +:+ "d"
  | mcp => "workspace-mcp-updated"
  | workflows => "workspace-workflow-" +:+ Operation_name operation +:+ "d"
  end.

(** Lines 433-472. *)
Definition handleWorkspaceResourceChange (workspaceId : string)
    (resourceType : ResourceType) (operation : Operation) (data : option JsValue)
    (st : State) : State :=
  match workspaceRooms st !! workspaceId with
  | None => st
  | Some room =>
      let timestamp := clock st in
      let st1 :=
        upd_workspaceRooms
          (insert workspaceId (WorkspaceRoom.set_lastModified timestamp room)) st in
      emit (ToRoom workspaceId) (eventMap operation resourceType)
           (ResourceChange workspaceId resourceType operation data timestamp) st1
  end.

(** Lines 356-370: the number of distinct users of a room, however many
    sockets each holds. *)
Definition getUniqueUserCount (workflowId : string) (st : State) : Z :=
  match workflowRooms st !! workflowId with
  | None => 0
  | Some room =>
      let uniqueUsers : gset string :=
        foldl (λ acc presence, {[ UserPresence.userId presence ]} ∪ acc) ∅
              (map_to_list (WorkflowRoom.users room)).*2 in
      Z.of_nat (size uniqueUsers)
  end.

(** Lines 352-354 and 422-424. *)
Definition emitToWorkflow (workflowId event : string) (payload : Payload) : State → State :=
  emit (ToRoom workflowId) event payload.

Definition emitToWorkspace (workspaceId event : string) (payload : Payload) : State → State :=
  emit (ToRoom workspaceId) event payload.

(** Lines 265-290.  The database is outside the program: what the query for
    edges without a source block returns is an input, [None] when it
    throws. *)
Record OrphanedEdge := {
  edge_id : string;
  sourceBlockId : string;
  targetBlockId : string
}.

Record Consistency := { valid : bool; issues : list string }.

Definition validateWorkflowConsistency (orphanedEdges : option (list OrphanedEdge))
    : Consistency :=
  match orphanedEdges with
  | Some edges =>
      let issues :=
        if decide (0 < length edges)%nat
        then [ "Found " +:+ pretty (length edges)
               +:+ " orphaned edges with missing source blocks" ]
        else [] in
      {| valid := bool_decide (length issues = 0%nat); issues := issues |}
  | None => {| valid := false; issues := [ "Consistency check failed" ] |}
  end.

End RoomManager.

(** ** [setupWorkspaceHandlers] ([handlers/workspace.ts])

    A handler is one function from state to state: what other handlers
    might do while this one awaits the access check is not modelled. *)

(** [AuthenticatedSocket]: the id and the identity the authentication
    middleware attached (absent when it did not). *)
Record AuthenticatedSocket := {
  id : string;
  socket_userId : option string;
  socket_userName : option string
}.

(** What [await verifyWorkspaceAccess(userId, workspaceId)] can do.  The
    function lives in [socket-server/middleware/permissions], outside the
    modelled files, and is a parameter of the handlers. *)
Inductive AccessOutcome :=
| AccessThrows
| AccessInfo (hasAccess : bool) (role : option string).

(** JavaScript truthiness of a possibly absent string. *)
Definition truthy (s : option string) : bool :=
  match s with
  | Some v => negb (bool_decide (v = ""))
  | None => false
  end.

Module WorkspaceHandlers.
Section Handlers.
Variable verifyWorkspaceAccess : string → string → AccessOutcome.

Definition join_error (socket : AuthenticatedSocket) (reason : string) : State → State :=
  emit (ToSocket (id socket)) "join-workspace-error" (ErrorReason reason).

(** [socket.on('join-workspace', ...)], lines 32-100. *)
Definition join_workspace (socket : AuthenticatedSocket) (workspaceId : string)
    (st : State) : State :=
  match socket_userId socket with
  | Some userId =>
      if negb (truthy (Some userId)) || negb (truthy (socket_userName socket))
      then join_error socket "Authentication required" st
      else
        match verifyWorkspaceAccess userId workspaceId with
        | AccessThrows => join_error socket "Failed to verify workspace access" st
        | AccessInfo false _ => join_error socket "Access denied to workspace" st
        | AccessInfo true accessRole =>
            let userRole :=
              if truthy accessRole then default "read" accessRole else "read" in
            (* leave the previous workspace room, if any *)
            let st1 :=
              match RoomManager.getWorkspaceIdForSocket (id socket) st with
              | Some currentWorkspaceId =>
                  if truthy (Some currentWorkspaceId)
                     && negb (bool_decide (currentWorkspaceId = workspaceId))
                  then RoomManager.cleanupUserFromWorkspaceRoom (id socket) currentWorkspaceId
                         (socket_leave (id socket) currentWorkspaceId st)
                  else st
              | None => st
              end in
            let st2 := socket_join (id socket) workspaceId st1 in
            let st3 :=
              if RoomManager.hasWorkspaceRoom workspaceId st2 then st2
              else upd_workspaceRooms
                     (insert workspaceId
                        (RoomManager.createWorkspaceRoom workspaceId (clock st2))) st2 in
            match workspaceRooms st3 !! workspaceId with
            | Some room =>
                let room' :=
                  WorkspaceRoom.set_users ({[ id socket ]} ∪ WorkspaceRoom.users room)
                    (WorkspaceRoom.set_activeConnections
                       (WorkspaceRoom.activeConnections room + 1) room) in
                let st4 := upd_workspaceRooms (insert workspaceId room') st3 in
                let st5 := RoomManager.setSocketWorkspace (id socket) workspaceId userRole st4 in
                emit (ToSocket (id socket)) "joined-workspace"
                     (JoinedWorkspace workspaceId userRole
                        (WorkspaceRoom.activeConnections room')) st5
            | None =>
                (* [getWorkspaceRoom(workspaceId)!] is undefined: the
                   outer [catch] reports the failure *)
                join_error socket "Failed to join workspace" st3
            end
        end
  | None => join_error socket "Authentication required" st
  end.

(** [socket.on('leave-workspace', ...)], lines 106-126. *)
Definition leave_workspace (socket : AuthenticatedSocket) (workspaceId : string)
    (st : State) : State :=
  emit (ToSocket (id socket)) "left-workspace" (LeftWorkspace workspaceId)
    (RoomManager.cleanupUserFromWorkspaceRoom (id socket) workspaceId
       (socket_leave (id socket) workspaceId st)).

(** The requests of one connection's workspace surface, and runs of them. *)
Inductive Request :=
| JoinWorkspace (socket : AuthenticatedSocket) (workspaceId : string)
| LeaveWorkspace (socket : AuthenticatedSocket) (workspaceId : string)
| Cleanup (socketId workspaceId : string).

Definition step (st : State) (r : Request) : State :=
  match r with
  | JoinWorkspace socket workspaceId => join_workspace socket workspaceId st
  | LeaveWorkspace socket workspaceId => leave_workspace socket workspaceId st
  | Cleanup socketId workspaceId =>
      RoomManager.cleanupUserFromWorkspaceRoom socketId workspaceId st
  end.

Definition run (st : State) (rs : list Request) : State := foldl step st rs.
End Handlers.
End WorkspaceHandlers.

(** ** [createHttpHandler] ([routes/http.ts]) *)

Module Http.

Record Request := { method : string; url : string; body : string }.

Inductive ResponseBody :=
| Success                                   (* {success: true} *)
| Error (reason : string)                   (* {error: reason} *)
| Health (timestamp : Z) (connections : Z). (* {status: 'ok', ...} *)

Record Response := { status : Z; contentType : string; content : ResponseBody }.

Definition respond (code : Z) (c : ResponseBody) : Response :=
  {| status := code; contentType := "application/json"; content := c |}.

(** [const { k1, k2 } = v]: a [TypeError] on [null] ([None]); otherwise
    the own properties of an object, and nothing for the other values. *)
Fixpoint property (k : string) (fields : list (string * JsValue)) : option JsValue :=
  match fields with
  | [] => None
  | (k', v) :: rest => if decide (k = k') then Some v else property k rest
  end.

Definition destructure (v : JsValue) : option (string → option JsValue) :=
  match v with
  | JNull => None
  | JObj fields => Some (λ k, property k fields)
  | _ => Some (λ _, None)
  end.

(** The fields at the types that the signatures of [RoomManager] declare.
    A body whose fields have other types is outside those signatures; the
    handler below is not defined on it. *)
Definition as_string (v : option JsValue) : option string :=
  match v with Some (JStr s) => Some s | _ => None end.

Definition as_optional_string (v : option JsValue) : option (option string) :=
  match v with Some (JStr s) => Some (Some s) | None => Some None | _ => None end.

Definition as_nullable_string (v : option JsValue) : option (option string) :=
  match v with Some (JStr s) => Some (Some s) | Some JNull => Some None | _ => None end.

Definition as_boolean (v : option JsValue) : option bool :=
  match v with Some (JBool b) => Some b | _ => None end.

Definition as_number (v : option JsValue) : option Z :=
  match v with Some (JNum n) => Some n | _ => None end.

Definition as_resourceType (v : option JsValue) : option ResourceType :=
  match v with
  | Some (JStr s) =>
      list_find (λ rt, ResourceType_name rt = s) [env; tools; folders; mcp; workflows]
      ≫= λ x, Some x.2
  | _ => None
  end.

Definition as_operation (v : option JsValue) : option Operation :=
  match v with
  | Some (JStr s) =>
      list_find (λ op, Operation_name op = s) [create; update; delete_] ≫= λ x, Some x.2
  | _ => None
  end.

Section Handler.
(** [JSON.parse]: [None] when it throws a [SyntaxError]. *)
Variable JSON_parse : string → option JsValue.

(** The common shape of the six POST branches: parse, destructure,
    dispatch, answer 200; an exception before the dispatch answers 500
    with the branch's reason and leaves the registry alone. *)
Definition post (failure : string)
    (dispatch : (string → option JsValue) → option (State → State))
    (req : Request) (st : State) : option (State * Response) :=
  match JSON_parse (body req) with
  | None => Some (st, respond 500 (Error failure))
  | Some v =>
      match destructure v with
      | None => Some (st, respond 500 (Error failure))
      | Some fields =>
          op ← dispatch fields;
          Some (op st, respond 200 Success)
      end
  end.

Definition route (m u : string) (req : Request) : bool :=
  bool_decide (method req = m) && bool_decide (url req = u).

(** Lines 17-161, branch by branch in the order of the source. *)
Definition createHttpHandler (req : Request) (st : State) : option (State * Response) :=
  if route "GET" "/health" req then
    Some (st, respond 200 (Health (clock st) (RoomManager.getTotalActiveConnections st)))
  else if route "POST" "/api/workflow-deleted" req then
    post "Failed to process deletion notification"
      (λ f, workflowId ← as_string (f "workflowId");
            Some (RoomManager.handleWorkflowDeletion workflowId)) req st
  else if route "POST" "/api/workflow-updated" req then
    post "Failed to process update notification"
      (λ f, workflowId ← as_string (f "workflowId");
            Some (RoomManager.handleWorkflowUpdate workflowId)) req st
  else if route "POST" "/api/copilot-workflow-edit" req then
    post "Failed to process copilot edit notification"
      (λ f, workflowId ← as_string (f "workflowId");
            description ← as_optional_string (f "description");
            Some (RoomManager.handleCopilotWorkflowEdit workflowId description)) req st
  else if route "POST" "/api/workflow-reverted" req then
    post "Failed to process revert notification"
      (λ f, workflowId ← as_string (f "workflowId");
            timestamp ← as_number (f "timestamp");
            Some (RoomManager.handleWorkflowRevert workflowId timestamp)) req st
  else if route "POST" "/api/permission-changed" req then
    post "Failed to process permission change notification"
      (λ f, userId ← as_string (f "userId");
            workspaceId ← as_string (f "workspaceId");
            newRole ← as_nullable_string (f "newRole");
            isRemoved ← as_boolean (f "isRemoved");
            Some (RoomManager.handlePermissionChange userId workspaceId newRole isRemoved))
      req st
  else if route "POST" "/api/workspace-resource-changed" req then
    post "Failed to process workspace resource change notification"
      (λ f, workspaceId ← as_string (f "workspaceId");
            resourceType ← as_resourceType (f "resourceType");
            operation ← as_operation (f "operation");
            Some (RoomManager.handleWorkspaceResourceChange workspaceId resourceType
                    operation (f "data"))) req st
  else Some (st, respond 404 (Error "Not found")).
End Handler.

End Http.

(** ** [notifyWorkspaceResourceChange] ([lib/realtime/notify-workspace-change.ts])

    The notifier runs in the application tier.  Its effects are recorded in
    order; exceptions are explicit, so that a rejected promise could be
    written down if the code produced one. *)

Module Notifier.

Inductive Level := info | warn.

Inductive Exn :=
| AbortError          (* raised by [fetch] when the signal aborts *)
| OtherError.         (* any other failure of [fetch] *)

Inductive Effect :=
| SetTimeout (ms : Z)                       (* setTimeout(() => controller.abort(), ms) *)
| ClearTimeout
| Fetch (url method : string) (workspaceId : string) (resourceType : ResourceType)
        (operation : Operation) (data : JsValue)
| Log (level : Level) (text : string).

Inductive Outcome (A : Type) :=
| Returns (a : A)
| Raises (e : Exn).
Arguments Returns {A} a.
Arguments Raises {A} e.

(** A computation appends to the effects so far and returns or raises. *)
Definition Eff (A : Type) : Type := list Effect → Outcome A * list Effect.

Definition ret {A} (a : A) : Eff A := λ tr, (Returns a, tr).
Definition raise {A} (e : Exn) : Eff A := λ tr, (Raises e, tr).
Definition bind {A B} (m : Eff A) (k : A → Eff B) : Eff B :=
  λ tr, match m tr with
        | (Returns a, tr') => k a tr'
        | (Raises e, tr') => (Raises e, tr')
        end.
Definition perform (e : Effect) : Eff unit := λ tr, (Returns tt, tr ++ [e]).
Definition try_catch {A} (m : Eff A) (handler : Exn → Eff A) : Eff A :=
  λ tr, match m tr with
        | (Returns a, tr') => (Returns a, tr')
        | (Raises e, tr') => handler e tr'
        end.
(** [try { m } finally { f }]: [f] runs either way; the outcome of [m]
    stands unless [f] raises. *)
Definition try_finally {A} (m : Eff A) (f : Eff unit) : Eff A :=
  λ tr, match m tr with
        | (o, tr') =>
            match f tr' with
            | (Returns _, tr'') => (o, tr'')
            | (Raises e, tr'') => (Raises e, tr'')
            end
        end.

#[local] Instance Eff_ret : MRet Eff := @ret.
#[local] Instance Eff_bind : MBind Eff := λ A B k m, bind m k.

(** What the network would do with the request if nobody aborted it:
    settle after [latency] milliseconds (never, when [None]) with a
    response whose [ok] flag is given, or with a failure. *)
Inductive Settlement := Response (ok : bool) | Failure.
Record Network := { latency : option Z; settlement : Settlement }.

(** [await fetch(url, {..., signal})] under a timer that aborts the signal
    [timeoutMs] after the call: the request is answered only if it settles
    before the timer fires. *)
Definition fetch (timeoutMs : Z) (net : Network) (url : string) (workspaceId : string)
    (resourceType : ResourceType) (operation : Operation) (data : JsValue) : Eff bool :=
  perform (Fetch url "POST" workspaceId resourceType operation data);;
  match latency net with
  | Some t =>
      if decide (t < timeoutMs) then
        match settlement net with
        | Response ok => ret ok
        | Failure => raise OtherError
        end
      else raise AbortError
  | None => raise AbortError
  end.

Definition timeoutMs : Z := 5000.

Definition about (resourceType : ResourceType) (resourceId : string) (operation : Operation)
    : string :=
  ResourceType_name resourceType +:+ " " +:+ resourceId +:+ " " +:+ Operation_name operation.

(** Lines 33-84.  [socketServerUrl] is [env.SOCKET_SERVER_URL]. *)
Definition notifyWorkspaceResourceChange (socketServerUrl : option string) (net : Network)
    (workspaceId : string) (resourceType : ResourceType) (operation : Operation)
    (data : JsValue) (resourceId : string) : Eff unit :=
  if negb (truthy (Some workspaceId)) then
    perform (Log warn "Invalid workspaceId provided to notifyWorkspaceResourceChange")
  else
    perform (SetTimeout timeoutMs);;
    try_finally
      (try_catch
         (let socketUrl :=
            if truthy socketServerUrl then default "" socketServerUrl
            else "http://localhost:3002" in
          ok ← fetch timeoutMs net (socketUrl +:+ "/api/workspace-resource-changed")
                     workspaceId resourceType operation data;
          if ok : bool then
            perform (Log info ("Notified Socket.IO server about "
                               +:+ about resourceType resourceId operation))
          else
            perform (Log warn ("Failed to notify Socket.IO server about "
                               +:+ about resourceType resourceId operation)))
         (λ error,
            match error with
            | AbortError =>
                perform (Log warn ("Socket notification timeout after 5s for "
                                   +:+ about resourceType resourceId operation))
            | OtherError =>
                perform (Log warn ("Error notifying Socket.IO server about "
                                   +:+ about resourceType resourceId operation +:+ ":"))
            end))
      (perform ClearTimeout).

(** The promise the [async] function returns, and what it did. *)
Definition call (socketServerUrl : option string) (net : Network)
    (workspaceId : string) (resourceType : ResourceType) (operation : Operation)
    (data : JsValue) (resourceId : string) : Outcome unit * list Effect :=
  notifyWorkspaceResourceChange socketServerUrl net workspaceId resourceType operation
    data resourceId [].

Definition is_fetch (e : Effect) : bool :=
  match e with Fetch _ _ _ _ _ _ => true | _ => false end.

Definition requests (tr : list Effect) : nat := length (List.filter is_fetch tr).

Definition timers (tr : list Effect) : list Z :=
  omap (λ e, match e with SetTimeout ms => Some ms | _ => None end) tr.

End Notifier.

(** ** The workflow side of the socket surface

    [handlers/workflow.ts] and the access resolver it calls are imported by
    [handlers/index.ts] but are not among the modelled files.  The
    definitions of this module follow sections 4.2, 4.3 and 6 of the
    specification; the cleanup they call is [RoomManager]'s own. *)

Module WorkflowHandlers.

(** Modelled from the spec: the durable stores of section 6, missing from
    the sources.  The workflow store holds a record per workflow (here,
    the workspace it belongs to); the permission store "exposes
    (userId, workspaceId) -> role | none". *)
Record Durable := {
  workflowRecords : gmap string string;
  permissions : gmap (string * string) string
}.

(** Modelled from the spec: the Access Resolver of section 4.2, missing
    from the sources; it "answers: does user U have role R on workflow F?
    by consulting the persisted permission store".  A workflow without a
    durable record belongs to no workspace and grants nothing. *)
Definition resolveWorkflowAccess (d : Durable) (userId workflowId : string) : option string :=
  workspaceId ← workflowRecords d !! workflowId;
  permissions d !! (userId, workspaceId).

(** Modelled from the spec: [leaveWorkflow(conn)] of section 4.3, missing
    from the sources: "removes Presence, decrements activeConnections,
    deletes the room if it reaches zero, clears the reverse index,
    triggers a presence broadcast". *)
Definition leave_workflow (socket : AuthenticatedSocket) (st : State) : State :=
  match socketToWorkflow st !! id socket with
  | Some workflowId =>
      RoomManager.broadcastPresenceUpdate workflowId
        (RoomManager.cleanupUserFromRoom (id socket) workflowId
           (socket_leave (id socket) workflowId st))
  | None => st
  end.

(** Modelled from the spec: the Presence of section 3 that a join creates,
    with the role resolved at join time and no cursor or selection yet. *)
Definition presenceOf (socket : AuthenticatedSocket) (userId workflowId role : string)
    (now : Z) : UserPresence.t :=
  UserPresence.mk userId workflowId (default "" (socket_userName socket)) (id socket)
                  now now (Some role) None None None.

(** Modelled from the spec: [joinWorkflow(conn, workflowId)] of section
    4.3, missing from the sources: access is resolved at join time and
    "access errors propagate as a join rejection, not a disconnect"; a
    granted join "leaves the previous workflow if any, creates the room
    if absent, adds a Presence entry, updates reverse index, bumps
    activeConnections, emits a joined confirmation, triggers a presence
    broadcast". *)
Definition join_workflow (d : Durable) (socket : AuthenticatedSocket) (workflowId : string)
    (st : State) : State :=
  match socket_userId socket with
  | None =>
      emit (ToSocket (id socket)) "join-workflow-error" (ErrorReason "Authentication required") st
  | Some userId =>
      match resolveWorkflowAccess d userId workflowId with
      | None =>
          emit (ToSocket (id socket)) "join-workflow-error"
               (ErrorReason "Access denied to workflow") st
      | Some role =>
          let st1 := leave_workflow socket st in
          let st2 := socket_join (id socket) workflowId st1 in
          let room :=
            default (RoomManager.createWorkflowRoom workflowId (clock st2))
                    (workflowRooms st2 !! workflowId) in
          let room' :=
            WorkflowRoom.set_activeConnections (WorkflowRoom.activeConnections room + 1)
              (WorkflowRoom.set_users
                 (<[ id socket := presenceOf socket userId workflowId role (clock st2) ]>
                    (WorkflowRoom.users room)) room) in
          let st3 := upd_workflowRooms (insert workflowId room') st2 in
          let st4 := upd_socketToWorkflow (insert (id socket) workflowId) st3 in
          RoomManager.broadcastPresenceUpdate workflowId
            (emit (ToSocket (id socket)) "joined" (JoinedWorkflow workflowId role) st4)
      end
  end.

(** Whether a request to join is granted: the room then holds the socket. *)
Definition join_succeeds (d : Durable) (socket : AuthenticatedSocket) (workflowId : string)
    (st : State) : Prop :=
  ∃ room, workflowRooms (join_workflow d socket workflowId st) !! workflowId = Some room
          ∧ is_Some (WorkflowRoom.users room !! id socket).

(** What can reach the registry after a deletion notice: requests of any
    connection, each against the durable stores as they are when it is
    served, and further notifications from the application tier. *)
Inductive Request :=
| JoinWorkflow (d : Durable) (socket : AuthenticatedSocket) (workflowId : string)
| LeaveWorkflow (socket : AuthenticatedSocket)
| WorkflowDeleted (workflowId : string)
| WorkflowUpdated (workflowId : string)
| WorkflowReverted (workflowId : string) (timestamp : Z)
| CopilotWorkflowEdit (workflowId : string) (description : option string)
| PermissionChangedNotice (userId workspaceId : string) (newRole : option string)
                          (isRemoved : bool).

Definition step (st : State) (r : Request) : State :=
  match r with
  | JoinWorkflow d socket workflowId => join_workflow d socket workflowId st
  | LeaveWorkflow socket => leave_workflow socket st
  | WorkflowDeleted workflowId => RoomManager.handleWorkflowDeletion workflowId st
  | WorkflowUpdated workflowId => RoomManager.handleWorkflowUpdate workflowId st
  | WorkflowReverted workflowId timestamp =>
      RoomManager.handleWorkflowRevert workflowId timestamp st
  | CopilotWorkflowEdit workflowId description =>
      RoomManager.handleCopilotWorkflowEdit workflowId description st
  | PermissionChangedNotice userId workspaceId newRole isRemoved =>
      RoomManager.handlePermissionChange userId workspaceId newRole isRemoved st
  end.

Definition run (st : State) (rs : list Request) : State := foldl step st rs.

(** The durable record of [workflowId] is absent in every store a request
    of the run is served against. *)
Definition record_absent (workflowId : string) (r : Request) : Prop :=
  match r with
  | JoinWorkflow d _ _ => workflowRecords d !! workflowId = None
  | _ => True
  end.

End WorkflowHandlers.

(** ** The client's side of the workspace events

    [contexts/socket-context.tsx] subscribes to the events of the broker and
    hands each to the handler registered for it; the hook
    [useCollaborativeWorkspace] registers handlers built by
    [createResourceUpdateHandler]. *)

Module SocketContext.

(** The names passed to [socketInstance.on] for workspace resources, lines
    507-557 of [socket-context.tsx], in the order of the source. *)
Definition workspaceListeners : list string :=
  [ "workspace-env-updated";
    "workspace-tool-created"; "workspace-tool-updated"; "workspace-tool-deleted";
    "workspace-folder-created"; "workspace-folder-updated"; "workspace-folder-deleted";
    "workspace-mcp-updated";
    "workspace-workflow-created"; "workspace-workflow-updated";
    "workspace-workflow-deleted" ].

(** [emitCursorUpdate], with [lastCursorEmit] as the state and the reading
    of [performance.now()] as an input, in milliseconds.  [connected] is
    [socket && currentWorkflowId].  The result is the new [lastCursorEmit]
    and the [cursor-update] payload emitted, if any ([Some None] is
    [{cursor: null}]). *)
Definition emitCursorUpdate (connected : bool) (cursor : option (Z * Z)) (now : Z)
    (lastCursorEmit : Z) : Z * option (option (Z * Z)) :=
  if negb connected then (lastCursorEmit, None)
  else
    match cursor with
    | None => (now, Some None)
    | Some c =>
        if decide (33 ≤ now - lastCursorEmit) then (now, Some (Some c))
        else (lastCursorEmit, None)
    end.

(** A run of calls on a connected socket, each with its clock reading; the
    emissions are listed with the time of each. *)
Fixpoint cursorRun (calls : list (Z * option (Z * Z))) (lastCursorEmit : Z)
    : list (Z * option (Z * Z)) :=
  match calls with
  | [] => []
  | (now, cursor) :: rest =>
      match emitCursorUpdate true cursor now lastCursorEmit with
      | (last', Some payload) => (now, payload) :: cursorRun rest last'
      | (last', None) => cursorRun rest last'
      end
  end.

End SocketContext.

Module CollaborativeWorkspace.

(** [WorkspaceResourceUpdate], the payload of a workspace event. *)
Record Update := {
  update_workspaceId : string;
  update_resourceType : ResourceType;
  update_operation : Operation;
  update_data : option JsValue;
  update_timestamp : Z
}.

(** The optional [clearCacheFunction]: absent, or a function of no
    parameter, or one whose [length] is 1 and which is handed the
    workspace id. *)
Inductive ClearCache := NoClear | ClearAll | ClearForWorkspace.

(** What a handler does to the stores. *)
Inductive Action :=
| CacheCleared (resourceName : string) (workspaceId : option string)
| FetchStarted (resourceName workspaceId : string).

(** The ref [isApplyingRemoteChange], shared by every handler of the hook,
    and the calls made so far. *)
Record Client := { isApplying : bool; actions : list Action }.

(** The function that [createResourceUpdateHandler] returns; [workspaceId]
    is the hook's own, absent when undefined. *)
Definition createResourceUpdateHandler (workspaceId : option string) (resourceName : string)
    (clearCacheFunction : ClearCache) (data : Update) (c : Client) : Client :=
  match workspaceId with
  | Some ws =>
      if negb (truthy (Some ws))
         || negb (bool_decide (update_workspaceId data = ws))
         || isApplying c
      then c
      else
        {| isApplying := true;
           actions :=
             actions c
             ++ match clearCacheFunction with
                | NoClear => []
                | ClearAll => [ CacheCleared resourceName None ]
                | ClearForWorkspace => [ CacheCleared resourceName (Some ws) ]
                end
             ++ [ FetchStarted resourceName ws ] |}
  | None => c
  end.


End CollaborativeWorkspace.

(** ** Position updates of the client ([emitWorkflowOperation],
       [contexts/socket-context.tsx], lines 722-790)

    Moves of a block that are not committed are parked, one per block, and
    sent by a 33 ms timer; everything else is sent at once. *)

Module PositionThrottle.

(** The argument [payload] of [emitWorkflowOperation] as far as the function
    reads it: its properties [id] and [commit], absent when undefined, and
    the other properties. *)
Record OperationPayload := {
  payload_id : option string;
  payload_commit : option bool;
  payload_rest : list (string * JsValue)
}.

(** The object handed to [socket.emit('workflow-operation', ...)]. *)
Record WorkflowOperation := {
  op_operation : string;
  op_target : string;
  op_payload : option OperationPayload;     (* [None] is [null] or [undefined] *)
  op_timestamp : Z;
  op_operationId : option string
}.

(** The refs [pendingPositionUpdates] and [positionUpdateTimeouts] (the block
    ids that have a timer; a timer's id is never 0) and the operations
    emitted so far. *)
Record Throttle := {
  pendingPositionUpdates : gmap string WorkflowOperation;
  positionUpdateTimeouts : gset string;
  emitted : list WorkflowOperation
}.

Definition idle : Throttle :=
  {| pendingPositionUpdates := ∅; positionUpdateTimeouts := ∅; emitted := [] |}.

(** [emitWorkflowOperation]; [connected] is [socket && currentWorkflowId],
    [now] the reading of [Date.now()].  [None] is the [TypeError] of
    [payload.id] on a payload that is [null] or [undefined]. *)
Definition emitWorkflowOperation (connected : bool) (operation target : string)
    (payload : option OperationPayload) (operationId : option string) (now : Z)
    (t : Throttle) : option Throttle :=
  if negb connected then Some t
  else
    let isPositionUpdate :=
      bool_decide (operation = "update-position") && bool_decide (target = "block") in
    let commit :=
      match payload with
      | Some p => default true (payload_commit p)
      | None => true
      end in
    let message :=
      {| op_operation := operation; op_target := target; op_payload := payload;
         op_timestamp := now; op_operationId := operationId |} in
    let emit_now :=
      {| pendingPositionUpdates := pendingPositionUpdates t;
         positionUpdateTimeouts := positionUpdateTimeouts t;
         emitted := emitted t ++ [ message ] |} in
    if isPositionUpdate then
      match payload with
      | None => None
      | Some p =>
          if truthy (payload_id p) then
            let blockId := default "" (payload_id p) in
            if commit then
              Some {| pendingPositionUpdates := delete blockId (pendingPositionUpdates t);
                      positionUpdateTimeouts :=
                        if decide (blockId ∈ positionUpdateTimeouts t)
                        then positionUpdateTimeouts t ∖ {[ blockId ]}
                        else positionUpdateTimeouts t;
                      emitted := emitted t ++ [ message ] |}
            else
              Some {| pendingPositionUpdates :=
                        <[ blockId := message ]> (pendingPositionUpdates t);
                      positionUpdateTimeouts :=
                        if decide (blockId ∈ positionUpdateTimeouts t)
                        then positionUpdateTimeouts t
                        else {[ blockId ]} ∪ positionUpdateTimeouts t;
                      emitted := emitted t |}
          else Some emit_now
      end
    else Some emit_now.

(** The callback of the 33 ms timer armed for [blockId]; a timer that was
    cleared, or never armed, does not fire. *)
Definition positionTimerFires (blockId : string) (t : Throttle) : Throttle :=
  if decide (blockId ∈ positionUpdateTimeouts t) then
    let t1 :=
      match pendingPositionUpdates t !! blockId with
      | Some latestUpdate =>
          {| pendingPositionUpdates := delete blockId (pendingPositionUpdates t);
             positionUpdateTimeouts := positionUpdateTimeouts t;
             emitted := emitted t ++ [ latestUpdate ] |}
      | None => t
      end in
    {| pendingPositionUpdates := pendingPositionUpdates t1;
       positionUpdateTimeouts := positionUpdateTimeouts t1 ∖ {[ blockId ]};
       emitted := emitted t1 |}
  else t.

(** What [leaveWorkflow], lines 671-689, does to the two refs: every timer
    is cleared and both maps are emptied. *)
Definition clearPositionUpdates (connected : bool) (t : Throttle) : Throttle :=
  if connected then
    {| pendingPositionUpdates := ∅; positionUpdateTimeouts := ∅; emitted := emitted t |}
  else t.

(** What can happen to the throttle, and runs of it; an operation that
    throws leaves the refs as they were. *)
Inductive Event :=
| Emits (connected : bool) (operation target : string) (payload : option OperationPayload)
        (operationId : option string) (now : Z)
| TimerFires (blockId : string)
| Leaves (connected : bool).

Definition step (t : Throttle) (e : Event) : Throttle :=
  match e with
  | Emits connected operation target payload operationId now =>
      default t (emitWorkflowOperation connected operation target payload operationId now t)
  | TimerFires blockId => positionTimerFires blockId t
  | Leaves connected => clearPositionUpdates connected t
  end.

Definition run (t : Throttle) (es : list Event) : Throttle := foldl step t es.

End PositionThrottle.

(** ** [WorkspaceInitializer]
       ([app/workspace/[workspaceId]/providers/workspace-initializer.tsx],
       lines 31-148)

    The log is left out; what the loads do to the stores is outside the
    modelled files. *)

Module WorkspaceInitializer.

Record WorkspaceInitState := {
  isInitializing : bool;
  isReady : bool;
  error : option string;
  retryCount : Z
}.

Definition MAX_RETRIES : Z := 3.
Definition RETRY_DELAY : Z := 1000.

(** What [initializeWorkspace] does that is seen outside: the states it
    sets, the loads it starts, the timers it arms. *)
Inductive Effect :=
| SetState (s : WorkspaceInitState)
| Load (what argument : string)
| SetTimeout (ms : Z).

(** What the stores answer to one attempt: whether the promises of
    [loadWorkflows] and [fetchFolders] are fulfilled, and which provider
    models are loaded already. *)
Record Attempt := {
  workflowsLoaded : bool;
  foldersLoaded : bool;
  hasLoadedModels : string → bool
}.

(** The loads of phase 2, lines 95-109, in the order they are started. *)
Definition secondaryLoads (workspaceId : string) (a : Attempt) : list Effect :=
  [ Load "fetchTools" workspaceId; Load "loadWorkspaceEnvironment" workspaceId;
    Load "fetchServers" workspaceId; Load "getKnowledgeBasesList" workspaceId ]
  ++ (if hasLoadedModels a "base" then [] else [ Load "fetchModels" "base" ])
  ++ (if hasLoadedModels a "ollama" then [] else [ Load "fetchModels" "ollama" ])
  ++ (if hasLoadedModels a "openrouter" then [] else [ Load "fetchModels" "openrouter" ]).

(** [initializeWorkspace(retryAttempt)] together with the retries its timers
    start; [answers] gives the stores' answers to each attempt,
    [initializing] is [initializingRef.current] at the call.  The recursion
    of the source goes through [setTimeout]; [fuel] bounds it here. *)
Fixpoint initializeWorkspace (fuel : nat) (answers : Z → Attempt) (workspaceId : string)
    (initializing : bool) (retryAttempt : Z) : option (list Effect) :=
  match fuel with
  | O => None
  | S fuel' =>
      if negb (truthy (Some workspaceId)) || initializing then Some []
      else
        let a := answers retryAttempt in
        let started :=
          [ SetState {| isInitializing := true; isReady := false; error := None;
                        retryCount := retryAttempt |};
            Load "loadWorkflows" workspaceId; Load "fetchFolders" workspaceId ] in
        let criticalResults := [ workflowsLoaded a; foldersLoaded a ] in
        let criticalFailures := filter (λ r, r = false) criticalResults in
        if decide (0 < length criticalFailures)%nat then
          let errorMessage :=
            if decide (length criticalFailures = length criticalResults)
            then "Failed to load all critical workspace data"
            else "Failed to load " +:+ pretty (length criticalFailures)
                 +:+ " critical workspace resources" in
          if decide (retryAttempt < MAX_RETRIES - 1) then
            rest ← initializeWorkspace fuel' answers workspaceId false (retryAttempt + 1);
            Some (started ++ [ SetTimeout (RETRY_DELAY * (retryAttempt + 1)) ] ++ rest)
          else
            Some (started
                  ++ [ SetState {| isInitializing := false; isReady := false;
                                   error := Some errorMessage;
                                   retryCount := retryAttempt |} ])
        else
          Some (started ++ secondaryLoads workspaceId a
                ++ [ SetState {| isInitializing := false; isReady := true; error := None;
                                 retryCount := retryAttempt |} ])
  end.

Definition waits (trace : list Effect) : list Z :=
  omap (λ e, match e with SetTimeout ms => Some ms | _ => None end) trace.

Definition states (trace : list Effect) : list WorkspaceInitState :=
  omap (λ e, match e with SetState s => Some s | _ => None end) trace.

End WorkspaceInitializer.

(** * Properties

    The vocabulary of the statements: the event table of section 4.6 of the
    specification, the invariants of its section 3, the correspondence
    between ingress endpoints and registry operations, and the small
    concrete registries the statements are exercised on. *)

(** The event-name column of the table of section 4.6, as the specification
    words it. *)
Definition past_participle (op : Operation) : string :=
  match op with create => "created" | update => "updated" | delete_ => "deleted" end.

Definition table_4_6 (rt : ResourceType) (op : Operation) : string :=
  match rt with
  | env => "workspace-env-updated"
  | tools => "workspace-tool-" +:+ past_participle op
  | folders => "workspace-folder-" +:+ past_participle op
  | mcp => "workspace-mcp-" +:+ past_participle op
  | workflows => "workspace-workflow-" +:+ past_participle op
  end.

(** What a handler may change besides [sent]: the five maps of the registry,
    the set of connected sockets and the adapter's membership. *)
Definition same_rooms (st st' : State) : Prop :=
  workflowRooms st' = workflowRooms st ∧ workspaceRooms st' = workspaceRooms st
  ∧ socketToWorkflow st' = socketToWorkflow st
  ∧ socketToWorkspace st' = socketToWorkspace st
  ∧ userSessions st' = userSessions st ∧ joined st' = joined st.

(** Every room is registered under its own id, as [createWorkflowRoom] and
    the join path make it. *)
Definition rooms_keyed_by_id (st : State) : Prop :=
  ∀ w room, workflowRooms st !! w = Some room → WorkflowRoom.workflowId room = w.

(** Section 3: "activeConnections equals the cardinality of the membership
    set" and "a room exists in the registry if and only if its active count
    is strictly positive". *)
Definition counts_match (st : State) : Prop :=
  (∀ w room, workflowRooms st !! w = Some room →
     WorkflowRoom.activeConnections room = Z.of_nat (size (WorkflowRoom.users room))
     ∧ 0 < WorkflowRoom.activeConnections room)
  ∧ (∀ ws room, workspaceRooms st !! ws = Some room →
     WorkspaceRoom.activeConnections room = Z.of_nat (size (WorkspaceRoom.users room))
     ∧ 0 < WorkspaceRoom.activeConnections room).

(** Section 3: "socketToWorkflow[s] = w <-> s in workflowRooms[w].users",
    and the same for workspaces. *)
Definition indices_consistent (st : State) : Prop :=
  (∀ s w, socketToWorkflow st !! s = Some w
          ↔ ∃ room, workflowRooms st !! w = Some room
                    ∧ is_Some (WorkflowRoom.users room !! s))
  ∧ (∀ s ws, RoomManager.getWorkspaceIdForSocket s st = Some ws
             ↔ ∃ room, workspaceRooms st !! ws = Some room
                       ∧ s ∈ WorkspaceRoom.users room).

(** The notifications of the application tier at the types of the
    [RoomManager] signatures, the endpoint each is posted to, the fields its
    body carries and the operation the specification assigns to it. *)
Inductive Notification :=
| NWorkflowDeleted (workflowId : string)
| NWorkflowUpdated (workflowId : string)
| NWorkflowReverted (workflowId : string) (timestamp : Z)
| NCopilotWorkflowEdit (workflowId : string) (description : option string)
| NPermissionChanged (userId workspaceId : string) (newRole : option string) (isRemoved : bool)
| NWorkspaceResourceChanged (workspaceId : string) (resourceType : ResourceType)
                            (operation : Operation) (data : option JsValue).

Definition endpoint (n : Notification) : string :=
  match n with
  | NWorkflowDeleted _ => "/api/workflow-deleted"
  | NWorkflowUpdated _ => "/api/workflow-updated"
  | NWorkflowReverted _ _ => "/api/workflow-reverted"
  | NCopilotWorkflowEdit _ _ => "/api/copilot-workflow-edit"
  | NPermissionChanged _ _ _ _ => "/api/permission-changed"
  | NWorkspaceResourceChanged _ _ _ _ => "/api/workspace-resource-changed"
  end.

Definition endpoints : list string :=
  [ "/api/workflow-deleted"; "/api/workflow-updated"; "/api/workflow-reverted";
    "/api/copilot-workflow-edit"; "/api/permission-changed";
    "/api/workspace-resource-changed" ].

Definition operation_of (n : Notification) : State → State :=
  match n with
  | NWorkflowDeleted w => RoomManager.handleWorkflowDeletion w
  | NWorkflowUpdated w => RoomManager.handleWorkflowUpdate w
  | NWorkflowReverted w ts => RoomManager.handleWorkflowRevert w ts
  | NCopilotWorkflowEdit w d => RoomManager.handleCopilotWorkflowEdit w d
  | NPermissionChanged u ws r b => RoomManager.handlePermissionChange u ws r b
  | NWorkspaceResourceChanged ws rt op data =>
      RoomManager.handleWorkspaceResourceChange ws rt op data
  end.

Definition nullable (o : option string) : JsValue :=
  match o with Some s => JStr s | None => JNull end.

(** The properties of a parsed body carry the notification [n]. *)
Definition carries (f : string → option JsValue) (n : Notification) : Prop :=
  match n with
  | NWorkflowDeleted w | NWorkflowUpdated w => f "workflowId" = Some (JStr w)
  | NWorkflowReverted w ts =>
      f "workflowId" = Some (JStr w) ∧ f "timestamp" = Some (JNum ts)
  | NCopilotWorkflowEdit w d =>
      f "workflowId" = Some (JStr w) ∧ f "description" = JStr <$> d
  | NPermissionChanged u ws r b =>
      f "userId" = Some (JStr u) ∧ f "workspaceId" = Some (JStr ws)
      ∧ f "newRole" = Some (nullable r) ∧ f "isRemoved" = Some (JBool b)
  | NWorkspaceResourceChanged ws rt op data =>
      f "workspaceId" = Some (JStr ws)
      ∧ f "resourceType" = Some (JStr (ResourceType_name rt))
      ∧ f "operation" = Some (JStr (Operation_name op))
      ∧ f "data" = data
  end.

(** The body the application tier sends for [n]. *)
Definition body_of (n : Notification) : JsValue :=
  match n with
  | NWorkflowDeleted w | NWorkflowUpdated w => JObj [("workflowId", JStr w)]
  | NWorkflowReverted w ts => JObj [("workflowId", JStr w); ("timestamp", JNum ts)]
  | NCopilotWorkflowEdit w d =>
      JObj (("workflowId", JStr w) :: match d with
                                      | Some s => [("description", JStr s)]
                                      | None => []
                                      end)
  | NPermissionChanged u ws r b =>
      JObj [("userId", JStr u); ("workspaceId", JStr ws); ("newRole", nullable r);
            ("isRemoved", JBool b)]
  | NWorkspaceResourceChanged ws rt op data =>
      JObj ([("workspaceId", JStr ws); ("resourceType", JStr (ResourceType_name rt));
             ("operation", JStr (Operation_name op))]
            ++ match data with Some v => [("data", v)] | None => [] end)
  end.

(** *** The workspace half of the invariants, and the runs that keep it *)

(** The workspace halves of [counts_match] and [indices_consistent]; no room
    is registered under the empty id, which the join handler takes for "no
    workspace". *)
Definition workspace_registry_ok (st : State) : Prop :=
  workspaceRooms st !! "" = None
  ∧ (∀ ws room, workspaceRooms st !! ws = Some room →
       WorkspaceRoom.activeConnections room = Z.of_nat (size (WorkspaceRoom.users room))
       ∧ 0 < WorkspaceRoom.activeConnections room)
  ∧ (∀ s ws, RoomManager.getWorkspaceIdForSocket s st = Some ws
             ↔ ∃ room, workspaceRooms st !! ws = Some room
                       ∧ s ∈ WorkspaceRoom.users room).

(** A request that names the socket's actual situation: a join of a workspace
    the socket is not in, a leave or cleanup of the workspace it is in. *)
Definition disciplined (st : State) (r : WorkspaceHandlers.Request) : Prop :=
  match r with
  | WorkspaceHandlers.JoinWorkspace socket ws =>
      ws ≠ "" ∧ RoomManager.getWorkspaceIdForSocket (id socket) st ≠ Some ws
  | WorkspaceHandlers.LeaveWorkspace socket ws =>
      RoomManager.getWorkspaceIdForSocket (id socket) st = Some ws
  | WorkspaceHandlers.Cleanup s ws =>
      RoomManager.getWorkspaceIdForSocket s st = Some ws
  end.

Fixpoint disciplined_run (verify : string → string → AccessOutcome) (st : State)
    (rs : list WorkspaceHandlers.Request) : Prop :=
  match rs with
  | [] => True
  | r :: rs => disciplined st r ∧ disciplined_run verify (WorkspaceHandlers.step verify st r) rs
  end.

(** *** Vocabulary of the eviction controller (section 4.7) *)

(** [presence.role = newRole] on the presence of [socketId]. *)
Definition relabel (newRole : option string) (socketId : string)
    (r : WorkflowRoom.t) : WorkflowRoom.t :=
  WorkflowRoom.set_users
    (alter (UserPresence.set_role newRole) socketId (WorkflowRoom.users r)) r.

(** The presence stored for socket [s] in room [w] is [p] up to its role. *)
Definition holds_presence (newRole : option string) (w s : string) (p : UserPresence.t)
    (st : State) : Prop :=
  ∃ room' p', workflowRooms st !! w = Some room'
              ∧ WorkflowRoom.users room' !! s = Some p'
              ∧ UserPresence.set_role newRole p' = UserPresence.set_role newRole p.

(** ... and that presence now carries the new role. *)
Definition holds_relabelled (newRole : option string) (w s : string) (p : UserPresence.t)
    (st : State) : Prop :=
  ∃ room', workflowRooms st !! w = Some room'
           ∧ WorkflowRoom.users room' !! s = Some (UserPresence.set_role newRole p).

(** Socket [s] is in no room registered under [w]. *)
Definition evicted (w s : string) (st : State) : Prop :=
  ∀ r, workflowRooms st !! w = Some r → WorkflowRoom.users r !! s = None.

(** The [permission-revoked] event of lines 227-231. *)
Definition revoked_notice (workspaceId s : string) (now : Z) : Emit :=
  {| target := ToSocket s; event := "permission-revoked";
     payload := PermissionRevoked workspaceId
                  "Your access to this workspace has been removed" now |}.

(** Lines 226-233: tell the socket, if it is connected, and take it out of
    the socket.io room of the workflow. *)
Definition announce_revocation (workspaceId s wid : string) (st : State) : State :=
  if_connected s
    (λ s1, socket_leave s wid
             (emit (ToSocket s) "permission-revoked"
                   (PermissionRevoked workspaceId
                      "Your access to this workspace has been removed" (clock s1)) s1))
    st.

(** What a revocation leaves of one connection of the user. *)
Definition evicted_and_told (workspaceId w s : string) (st0 st : State) : Prop :=
  evicted w s st
  ∧ socketToWorkflow st !! s = None
  ∧ userSessions st !! s = None
  ∧ (s ∈ sockets st0 →
     revoked_notice workspaceId s (clock st0) ∈ sent st ∧ (s, w) ∉ joined st).

(** No room is registered under [w]. *)
Definition closed (w : string) (st : State) : Prop := workflowRooms st !! w = None.

(** The notifier reported that the timer fired before the request settled. *)
Definition timed_out (tr : list Notifier.Effect) : Prop :=
  ∃ text, Notifier.Log Notifier.warn ("Socket notification timeout after 5s for " +:+ text) ∈ tr.

(** The network does not settle a request within [ms] milliseconds. *)
Definition silent_for (ms : Z) (net : Notifier.Network) : Prop :=
  match Notifier.latency net with Some t => ms ≤ t | None => True end.

(** The workflow a workflow notification is about. *)
Definition workflow_of (n : Notification) : option string :=
  match n with
  | NWorkflowDeleted w | NWorkflowUpdated w | NWorkflowReverted w _
  | NCopilotWorkflowEdit w _ => Some w
  | _ => None
  end.

(** *** Sample registries and requests *)

(** Durable stores that know workflow [W2] of workspace [WS1], where Bob
    may edit, and hold no record of [W1]. *)
Definition stores_without_W1 : WorkflowHandlers.Durable :=
  {| WorkflowHandlers.workflowRecords := {[ "W2" := "WS1" ]};
     WorkflowHandlers.permissions := {[ ("bob", "WS1") := "edit" ]} |}.

(** A network that never answers, and one that answers after 120 ms. *)
Definition hung_network : Notifier.Network :=
  {| Notifier.latency := None; Notifier.settlement := Notifier.Failure |}.

Definition quick_network : Notifier.Network :=
  {| Notifier.latency := Some 120; Notifier.settlement := Notifier.Response true |}.


(** A JSON reader that knows one text, for exercising the ingress. *)
Definition sample_parse (n : Notification) (text : string) : option JsValue :=
  if decide (text = "<body>") then Some (body_of n) else None.

Definition alice_socket : AuthenticatedSocket :=
  {| id := "s1"; socket_userId := Some "alice"; socket_userName := Some "Alice" |}.

Definition bob_socket : AuthenticatedSocket :=
  {| id := "s2"; socket_userId := Some "bob"; socket_userName := Some "Bob" |}.

Definition grant_all (userId workspaceId : string) : AccessOutcome :=
  AccessInfo true (Some "edit").

Definition deny_all (userId workspaceId : string) : AccessOutcome :=
  AccessInfo false None.

(** Alice, connected on [s1], sits in workspace room [WS1]. *)
Definition alice_in_WS1 : State :=
  WorkspaceHandlers.join_workspace grant_all alice_socket "WS1"
    {| workflowRooms := ∅; workspaceRooms := ∅; socketToWorkflow := ∅;
       socketToWorkspace := ∅; userSessions := ∅; sockets := {[ "s1" ]}; joined := ∅;
       sent := []; clock := 1000 |}.

Definition alice_presence : UserPresence.t :=
  UserPresence.mk "alice" "W1" "Alice" "s1" 1000 1000 (Some "edit") None None None.

Definition carol_socket : AuthenticatedSocket :=
  {| id := "s3"; socket_userId := Some "carol"; socket_userName := Some "Carol" |}.

(** Three short runs of workspace requests, from the empty registry: Alice
    joins [WS1] twice on the same socket; Carol, who never joined, leaves
    [WS1] while Alice and Bob are in it; Alice, in [WS1], leaves [WS2]. *)
Definition join_twice : list WorkspaceHandlers.Request :=
  [ WorkspaceHandlers.JoinWorkspace alice_socket "WS1";
    WorkspaceHandlers.JoinWorkspace alice_socket "WS1" ].

Definition stray_leave : list WorkspaceHandlers.Request :=
  [ WorkspaceHandlers.JoinWorkspace alice_socket "WS1";
    WorkspaceHandlers.JoinWorkspace bob_socket "WS1";
    WorkspaceHandlers.LeaveWorkspace carol_socket "WS1" ].

Definition leave_other : list WorkspaceHandlers.Request :=
  [ WorkspaceHandlers.JoinWorkspace alice_socket "WS1";
    WorkspaceHandlers.LeaveWorkspace alice_socket "WS2" ].

(** Alice also edits workflow [W1], whose room holds her presence. *)
Definition alice_in_W1 : State :=
  upd_socketToWorkflow (insert "s1" "W1")
    (upd_workflowRooms
       (insert "W1" (WorkflowRoom.mk "W1" {[ "s1" := alice_presence ]} 1000 1))
       alice_in_WS1).

(** *** Vocabulary of the registry's further properties *)

(** The [workflow-deleted] event of lines 100-104 of [rooms/manager.ts]. *)
Definition deleted_notice (w : string) (now : Z) : Emit :=
  {| target := ToRoom w; event := "workflow-deleted";
     payload := WorkflowNotice w "This workflow has been deleted" now |}.

(** One turn of the loop of [handleWorkflowDeletion], lines 111-118. *)
Definition disconnectStep (w : string) (acc : State) (s : string) : State :=
  RoomManager.cleanupUserFromRoom s w (if_connected s (socket_leave s w) acc).

(** The notifications that only announce: every one but a deletion and a
    permission change. *)
Definition quiet (n : Notification) : Prop :=
  match n with
  | NWorkflowDeleted _ | NPermissionChanged _ _ _ _ => False
  | _ => True
  end.

(** The room a notification is about is registered. *)
Definition has_room (st : State) (n : Notification) : bool :=
  match n with
  | NWorkspaceResourceChanged ws _ _ _ => bool_decide (is_Some (workspaceRooms st !! ws))
  | _ => bool_decide (is_Some (workflow_of n ≫= λ w, workflowRooms st !! w))
  end.

(** Who is where: the members and the counter of every room, the reverse
    indices, the sessions, the adapter's rooms and the connected sockets.
    Only [lastModified] and [sent] are left out. *)
Definition same_membership (st st' : State) : Prop :=
  (∀ w, WorkflowRoom.users <$> workflowRooms st' !! w
        = WorkflowRoom.users <$> workflowRooms st !! w)
  ∧ (∀ w, WorkflowRoom.activeConnections <$> workflowRooms st' !! w
          = WorkflowRoom.activeConnections <$> workflowRooms st !! w)
  ∧ (∀ ws, WorkspaceRoom.users <$> workspaceRooms st' !! ws
           = WorkspaceRoom.users <$> workspaceRooms st !! ws)
  ∧ (∀ ws, WorkspaceRoom.activeConnections <$> workspaceRooms st' !! ws
           = WorkspaceRoom.activeConnections <$> workspaceRooms st !! ws)
  ∧ socketToWorkflow st' = socketToWorkflow st
  ∧ socketToWorkspace st' = socketToWorkspace st
  ∧ userSessions st' = userSessions st
  ∧ joined st' = joined st ∧ sockets st' = sockets st.

(** No registered workspace room has a counter of zero or less. *)
Definition workspace_counters_positive (st : State) : Prop :=
  ∀ ws room, workspaceRooms st !! ws = Some room → 0 < WorkspaceRoom.activeConnections room.

(** The workflow half of [counts_match]. *)
Definition workflow_counts_match (st : State) : Prop :=
  ∀ w room, workflowRooms st !! w = Some room →
    WorkflowRoom.activeConnections room = Z.of_nat (size (WorkflowRoom.users room))
    ∧ 0 < WorkflowRoom.activeConnections room.

(** The sum of the counters of a list of rooms. *)
Definition tally (rooms : list WorkflowRoom.t) : Z :=
  foldl (λ total room, total + WorkflowRoom.activeConnections room) 0 rooms.

(** The user ids of a list of presences. *)
Definition userIdsOf (presences : list UserPresence.t) : gset string :=
  foldl (λ acc presence, {[ UserPresence.userId presence ]} ∪ acc) ∅ presences.

(** A room in which every presence of [userId] carries [newRole]. *)
Definition relabel_user (userId : string) (newRole : option string) (room : WorkflowRoom.t)
    : WorkflowRoom.t :=
  WorkflowRoom.set_users
    ((λ p, if decide (UserPresence.userId p = userId)
           then UserPresence.set_role newRole p else p) <$> WorkflowRoom.users room) room.

(** A room after some turns of the role loop: some presences of [userId]
    carry the new role already. *)
Definition partly_relabelled (userId : string) (newRole : option string)
    (r r' : WorkflowRoom.t) : Prop :=
  WorkflowRoom.workflowId r' = WorkflowRoom.workflowId r
  ∧ WorkflowRoom.lastModified r' = WorkflowRoom.lastModified r
  ∧ WorkflowRoom.activeConnections r' = WorkflowRoom.activeConnections r
  ∧ ∀ s, WorkflowRoom.users r' !! s = WorkflowRoom.users r !! s
         ∨ ∃ p, WorkflowRoom.users r !! s = Some p ∧ UserPresence.userId p = userId
                ∧ WorkflowRoom.users r' !! s = Some (UserPresence.set_role newRole p).

Definition rooms_partly_relabelled (userId : string) (newRole : option string)
    (st a : State) : Prop :=
  ∀ w, match workflowRooms st !! w with
       | Some r => ∃ r', workflowRooms a !! w = Some r' ∧ partly_relabelled userId newRole r r'
       | None => workflowRooms a !! w = None
       end.

(** A room without the sockets of [userId], its counter set to the number
    of sockets left; no room when none is left. *)
Definition without_user (userId : string) (room : WorkflowRoom.t) : option WorkflowRoom.t :=
  let rest := filter (λ sp, UserPresence.userId sp.2 ≠ userId) (WorkflowRoom.users room) in
  if decide (rest = ∅) then None
  else Some (WorkflowRoom.mk (WorkflowRoom.workflowId room) rest
               (WorkflowRoom.lastModified room) (Z.of_nat (size rest))).

(** The state without the record of what was emitted. *)
Definition forget_sent (st : State) : State :=
  {| workflowRooms := workflowRooms st; workspaceRooms := workspaceRooms st;
     socketToWorkflow := socketToWorkflow st; socketToWorkspace := socketToWorkspace st;
     userSessions := userSessions st; sockets := sockets st; joined := joined st;
     sent := []; clock := clock st |}.

(** [userId] has no presence in any workflow room. *)
Definition has_no_session (userId : string) (st : State) : Prop :=
  ∀ w room s p, workflowRooms st !! w = Some room → WorkflowRoom.users room !! s = Some p →
                UserPresence.userId p ≠ userId.

(** Socket [s] holds a presence of [userId] in some workflow room. *)
Definition is_socket_of (userId : string) (st : State) (s : string) : Prop :=
  ∃ w room p, workflowRooms st !! w = Some room ∧ WorkflowRoom.users room !! s = Some p
              ∧ UserPresence.userId p = userId.

(** *** Vocabulary of the workspace handlers *)

(** [accessInfo.role || 'read'], line 56 of [handlers/workspace.ts]. *)
Definition granted_role (accessRole : option string) : string :=
  match accessRole with
  | Some r => if decide (r = "") then "read" else r
  | None => "read"
  end.

Definition joined_notice (socketId workspaceId role : string) (activeUsers : Z) : Emit :=
  {| target := ToSocket socketId; event := "joined-workspace";
     payload := JoinedWorkspace workspaceId role activeUsers |}.

Definition left_notice (socketId workspaceId : string) : Emit :=
  {| target := ToSocket socketId; event := "left-workspace";
     payload := LeftWorkspace workspaceId |}.

(** The connection is authenticated and the access check lets it in. *)
Definition admitted (verify : string → string → AccessOutcome) (socket : AuthenticatedSocket)
    (workspaceId : string) (accessRole : option string) : Prop :=
  ∃ userId userName,
    socket_userId socket = Some userId ∧ userId ≠ ""
    ∧ socket_userName socket = Some userName ∧ userName ≠ ""
    ∧ verify userId workspaceId = AccessInfo true accessRole.

(** *** Vocabulary of the notifier and of the client *)

(** The network settles the request within the 5000 ms with an [ok]
    response. *)
Definition answered_ok (net : Notifier.Network) : Prop :=
  ∃ t, Notifier.latency net = Some t ∧ t < 5000
       ∧ Notifier.settlement net = Notifier.Response true.

(** [env.SOCKET_SERVER_URL || 'http://localhost:3002'] *)
Definition base_url (socketServerUrl : option string) : string :=
  match socketServerUrl with
  | Some u => if decide (u = "") then "http://localhost:3002" else u
  | None => "http://localhost:3002"
  end.

(** Every emission that carries a position comes at least 33 ms after the
    emission before it ([last] for the first). *)
Fixpoint spaced (last : Z) (out : list (Z * option (Z * Z))) : Prop :=
  match out with
  | [] => True
  | (t, p) :: rest => (is_Some p → 33 ≤ t - last) ∧ spaced t rest
  end.


(** *** Further sample values *)

(** The room of [W1] in [alice_in_W1]. *)
Definition W1_room : WorkflowRoom.t :=
  WorkflowRoom.mk "W1" {[ "s1" := alice_presence ]} 1000 1.

(** Two announcements about rooms Alice is in. *)
Definition two_announcements : list Notification :=
  [ NWorkflowUpdated "W1"; NWorkspaceResourceChanged "WS1" tools create None ].

(** Alice joins [WS1] and leaves it again. *)
Definition in_and_out : list WorkspaceHandlers.Request :=
  [ WorkspaceHandlers.JoinWorkspace alice_socket "WS1";
    WorkspaceHandlers.LeaveWorkspace alice_socket "WS1" ].




(** A POST whose body is not JSON. *)
Definition garbled_deletion : Http.Request :=
  {| Http.method := "POST"; Http.url := "/api/workflow-deleted"; Http.body := "{" |}.

(** *** Vocabulary of the client's throttle and initializer *)

(** A position is parked for a block exactly when a timer is armed for
    it. *)
Definition parked_iff_armed (t : PositionThrottle.Throttle) : Prop :=
  ∀ b, is_Some (PositionThrottle.pendingPositionUpdates t !! b)
       ↔ b ∈ PositionThrottle.positionUpdateTimeouts t.

(** An uncommitted move of block [b]. *)
Definition drag (b : string) (rest : list (string * JsValue))
    : option PositionThrottle.OperationPayload :=
  Some {| PositionThrottle.payload_id := Some b;
          PositionThrottle.payload_commit := Some false;
          PositionThrottle.payload_rest := rest |}.

(** The call that reports such a move, with its other properties, its
    operation id and the time of the call. *)
Definition dragged (b : string) (m : list (string * JsValue) * option string * Z)
    : PositionThrottle.Event :=
  PositionThrottle.Emits true "update-position" "block" (drag b m.1.1) m.1.2 m.2.

(** ... and the message parked for it. *)
Definition drag_message (b : string) (m : list (string * JsValue) * option string * Z)
    : PositionThrottle.WorkflowOperation :=
  {| PositionThrottle.op_operation := "update-position";
     PositionThrottle.op_target := "block";
     PositionThrottle.op_payload := drag b m.1.1;
     PositionThrottle.op_timestamp := m.2;
     PositionThrottle.op_operationId := m.1.2 |}.

(** Both critical loads of an attempt were fulfilled. *)
Definition critical_ok (a : WorkspaceInitializer.Attempt) : bool :=
  WorkspaceInitializer.workflowsLoaded a && WorkspaceInitializer.foldersLoaded a.

(** The message of the error thrown when they were not. *)
Definition failure_message (a : WorkspaceInitializer.Attempt) : string :=
  if WorkspaceInitializer.workflowsLoaded a || WorkspaceInitializer.foldersLoaded a
  then "Failed to load 1 critical workspace resources"
  else "Failed to load all critical workspace data".

(** The state set when attempt [retryAttempt] is the last. *)
Definition settled (a : WorkspaceInitializer.Attempt) (retryAttempt : Z)
    : WorkspaceInitializer.WorkspaceInitState :=
  if critical_ok a
  then {| WorkspaceInitializer.isInitializing := false; WorkspaceInitializer.isReady := true;
          WorkspaceInitializer.error := None;
          WorkspaceInitializer.retryCount := retryAttempt |}
  else {| WorkspaceInitializer.isInitializing := false; WorkspaceInitializer.isReady := false;
          WorkspaceInitializer.error := Some (failure_message a);
          WorkspaceInitializer.retryCount := retryAttempt |}.

(** A block dragged twice and released, a later timer, and the user
    leaving the workflow. *)
Definition drag_and_drop : list PositionThrottle.Event :=
  [ dragged "b1" ([], None, 10); dragged "b1" ([], None, 20);
    PositionThrottle.Emits true "update-position" "block"
      (Some {| PositionThrottle.payload_id := Some "b1";
               PositionThrottle.payload_commit := None;
               PositionThrottle.payload_rest := [] |}) None 30;
    PositionThrottle.TimerFires "b1"; PositionThrottle.Leaves true ].

Definition drop_b1 : PositionThrottle.OperationPayload :=
  {| PositionThrottle.payload_id := Some "b1"; PositionThrottle.payload_commit := None;
     PositionThrottle.payload_rest := [] |}.

(** Stores whose folders never load. *)
Definition folders_never_load (retryAttempt : Z) : WorkspaceInitializer.Attempt :=
  {| WorkspaceInitializer.workflowsLoaded := true;
     WorkspaceInitializer.foldersLoaded := false;
     WorkspaceInitializer.hasLoadedModels := λ _, true |}.

(** * Workspace fan-out (section 4.6) *)

Section Fanout.

Lemma eventMap_table rt op :
  rt ≠ mcp → RoomManager.eventMap op rt = table_4_6 rt op.
Proof. destruct rt, op; intros Hrt; try reflexivity; by destruct Hrt. Qed.

Lemma table_keeps_operations_apart rt op :
  rt ≠ env → op ≠ update → table_4_6 rt op ≠ table_4_6 rt update.
Proof. destruct rt, op; intros Hrt Hop; try done; by vm_compute. Qed.

Lemma fanout_emits st ws room rt op data :
  workspaceRooms st !! ws = Some room →
  sent (RoomManager.handleWorkspaceResourceChange ws rt op data st)
  = sent st ++ [ {| target := ToRoom ws; event := RoomManager.eventMap op rt;
                    payload := ResourceChange ws rt op data (clock st) |} ].
Proof. intros Hroom. unfold RoomManager.handleWorkspaceResourceChange. by rewrite Hroom. Qed.

(** C1, as the code has it.  While the workspace room exists, a tuple whose
    resource type is env, tools, folders or workflows is emitted to the
    room under the event name of the table of section 4.6, with the tuple
    in the payload; for tools, folders and workflows the names of create
    and delete differ from the name of update. *)
Theorem fanout_event_names st ws room rt op data :
  workspaceRooms st !! ws = Some room →
  rt ≠ mcp →
  sent (RoomManager.handleWorkspaceResourceChange ws rt op data st)
  = sent st ++ [ {| target := ToRoom ws; event := table_4_6 rt op;
                    payload := ResourceChange ws rt op data (clock st) |} ]
  ∧ (rt ≠ env → op ≠ update →
     RoomManager.eventMap op rt ≠ RoomManager.eventMap update rt).
Proof.
  intros Hroom Hrt. split.
  - rewrite (fanout_emits _ _ _ _ _ _ Hroom). by rewrite eventMap_table.
  - intros Henv Hop. rewrite !eventMap_table by done.
    by apply table_keeps_operations_apart.
Qed.

Lemma fanout_event_names_witness :
  sent (RoomManager.handleWorkspaceResourceChange "WS1" folders delete_ None alice_in_WS1)
  = sent alice_in_WS1
    ++ [ {| target := ToRoom "WS1"; event := "workspace-folder-deleted";
            payload := ResourceChange "WS1" folders delete_ None 1000 |} ]
  ∧ (folders ≠ env → delete_ ≠ update →
     RoomManager.eventMap delete_ folders ≠ RoomManager.eventMap update folders).
Proof.
  apply (fanout_event_names alice_in_WS1 "WS1"
           (WorkspaceRoom.mk "WS1" {[ "s1" ]} 1000 1) folders delete_ None).
  - reflexivity.
  - discriminate.
Defined.

(** C1 fails as stated.  With Alice in the room of [WS1], deleting an env
    entry is announced under the very name of an env update, and creating
    an MCP server is announced as [workspace-mcp-updated], not as the
    [workspace-mcp-created] of the table. *)
Lemma fanout_collapses_operations :
  event <$> last (sent (RoomManager.handleWorkspaceResourceChange
                          "WS1" env delete_ None alice_in_WS1))
  = event <$> last (sent (RoomManager.handleWorkspaceResourceChange
                            "WS1" env update None alice_in_WS1))
  ∧ event <$> last (sent (RoomManager.handleWorkspaceResourceChange
                            "WS1" mcp create None alice_in_WS1))
    = Some "workspace-mcp-updated"
  ∧ table_4_6 mcp create = "workspace-mcp-created".
Proof. by vm_compute. Qed.

End Fanout.

(** * Ingress adapter (section 4.8) *)

Section Ingress.
Variable JSON_parse : string → option JsValue.

Abbreviation handler := (Http.createHttpHandler JSON_parse).

Lemma route_spec m u req : Http.route m u req = true ↔ Http.method req = m ∧ Http.url req = u.
Proof.
  unfold Http.route. rewrite andb_true_iff, !bool_decide_eq_true. done.
Qed.

Lemma post_dispatches failure dispatch req st v f op :
  JSON_parse (Http.body req) = Some v →
  Http.destructure v = Some f →
  dispatch f = Some op →
  Http.post JSON_parse failure dispatch req st = Some (op st, Http.respond 200 Http.Success).
Proof. intros Hv Hf Hop. unfold Http.post. by rewrite Hv, Hf, Hop. Qed.

Lemma post_malformed failure dispatch req st :
  JSON_parse (Http.body req) = None →
  Http.post JSON_parse failure dispatch req st
  = Some (st, Http.respond 500 (Http.Error failure)).
Proof. intros Hv. unfold Http.post. by rewrite Hv. Qed.

Lemma as_resourceType_name rt :
  Http.as_resourceType (Some (JStr (ResourceType_name rt))) = Some rt.
Proof. by destruct rt. Qed.

Lemma as_operation_name op :
  Http.as_operation (Some (JStr (Operation_name op))) = Some op.
Proof. by destruct op. Qed.

(** A well-formed body posted to its endpoint reaches the operation of the
    registry that belongs to the endpoint, and is answered 200. *)
Lemma http_dispatches n text v f st :
  JSON_parse text = Some v →
  Http.destructure v = Some f →
  carries f n →
  handler {| Http.method := "POST"; Http.url := endpoint n; Http.body := text |} st
  = Some (operation_of n st, Http.respond 200 Http.Success).
Proof.
  intros Hv Hf Hn.
  destruct n; simpl in Hn; destruct_and?;
    (unfold Http.createHttpHandler; cbn [endpoint];
     repeat match goal with
       | |- context [Http.route ?m ?u ?r] =>
           let b := eval vm_compute in (Http.route m u r) in
           change (Http.route m u r) with b; cbn iota
       end;
     eapply post_dispatches; [exact Hv | exact Hf |]).
  all: repeat match goal with H : ?g _ = _ |- context [?g _] => rewrite H end.
  all: try reflexivity.
  - by destruct description.
  - by destruct newRole.
  - cbn [mbind option_bind Http.as_string].
    by rewrite as_resourceType_name, as_operation_name.
Qed.

Lemma http_malformed u text st :
  u ∈ endpoints →
  JSON_parse text = None →
  ∃ reason,
    handler {| Http.method := "POST"; Http.url := u; Http.body := text |} st
    = Some (st, Http.respond 500 (Http.Error reason)).
Proof.
  intros Hu Hv. unfold endpoints in Hu.
  repeat (apply elem_of_cons in Hu as [-> | Hu]); [.. | by apply elem_of_nil in Hu];
    eexists; unfold Http.createHttpHandler;
    repeat match goal with
      | |- context [Http.route ?m ?u ?r] =>
          let b := eval vm_compute in (Http.route m u r) in
          change (Http.route m u r) with b; cbn iota
      end;
    by apply post_malformed.
Qed.

Lemma http_not_found req st :
  ¬ (Http.method req = "GET" ∧ Http.url req = "/health") →
  ¬ (Http.method req = "POST" ∧ Http.url req ∈ endpoints) →
  handler req st = Some (st, Http.respond 404 (Http.Error "Not found")).
Proof.
  intros Hhealth Hpost. unfold Http.createHttpHandler.
  repeat match goal with
    | |- context [Http.route ?m ?u req] =>
        destruct (Http.route m u req) eqn:Hr;
        [ apply route_spec in Hr as [Hm Hu]; exfalso;
          first [ by apply Hhealth
                | apply Hpost; split; [done | rewrite Hu; unfold endpoints; set_solver] ]
        | clear Hr ]
    end.
  reflexivity.
Qed.

(** C6.  A POST to one of the six endpoints whose body parses and carries
    the fields of its notification runs the operation of the registry
    that belongs to the endpoint and is answered 200 with
    [{success: true}]; a body that [JSON.parse] rejects is answered 500
    with an error reason and changes nothing; a request that is neither
    the health probe nor a POST to one of the six endpoints is answered
    404. *)
Theorem ingress_contract st :
  (∀ n text v f,
     JSON_parse text = Some v → Http.destructure v = Some f → carries f n →
     handler {| Http.method := "POST"; Http.url := endpoint n; Http.body := text |} st
     = Some (operation_of n st, Http.respond 200 Http.Success))
  ∧ (∀ u text,
       u ∈ endpoints → JSON_parse text = None →
       ∃ reason,
         handler {| Http.method := "POST"; Http.url := u; Http.body := text |} st
         = Some (st, Http.respond 500 (Http.Error reason)))
  ∧ (∀ req,
       ¬ (Http.method req = "GET" ∧ Http.url req = "/health") →
       ¬ (Http.method req = "POST" ∧ Http.url req ∈ endpoints) →
       handler req st = Some (st, Http.respond 404 (Http.Error "Not found"))).
Proof.
  split; [| split].
  - intros n text v f. apply http_dispatches.
  - intros u text. apply http_malformed.
  - intros req. apply http_not_found.
Qed.

(** The four workflow operations return at once when the registry has no
    room for the workflow. *)
Lemma workflow_operation_without_room n w st :
  workflow_of n = Some w →
  workflowRooms st !! w = None →
  operation_of n st = st.
Proof.
  intros Hn Hw. destruct n; simplify_eq/=.
  - unfold RoomManager.handleWorkflowDeletion. by rewrite Hw.
  - unfold RoomManager.handleWorkflowUpdate. by rewrite Hw.
  - unfold RoomManager.handleWorkflowRevert. by rewrite Hw.
  - unfold RoomManager.handleCopilotWorkflowEdit. by rewrite Hw.
Qed.

(** C10.  When the registry has no room for the workflow, each of
    [handleWorkflowDeletion], [handleWorkflowUpdate],
    [handleWorkflowRevert] and [handleCopilotWorkflowEdit] returns the
    state it was given (so nothing is emitted either), and the endpoint of
    each still answers 200 with [{success: true}]. *)
Theorem absent_room_is_noop st w :
  workflowRooms st !! w = None →
  (RoomManager.handleWorkflowDeletion w st = st
   ∧ RoomManager.handleWorkflowUpdate w st = st
   ∧ (∀ timestamp, RoomManager.handleWorkflowRevert w timestamp st = st)
   ∧ (∀ description, RoomManager.handleCopilotWorkflowEdit w description st = st))
  ∧ (∀ n text v f,
       workflow_of n = Some w →
       JSON_parse text = Some v → Http.destructure v = Some f → carries f n →
       handler {| Http.method := "POST"; Http.url := endpoint n; Http.body := text |} st
       = Some (st, Http.respond 200 Http.Success)).
Proof.
  intros Hw. split.
  - split; [| split; [| split]]; intros.
    + exact (workflow_operation_without_room (NWorkflowDeleted w) w st eq_refl Hw).
    + exact (workflow_operation_without_room (NWorkflowUpdated w) w st eq_refl Hw).
    + exact (workflow_operation_without_room (NWorkflowReverted w timestamp) w st eq_refl Hw).
    + exact (workflow_operation_without_room (NCopilotWorkflowEdit w description) w st
               eq_refl Hw).
  - intros n text v f Hn Hv Hf Hc.
    rewrite (http_dispatches n text v f st Hv Hf Hc).
    by rewrite (workflow_operation_without_room n w st Hn Hw).
Qed.

End Ingress.

(** The ingress contract on a reader that accepts the text ["<body>"] as the
    body of a revert of [W1] and rejects every other text. *)
Lemma ingress_contract_witness :
  Http.createHttpHandler (sample_parse (NWorkflowReverted "W1" 2000))
    {| Http.method := "POST"; Http.url := "/api/workflow-reverted"; Http.body := "<body>" |}
    alice_in_W1
  = Some (RoomManager.handleWorkflowRevert "W1" 2000 alice_in_W1,
          Http.respond 200 Http.Success)
  ∧ (∃ reason,
       Http.createHttpHandler (sample_parse (NWorkflowReverted "W1" 2000))
         {| Http.method := "POST"; Http.url := "/api/workflow-reverted"; Http.body := "{" |}
         alice_in_W1
       = Some (alice_in_W1, Http.respond 500 (Http.Error reason)))
  ∧ Http.createHttpHandler (sample_parse (NWorkflowReverted "W1" 2000))
      {| Http.method := "PUT"; Http.url := "/api/workflow-reverted"; Http.body := "<body>" |}
      alice_in_W1
    = Some (alice_in_W1, Http.respond 404 (Http.Error "Not found")).
Proof.
  pose proof (ingress_contract (sample_parse (NWorkflowReverted "W1" 2000)) alice_in_W1)
    as (Hok & Hbad & Hnone).
  split; [| split].
  - apply (Hok (NWorkflowReverted "W1" 2000) "<body>"
             (body_of (NWorkflowReverted "W1" 2000))
             (λ k, Http.property k [("workflowId", JStr "W1"); ("timestamp", JNum 2000)])).
    + reflexivity.
    + reflexivity.
    + split; reflexivity.
  - apply Hbad.
    + unfold endpoints. set_solver.
    + reflexivity.
  - apply Hnone.
    + simpl. intros [? _]. discriminate.
    + simpl. intros [? _]. discriminate.
Defined.

(** A body that parses to [null] cannot be destructured: the [catch] of the
    branch answers 500, and the registry is as before. *)
Example null_body_is_rejected :
  Http.createHttpHandler (λ _, Some JNull)
    {| Http.method := "POST"; Http.url := "/api/permission-changed"; Http.body := "null" |}
    alice_in_W1
  = Some (alice_in_W1,
          Http.respond 500 (Http.Error "Failed to process permission change notification")).
Proof. reflexivity. Qed.

(** With no room for [W2] in the registry, a deletion notice for [W2] posted
    to the ingress changes nothing and is answered 200. *)
Lemma absent_room_is_noop_witness :
  RoomManager.handleWorkflowDeletion "W2" alice_in_W1 = alice_in_W1
  ∧ Http.createHttpHandler (sample_parse (NWorkflowDeleted "W2"))
      {| Http.method := "POST"; Http.url := "/api/workflow-deleted"; Http.body := "<body>" |}
      alice_in_W1
    = Some (alice_in_W1, Http.respond 200 Http.Success).
Proof.
  assert (Hw : workflowRooms alice_in_W1 !! "W2" = None) by reflexivity.
  pose proof (absent_room_is_noop (sample_parse (NWorkflowDeleted "W2")) alice_in_W1 "W2" Hw)
    as [(Hdel & _) Hhttp].
  split; [exact Hdel |].
  apply (Hhttp (NWorkflowDeleted "W2") "<body>" (body_of (NWorkflowDeleted "W2"))
           (λ k, Http.property k [("workflowId", JStr "W2")])); reflexivity.
Defined.

(** * Join rejection (sections 4.2 and 7) *)

Section JoinRejection.
Variable verifyWorkspaceAccess : string → string → AccessOutcome.

Lemma emit_same_rooms tgt ev p st :
  same_rooms st (emit tgt ev p st) ∧ sockets (emit tgt ev p st) = sockets st.
Proof. by repeat split. Qed.

Lemma truthy_Some v : v ≠ "" → truthy (Some v) = true.
Proof. intros Hv. unfold truthy. by rewrite bool_decide_eq_false_2. Qed.

(** C7.  When the access check of a join-workspace request from an
    authenticated connection throws or reports no access, the handler
    emits [join-workspace-error] to that connection and does nothing
    else: rooms, counters, reverse indices and adapter membership are as
    before, and the socket stays connected. *)
Theorem join_workspace_rejected socket workspaceId st userId userName :
  socket_userId socket = Some userId → userId ≠ "" →
  socket_userName socket = Some userName → userName ≠ "" →
  (verifyWorkspaceAccess userId workspaceId = AccessThrows
   ∨ ∃ role, verifyWorkspaceAccess userId workspaceId = AccessInfo false role) →
  let st' := WorkspaceHandlers.join_workspace verifyWorkspaceAccess socket workspaceId st in
  (∃ reason,
     sent st' = sent st ++ [ {| target := ToSocket (id socket);
                                event := "join-workspace-error";
                                payload := ErrorReason reason |} ])
  ∧ same_rooms st st'
  ∧ sockets st' = sockets st.
Proof.
  intros Hu Hune Hn Hnne Hdenied st'. subst st'.
  unfold WorkspaceHandlers.join_workspace.
  rewrite Hu, Hn, !truthy_Some by done. cbn [negb orb].
  destruct Hdenied as [-> | [role ->]];
    (split; [by eexists | apply emit_same_rooms]).
Qed.

End JoinRejection.

Lemma join_workspace_rejected_witness :
  let st' := WorkspaceHandlers.join_workspace deny_all bob_socket "WS1" alice_in_WS1 in
  (∃ reason,
     sent st' = sent alice_in_WS1 ++ [ {| target := ToSocket "s2";
                                          event := "join-workspace-error";
                                          payload := ErrorReason reason |} ])
  ∧ same_rooms alice_in_WS1 st'
  ∧ sockets st' = sockets alice_in_WS1.
Proof.
  apply (join_workspace_rejected deny_all bob_socket "WS1" alice_in_WS1 "bob" "Bob").
  - reflexivity.
  - discriminate.
  - reflexivity.
  - discriminate.
  - right. exists None. reflexivity.
Defined.


(** * The application tier's notifier (section 5, timeouts) *)

Section NotifierProperties.
Import Notifier.

Ltac run_eff :=
  unfold notifyWorkspaceResourceChange, fetch, try_finally, try_catch, perform;
  unfold mbind, mret, Eff_bind, Eff_ret, bind, ret, raise; cbn.

(** C8.  Whatever the network does, the promise of
    [notifyWorkspaceResourceChange] resolves; the function issues at most
    one request (exactly one, under one timer of 5000 ms, when the
    workspace id is not empty), and it reports a timeout exactly when the
    network has not settled the request within 5000 ms. *)
Theorem notifier_gives_up_quietly socketServerUrl net workspaceId resourceType operation
    data resourceId :
  let '(outcome, tr) :=
    call socketServerUrl net workspaceId resourceType operation data resourceId in
  outcome = Returns ()
  ∧ (requests tr ≤ 1)%nat
  ∧ (workspaceId ≠ "" →
     requests tr = 1%nat
     ∧ timers tr = [5000]
     ∧ (timed_out tr ↔ silent_for 5000 net)).
Proof.
  unfold call, silent_for, timed_out.
  destruct (decide (workspaceId = "")) as [-> | Hws].
  { unfold notifyWorkspaceResourceChange. change (truthy (Some "")) with false. run_eff.
    split; [done | split; [lia | done]]. }
  unfold notifyWorkspaceResourceChange.
  rewrite truthy_Some by done. cbn [negb].
  destruct net as [[t |] settled]; run_eff;
    [ destruct (decide (t < timeoutMs)) as [Hlt | Hge];
      [ destruct settled as [[|] |] |] |];
    cbn; unfold timeoutMs in *.
  all: (split; [done | split; [lia | intros _; split; [done | split; [done |]]]]).
  all: split; [intros [text Hin] | intros Hsilent].
  all: try done; try lia.
  all: try by (eexists; repeat constructor).
  all: repeat (apply elem_of_cons in Hin as [Hin | Hin]; [discriminate Hin |]).
  all: by apply elem_of_nil in Hin.
Qed.

Lemma notifier_gives_up_quietly_witness :
  let '(outcome, tr) :=
    call None hung_network "WS1" workflows create (JObj [("workflowId", JStr "W1")]) "W1" in
  outcome = Returns ()
  ∧ (requests tr ≤ 1)%nat
  ∧ ("WS1" ≠ "" →
     requests tr = 1%nat
     ∧ timers tr = [5000]
     ∧ (timed_out tr ↔ silent_for 5000 hung_network)).
Proof.
  exact (notifier_gives_up_quietly None hung_network "WS1" workflows create
           (JObj [("workflowId", JStr "W1")]) "W1").
Defined.

(** A request that the network answers after 120 ms is not reported as
    timed out; one that it never answers is. *)
Example notifier_runs :
  call None quick_network "WS1" workflows create JNull "W1"
  = (Returns (),
     [ SetTimeout 5000;
       Fetch "http://localhost:3002/api/workspace-resource-changed" "POST"
             "WS1" workflows create JNull;
       Log info "Notified Socket.IO server about workflows W1 create";
       ClearTimeout ])
  ∧ call None hung_network "WS1" workflows create JNull "W1"
    = (Returns (),
       [ SetTimeout 5000;
         Fetch "http://localhost:3002/api/workspace-resource-changed" "POST"
               "WS1" workflows create JNull;
         Log warn "Socket notification timeout after 5s for workflows W1 create";
         ClearTimeout ]).
Proof. split; reflexivity. Qed.

End NotifierProperties.

(** * Eviction controller (section 4.7): permission changes *)

Section Folds.
Context {A B : Type} (f : A → B → A).

Lemma foldl_preserves (P : A → Prop) l a :
  P a → (∀ a b, b ∈ l → P a → P (f a b)) → P (foldl f a l).
Proof.
  revert a. induction l as [| b l IH]; intros a Ha Hstep; [done |].
  cbn. apply IH.
  - apply Hstep; [left | done].
  - intros a' b' Hb'. apply Hstep. by right.
Qed.

Lemma foldl_establishes (Q P : A → Prop) l x a :
  x ∈ l → Q a →
  (∀ a b, b ∈ l → Q a → Q (f a b)) →
  (∀ a, Q a → P (f a x)) →
  (∀ a b, b ∈ l → P a → P (f a b)) →
  P (foldl f a l).
Proof.
  revert a. induction l as [| b l IH]; intros a Hx Ha HQ Hx_step HP.
  { by apply elem_of_nil in Hx. }
  cbn. apply elem_of_cons in Hx as [<- | Hx].
  - apply foldl_preserves; [by apply Hx_step |].
    intros a' b' Hb'. apply HP. by right.
  - apply IH; [done | apply HQ; [left | done] | | done |].
    + intros a' b' Hb'. apply HQ. by right.
    + intros a' b' Hb'. apply HP. by right.
Qed.
End Folds.

Section Permission.
Import RoomManager.

Lemma if_connected_frame s f st (P : State → Prop) :
  P st → (∀ st, P st → P (f st)) → P (if_connected s f st).
Proof. intros Hst Hf. unfold if_connected. destruct (decide _); auto. Qed.

Lemma user_socket_listed userId room s p :
  WorkflowRoom.users room !! s = Some p → UserPresence.userId p = userId →
  (s, p) ∈ userSocketsOf userId room.
Proof.
  intros Hs Hu. unfold userSocketsOf. apply list_elem_of_filter. split; [done |].
  by apply elem_of_map_to_list.
Qed.

Lemma affected_room_listed userId st w room s p :
  workflowRooms st !! w = Some room →
  WorkflowRoom.users room !! s = Some p → UserPresence.userId p = userId →
  (w, room) ∈ affectedRoomsOf userId st.
Proof.
  intros Hw Hs Hu. unfold affectedRoomsOf. apply list_elem_of_filter. split.
  - pose proof (user_socket_listed userId room s p Hs Hu) as Hin. cbn.
    destruct (userSocketsOf userId room); [by apply elem_of_nil in Hin | cbn; lia].
  - by apply elem_of_map_to_list.
Qed.

(** What the loops of [handlePermissionChange] establish, once some room
    holds a presence of the user. *)
Lemma permission_change_establishes (Q P : State → Prop) userId workspaceId newRole
    isRemoved st w room s p :
  workflowRooms st !! w = Some room →
  WorkflowRoom.users room !! s = Some p → UserPresence.userId p = userId →
  Q st →
  (∀ st k r sp, Q st → Q (permissionStep workspaceId newRole isRemoved k r st sp)) →
  (∀ st wid, Q st → Q (broadcastPresenceUpdate wid st)) →
  (∀ st, Q st → P (permissionStep workspaceId newRole isRemoved w room st (s, p))) →
  (∀ st k r sp, P st → P (permissionStep workspaceId newRole isRemoved k r st sp)) →
  (∀ st wid, P st → P (broadcastPresenceUpdate wid st)) →
  P (handlePermissionChange userId workspaceId newRole isRemoved st).
Proof.
  intros Hw Hs Hu HQ HQstep HQcast HPhere HPstep HPcast.
  pose proof (affected_room_listed userId st w room s p Hw Hs Hu) as Hroom.
  unfold handlePermissionChange.
  destruct (decide _) as [Hnone | _].
  { destruct (affectedRoomsOf userId st); [by apply elem_of_nil in Hroom | done]. }
  eapply (foldl_establishes _ Q P _ (w, room)); [done | done | | |].
  - intros a [k r] _ Ha. cbn. apply HQcast.
    apply foldl_preserves; [done |]. intros; by apply HQstep.
  - intros a Ha. cbn. apply HPcast.
    eapply (foldl_establishes _ Q P _ (s, p));
      [by apply user_socket_listed | done | | |]; intros; auto.
  - intros a [k r] _ Ha. cbn. apply HPcast.
    apply foldl_preserves; [done |]. intros; by apply HPstep.
Qed.

(** *** Role change (the [else] branch) *)

Lemma broadcast_rooms wid st :
  workflowRooms (broadcastPresenceUpdate wid st) = workflowRooms st
  ∧ sockets (broadcastPresenceUpdate wid st) = sockets st
  ∧ clock (broadcastPresenceUpdate wid st) = clock st
  ∧ ∃ more, sent (broadcastPresenceUpdate wid st) = sent st ++ more.
Proof.
  unfold broadcastPresenceUpdate. destruct (workflowRooms st !! wid); cbn.
  - repeat split. by eexists.
  - repeat split. exists []. by rewrite app_nil_r.
Qed.

Lemma role_step workspaceId newRole k room st s p :
  let st' := permissionStep workspaceId newRole false k room st (s, p) in
  workflowRooms st' = alter (relabel newRole s) k (workflowRooms st)
  ∧ sockets st' = sockets st
  ∧ clock st' = clock st
  ∧ sent st'
    = sent st
      ++ (if decide (s ∈ sockets st)
          then [ {| target := ToSocket s; event := "permission-changed";
                    payload := PermissionChanged workspaceId (WorkflowRoom.workflowId room)
                                 (UserPresence.role p) newRole
                                 "Your permissions have been updated" (clock st) |} ]
          else [])
  ∧ workspaceRooms st' = workspaceRooms st
  ∧ socketToWorkspace st' = socketToWorkspace st.
Proof.
  cbn. unfold if_connected. cbn. destruct (decide (s ∈ sockets st)); cbn.
  - done.
  - by rewrite app_nil_r.
Qed.

Lemma set_role_twice r1 r2 p :
  UserPresence.set_role r1 (UserPresence.set_role r2 p) = UserPresence.set_role r1 p.
Proof. by destruct p. Qed.

Lemma role_step_keeps_presence workspaceId newRole w s p st k r sp :
  holds_presence newRole w s p st →
  holds_presence newRole w s p (permissionStep workspaceId newRole false k r st sp).
Proof.
  intros (room' & p' & Hw & Hs & Hp). destruct sp as [s' q].
  unfold holds_presence.
  destruct (role_step workspaceId newRole k r st s' q) as (-> & _).
  setoid_rewrite lookup_alter.
  destruct (decide (k = w)) as [-> | Hk]; [| by eexists _, _].
  rewrite Hw. cbn. unfold relabel.
  destruct (decide (s' = s)) as [-> | Hs'].
  - eexists _, _. split; [done |]. cbn. rewrite lookup_alter_eq, Hs. cbn.
    split; [done |]. by rewrite set_role_twice.
  - eexists _, _. split; [done |]. cbn. by rewrite lookup_alter_ne, Hs.
Qed.

Lemma role_step_relabels workspaceId newRole w room s p st :
  holds_presence newRole w s p st →
  holds_relabelled newRole w s p (permissionStep workspaceId newRole false w room st (s, p)).
Proof.
  intros (room' & p' & Hw & Hs & Hp).
  unfold holds_relabelled.
  destruct (role_step workspaceId newRole w room st s p) as (-> & _).
  rewrite lookup_alter_eq, Hw. cbn.
  eexists. split; [done |]. cbn. by rewrite lookup_alter_eq, Hs; cbn; rewrite Hp.
Qed.

Lemma role_step_keeps_relabelled workspaceId newRole w s p st k r sp :
  holds_relabelled newRole w s p st →
  holds_relabelled newRole w s p (permissionStep workspaceId newRole false k r st sp).
Proof.
  intros (room' & Hw & Hs). destruct sp as [s' q].
  unfold holds_relabelled.
  destruct (role_step workspaceId newRole k r st s' q) as (-> & _).
  setoid_rewrite lookup_alter.
  destruct (decide (k = w)) as [-> | Hk]; [| by eexists].
  rewrite Hw. cbn. unfold relabel.
  destruct (decide (s' = s)) as [-> | Hs'].
  - eexists. split; [done |]. cbn. rewrite lookup_alter_eq, Hs. cbn.
    by rewrite set_role_twice.
  - eexists. split; [done |]. cbn. by rewrite lookup_alter_ne, Hs.
Qed.

Lemma role_change_relabels userId workspaceId newRole st w room s p :
  workflowRooms st !! w = Some room →
  WorkflowRoom.users room !! s = Some p → UserPresence.userId p = userId →
  holds_relabelled newRole w s p (handlePermissionChange userId workspaceId newRole false st).
Proof.
  intros Hw Hs Hu.
  apply (permission_change_establishes
           (holds_presence newRole w s p) (holds_relabelled newRole w s p)
           userId workspaceId newRole false st w room s p Hw Hs Hu).
  - by exists room, p.
  - intros. by apply role_step_keeps_presence.
  - intros st' wid (room' & p' & ? & ?). exists room', p'.
    by destruct (broadcast_rooms wid st') as (-> & _).
  - intros. by apply role_step_relabels.
  - intros. by apply role_step_keeps_relabelled.
  - intros st' wid (room' & ?). exists room'.
    by destruct (broadcast_rooms wid st') as (-> & _).
Qed.

Lemma role_change_notifies userId workspaceId newRole st w room s p :
  workflowRooms st !! w = Some room →
  WorkflowRoom.users room !! s = Some p → UserPresence.userId p = userId →
  s ∈ sockets st →
  {| target := ToSocket s; event := "permission-changed";
     payload := PermissionChanged workspaceId (WorkflowRoom.workflowId room)
                  (UserPresence.role p) newRole
                  "Your permissions have been updated" (clock st) |}
  ∈ sent (handlePermissionChange userId workspaceId newRole false st).
Proof.
  intros Hw Hs Hu Hconn.
  apply (permission_change_establishes
           (λ st', sockets st' = sockets st ∧ clock st' = clock st) (λ st', _ ∈ sent st')
           userId workspaceId newRole false st w room s p Hw Hs Hu).
  - done.
  - intros st' k r [s' q] [Hso Hcl].
    destruct (role_step workspaceId newRole k r st' s' q) as (_ & -> & -> & _). done.
  - intros st' wid [Hso Hcl].
    destruct (broadcast_rooms wid st') as (_ & -> & -> & _). done.
  - intros st' [Hso Hcl].
    destruct (role_step workspaceId newRole w room st' s p) as (_ & _ & _ & -> & _).
    rewrite Hso, Hcl, decide_True by done. apply elem_of_app. right. by left.
  - intros st' k r [s' q] Hin.
    destruct (role_step workspaceId newRole k r st' s' q) as (_ & _ & _ & -> & _).
    apply elem_of_app. by left.
  - intros st' wid Hin.
    destruct (broadcast_rooms wid st') as (_ & _ & _ & more & ->).
    apply elem_of_app. by left.
Qed.

(** *** Revocation (the [if (isRemoved)] branch) *)

Lemma cleanup_fields s wid st :
  let st' := cleanupUserFromRoom s wid st in
  socketToWorkflow st' = delete s (socketToWorkflow st)
  ∧ userSessions st' = delete s (userSessions st)
  ∧ workspaceRooms st' = workspaceRooms st
  ∧ socketToWorkspace st' = socketToWorkspace st
  ∧ sockets st' = sockets st ∧ joined st' = joined st
  ∧ sent st' = sent st ∧ clock st' = clock st.
Proof.
  unfold cleanupUserFromRoom. destruct (workflowRooms st !! wid); [| done].
  by destruct (decide _).
Qed.

Lemma cleanup_rooms s wid st w r' :
  workflowRooms (cleanupUserFromRoom s wid st) !! w = Some r' →
  ∃ r, workflowRooms st !! w = Some r
       ∧ (r' = r ∨ (w = wid ∧ WorkflowRoom.users r' = delete s (WorkflowRoom.users r))).
Proof.
  unfold cleanupUserFromRoom. destruct (workflowRooms st !! wid) as [r |] eqn:Hwid; cbn.
  - destruct (decide _); cbn.
    + rewrite lookup_delete. destruct (decide (wid = w)); [done |]. eauto.
    + rewrite lookup_insert. destruct (decide (wid = w)) as [<- | ?]; [| eauto].
      intros [= <-]. exists r. split; [done |]. right. done.
  - eauto.
Qed.

Lemma cleanup_evicts s w st : evicted w s (cleanupUserFromRoom s w st).
Proof.
  intros r' Hr'. unfold cleanupUserFromRoom in Hr'.
  destruct (workflowRooms st !! w) as [r |] eqn:Hw; cbn in Hr'.
  - destruct (decide _); cbn in Hr'.
    + by rewrite lookup_delete_eq in Hr'.
    + rewrite lookup_insert_eq in Hr'. injection Hr' as <-. cbn. apply lookup_delete_eq.
  - congruence.
Qed.

Lemma cleanup_keeps_evicted s' wid w s st :
  evicted w s st → evicted w s (cleanupUserFromRoom s' wid st).
Proof.
  intros Hev r' Hr'. apply cleanup_rooms in Hr' as (r & Hr & [-> | [_ ->]]).
  - by apply Hev.
  - apply lookup_delete_None. right. by apply Hev.
Qed.

Lemma revoke_step_unfold workspaceId newRole k room st s p :
  permissionStep workspaceId newRole true k room st (s, p)
  = cleanupUserFromRoom s (WorkflowRoom.workflowId room)
      (announce_revocation workspaceId s (WorkflowRoom.workflowId room) st).
Proof. reflexivity. Qed.

Lemma revoke_step workspaceId newRole k room st s p :
  let st' := permissionStep workspaceId newRole true k room st (s, p) in
  evicted (WorkflowRoom.workflowId room) s st'
  ∧ (∀ w s0, evicted w s0 st → evicted w s0 st')
  ∧ socketToWorkflow st' = delete s (socketToWorkflow st)
  ∧ userSessions st' = delete s (userSessions st)
  ∧ workspaceRooms st' = workspaceRooms st
  ∧ socketToWorkspace st' = socketToWorkspace st
  ∧ sockets st' = sockets st ∧ clock st' = clock st
  ∧ (if decide (s ∈ sockets st)
     then sent st' = sent st ++ [ revoked_notice workspaceId s (clock st) ]
          ∧ joined st' = joined st ∖ {[ (s, WorkflowRoom.workflowId room) ]}
     else sent st' = sent st ∧ joined st' = joined st).
Proof.
  intros st'. subst st'. rewrite revoke_step_unfold.
  split; [apply cleanup_evicts |].
  split.
  { intros w s0 Hev. apply cleanup_keeps_evicted.
    unfold announce_revocation, if_connected. by destruct (decide _). }
  destruct (cleanup_fields s (WorkflowRoom.workflowId room)
              (announce_revocation workspaceId s (WorkflowRoom.workflowId room) st))
    as (-> & -> & -> & -> & -> & -> & -> & ->).
  unfold announce_revocation, if_connected. by destruct (decide (s ∈ sockets st)).
Qed.

Lemma permission_change_preserves (P : State → Prop) userId workspaceId newRole isRemoved st :
  P st →
  (∀ st k r sp, P st → P (permissionStep workspaceId newRole isRemoved k r st sp)) →
  (∀ st wid, P st → P (broadcastPresenceUpdate wid st)) →
  P (handlePermissionChange userId workspaceId newRole isRemoved st).
Proof.
  intros HP Hstep Hcast. unfold handlePermissionChange.
  destruct (decide _); [done |].
  apply foldl_preserves; [done |]. intros a [k r] _ Ha. cbn. apply Hcast.
  apply foldl_preserves; [done |]. intros; by apply Hstep.
Qed.

(** The connections stay open and the workspace side of the registry is
    not touched, whatever the notification says. *)
Lemma permission_change_frame userId workspaceId newRole isRemoved st :
  let st' := handlePermissionChange userId workspaceId newRole isRemoved st in
  sockets st' = sockets st ∧ clock st' = clock st
  ∧ workspaceRooms st' = workspaceRooms st
  ∧ socketToWorkspace st' = socketToWorkspace st.
Proof.
  apply (permission_change_preserves
           (λ st', sockets st' = sockets st ∧ clock st' = clock st
                   ∧ workspaceRooms st' = workspaceRooms st
                   ∧ socketToWorkspace st' = socketToWorkspace st)).
  - done.
  - intros st' k r [s' q] (Hso & Hcl & Hws & Hix). destruct isRemoved.
    + destruct (revoke_step workspaceId newRole k r st' s' q)
        as (_ & _ & _ & _ & -> & -> & -> & -> & _). done.
    + destruct (role_step workspaceId newRole k r st' s' q)
        as (_ & -> & -> & _ & -> & ->).
      done.
  - intros st' wid (Hso & Hcl & Hws & Hix).
    unfold broadcastPresenceUpdate. by destruct (workflowRooms st' !! wid).
Qed.

Lemma revoke_step_keeps workspaceId newRole w s st0 st k r sp :
  evicted_and_told workspaceId w s st0 st →
  evicted_and_told workspaceId w s st0
    (permissionStep workspaceId newRole true k r st sp).
Proof.
  intros (Hev & Hwf & Hus & Htold). destruct sp as [s' q].
  destruct (revoke_step workspaceId newRole k r st s' q)
    as (_ & Hev' & Hwf' & Hus' & _ & _ & _ & _ & Hio).
  unfold evicted_and_told. rewrite Hwf', Hus'.
  split; [by apply Hev' |].
  split; [apply lookup_delete_None; by right |].
  split; [apply lookup_delete_None; by right |].
  intros Hconn. destruct (Htold Hconn) as [Hsent Hjoined].
  destruct (decide (s' ∈ sockets st)); destruct Hio as [-> ->]; [| done].
  split; [apply elem_of_app; by left |].
  intros Hin. apply Hjoined. by apply elem_of_difference in Hin as [Hin _].
Qed.

Lemma broadcast_keeps workspaceId w s st0 st wid :
  evicted_and_told workspaceId w s st0 st →
  evicted_and_told workspaceId w s st0 (broadcastPresenceUpdate wid st).
Proof.
  intros (Hev & Hwf & Hus & Htold).
  unfold evicted_and_told, evicted, broadcastPresenceUpdate.
  destruct (workflowRooms st !! wid); [| done]. cbn.
  repeat split; try done.
  - apply elem_of_app. left. by apply Htold.
  - by apply Htold.
Qed.

Lemma revocation_evicts userId workspaceId newRole st w room s p :
  rooms_keyed_by_id st →
  workflowRooms st !! w = Some room →
  WorkflowRoom.users room !! s = Some p → UserPresence.userId p = userId →
  evicted_and_told workspaceId w s st
    (handlePermissionChange userId workspaceId newRole true st).
Proof.
  intros Hkeys Hw Hs Hu. pose proof (Hkeys w room Hw) as Hid.
  apply (permission_change_establishes
           (λ st', sockets st' = sockets st ∧ clock st' = clock st)
           (evicted_and_told workspaceId w s st)
           userId workspaceId newRole true st w room s p Hw Hs Hu).
  - done.
  - intros st' k r [s' q] [Hso Hcl].
    destruct (revoke_step workspaceId newRole k r st' s' q)
      as (_ & _ & _ & _ & _ & _ & -> & -> & _). done.
  - intros st' wid [Hso Hcl].
    destruct (broadcast_rooms wid st') as (_ & -> & -> & _). done.
  - intros st' [Hso Hcl].
    destruct (revoke_step workspaceId newRole w room st' s p)
      as (Hev & _ & Hwf' & Hus' & _ & _ & _ & _ & Hio).
    rewrite Hid in Hev, Hio.
    unfold evicted_and_told. rewrite Hwf', Hus', !lookup_delete_eq.
    split; [done | split; [done | split; [done |]]].
    intros Hconn. rewrite Hso, Hcl, decide_True in Hio by done.
    destruct Hio as [-> ->].
    split; [apply elem_of_app; right; by left |].
    intros Hin. apply elem_of_difference in Hin as [_ Hin]. apply Hin.
    by apply elem_of_singleton.
  - intros. by apply revoke_step_keeps.
  - intros. by apply broadcast_keeps.
Qed.
End Permission.

Section PermissionNotices.
Variable JSON_parse : string → option JsValue.

(** C9.  A permission change with [isRemoved = false] and
    [newRole = null] is processed like any other: every presence of the
    user gets the role [null], the [permission-changed] event with the
    old role and [newRole = null] goes to each of them whose socket is
    connected, and the endpoint answers 200 with [{success: true}]. *)
Theorem null_role_is_accepted st userId workspaceId :
  let st' := RoomManager.handlePermissionChange userId workspaceId None false st in
  (∀ w room s p,
     workflowRooms st !! w = Some room →
     WorkflowRoom.users room !! s = Some p →
     UserPresence.userId p = userId →
     (∃ room', workflowRooms st' !! w = Some room'
               ∧ WorkflowRoom.users room' !! s = Some (UserPresence.set_role None p))
     ∧ (s ∈ sockets st →
        {| target := ToSocket s; event := "permission-changed";
           payload := PermissionChanged workspaceId (WorkflowRoom.workflowId room)
                        (UserPresence.role p) None
                        "Your permissions have been updated" (clock st) |}
        ∈ sent st'))
  ∧ (∀ text v f,
       JSON_parse text = Some v → Http.destructure v = Some f →
       carries f (NPermissionChanged userId workspaceId None false) →
       Http.createHttpHandler JSON_parse
         {| Http.method := "POST"; Http.url := "/api/permission-changed";
            Http.body := text |} st
       = Some (st', Http.respond 200 Http.Success)).
Proof.
  intros st'. subst st'. split.
  - intros w room s p Hw Hs Hu. split.
    + exact (role_change_relabels userId workspaceId None st w room s p Hw Hs Hu).
    + intros Hconn.
      exact (role_change_notifies userId workspaceId None st w room s p Hw Hs Hu Hconn).
  - intros text v f Hv Hf Hc.
    exact (http_dispatches JSON_parse (NPermissionChanged userId workspaceId None false)
             text v f st Hv Hf Hc).
Qed.

(** C3, as the code has it.  When a permission change arrives with
    [isRemoved = true], no socket is closed, and every connection of the
    user that is present in a workflow room is removed from that room and
    loses its [socketToWorkflow] and [userSessions] entries; if its socket
    is connected it is sent [permission-revoked] and leaves the socket.io
    room of the workflow. *)
Theorem revocation_evicts_from_workflow_rooms st userId workspaceId newRole :
  rooms_keyed_by_id st →
  let st' := RoomManager.handlePermissionChange userId workspaceId newRole true st in
  sockets st' = sockets st
  ∧ ∀ w room s p,
      workflowRooms st !! w = Some room →
      WorkflowRoom.users room !! s = Some p →
      UserPresence.userId p = userId →
      (∀ room', workflowRooms st' !! w = Some room' → WorkflowRoom.users room' !! s = None)
      ∧ socketToWorkflow st' !! s = None
      ∧ userSessions st' !! s = None
      ∧ (s ∈ sockets st →
         {| target := ToSocket s; event := "permission-revoked";
            payload := PermissionRevoked workspaceId
                         "Your access to this workspace has been removed" (clock st) |}
         ∈ sent st'
         ∧ (s, w) ∉ joined st').
Proof.
  intros Hkeys st'. subst st'. split.
  - by destruct (permission_change_frame userId workspaceId newRole true st) as (-> & _).
  - intros w room s p Hw Hs Hu.
    exact (revocation_evicts userId workspaceId newRole st w room s p Hkeys Hw Hs Hu).
Qed.

End PermissionNotices.

Lemma alice_in_W1_keyed : rooms_keyed_by_id alice_in_W1.
Proof.
  intros w room Hw.
  change (workflowRooms alice_in_W1)
    with (<[ "W1" := WorkflowRoom.mk "W1" {[ "s1" := alice_presence ]} 1000 1 ]>
            (∅ : gmap string WorkflowRoom.t)) in Hw.
  apply lookup_insert_Some in Hw as [[<- <-] | [_ Hw]]; [reflexivity |].
  by rewrite lookup_empty in Hw.
Defined.

Lemma null_role_is_accepted_witness :
  let st' := RoomManager.handlePermissionChange "alice" "WS1" None false alice_in_W1 in
  (∃ room', workflowRooms st' !! "W1" = Some room'
            ∧ WorkflowRoom.users room' !! "s1"
              = Some (UserPresence.set_role None alice_presence))
  ∧ {| target := ToSocket "s1"; event := "permission-changed";
       payload := PermissionChanged "WS1" "W1" (Some "edit") None
                    "Your permissions have been updated" 1000 |}
    ∈ sent st'
  ∧ Http.createHttpHandler (sample_parse (NPermissionChanged "alice" "WS1" None false))
      {| Http.method := "POST"; Http.url := "/api/permission-changed";
         Http.body := "<body>" |} alice_in_W1
    = Some (st', Http.respond 200 Http.Success).
Proof.
  pose proof (null_role_is_accepted
                (sample_parse (NPermissionChanged "alice" "WS1" None false))
                alice_in_W1 "alice" "WS1") as [Hpresence Hhttp].
  destruct (Hpresence "W1" (WorkflowRoom.mk "W1" {[ "s1" := alice_presence ]} 1000 1)
              "s1" alice_presence eq_refl eq_refl eq_refl) as [Hrole Hsent].
  split; [exact Hrole | split].
  - apply Hsent. vm_compute. reflexivity.
  - apply (Hhttp "<body>" (body_of (NPermissionChanged "alice" "WS1" None false))
             (λ k, Http.property k
                     [("userId", JStr "alice"); ("workspaceId", JStr "WS1");
                      ("newRole", JNull); ("isRemoved", JBool false)]));
      repeat split; reflexivity.
Defined.

Lemma revocation_evicts_from_workflow_rooms_witness :
  let st' := RoomManager.handlePermissionChange "alice" "WS1" None true alice_in_W1 in
  sockets st' = sockets alice_in_W1
  ∧ (∀ room', workflowRooms st' !! "W1" = Some room' → WorkflowRoom.users room' !! "s1" = None)
  ∧ socketToWorkflow st' !! "s1" = None
  ∧ userSessions st' !! "s1" = None
  ∧ {| target := ToSocket "s1"; event := "permission-revoked";
       payload := PermissionRevoked "WS1"
                    "Your access to this workspace has been removed" 1000 |}
    ∈ sent st'
  ∧ ("s1", "W1") ∉ joined st'.
Proof.
  destruct (revocation_evicts_from_workflow_rooms alice_in_W1 "alice" "WS1" None
              alice_in_W1_keyed) as [Hopen Hall].
  destruct (Hall "W1" (WorkflowRoom.mk "W1" {[ "s1" := alice_presence ]} 1000 1)
              "s1" alice_presence eq_refl eq_refl eq_refl)
    as (Hroom & Hindex & Hsession & Htold).
  destruct Htold as [Hsent Hleft]; [vm_compute; reflexivity |].
  repeat split; assumption.
Defined.

(** C3 fails as stated.  Alice, on socket [s1], is in the room of workflow
    [W1] and in the room of workspace [WS1]; after her access to [WS1] is
    removed, [s1] is still a member of the workspace room, still mapped to
    [WS1] by [socketToWorkspace], and still joined to the socket.io room
    [WS1]. *)
Lemma revocation_keeps_workspace_membership :
  let st' := RoomManager.handlePermissionChange "alice" "WS1" None true alice_in_W1 in
  socketToWorkspace st' !! "s1" = Some ("WS1", "edit")
  ∧ WorkspaceRoom.users <$> workspaceRooms st' !! "WS1" = Some {[ "s1" ]}
  ∧ WorkspaceRoom.activeConnections <$> workspaceRooms st' !! "WS1" = Some 1
  ∧ workflowRooms st' !! "W1" = None
  ∧ socketToWorkflow st' !! "s1" = None.
Proof. by vm_compute. Qed.

(** * Eviction controller (section 4.7): workflow deletion *)

Section Tombstone.
Import RoomManager WorkflowHandlers.

Lemma cleanup_keeps_closed s wid w st : closed w st → closed w (cleanupUserFromRoom s wid st).
Proof.
  unfold closed. intros Hw.
  destruct (workflowRooms (cleanupUserFromRoom s wid st) !! w) as [r' |] eqn:Hr'; [| done].
  apply cleanup_rooms in Hr' as (r & Hr & _). congruence.
Qed.

Lemma broadcast_keeps_closed wid w st : closed w st → closed w (broadcastPresenceUpdate wid st).
Proof. unfold closed. by destruct (broadcast_rooms wid st) as (-> & _). Qed.

Lemma deletion_closes w st : closed w (handleWorkflowDeletion w st).
Proof.
  unfold closed, handleWorkflowDeletion.
  destruct (workflowRooms st !! w) eqn:Hw; [| done]. cbn. apply lookup_delete_eq.
Qed.

Lemma deletion_keeps_closed wid w st : closed w st → closed w (handleWorkflowDeletion wid st).
Proof.
  intros Hw. unfold handleWorkflowDeletion.
  destruct (workflowRooms st !! wid) as [room |] eqn:Hwid; [| done].
  unfold closed. cbn. apply lookup_delete_None. right.
  apply (foldl_preserves _ (closed w)); [done |].
  intros a s _ Ha. apply cleanup_keeps_closed.
  unfold if_connected. by destruct (decide _).
Qed.

Lemma touch_keeps_closed wid w st ev p room' :
  closed w st → is_Some (workflowRooms st !! wid) →
  closed w (upd_workflowRooms (insert wid room') (emit (ToRoom wid) ev p st)).
Proof.
  unfold closed. intros Hw [r Hwid]. cbn. rewrite lookup_insert_ne; [done |].
  intros ->. congruence.
Qed.

Lemma permission_change_keeps_closed u ws r b w st :
  closed w st → closed w (handlePermissionChange u ws r b st).
Proof.
  intros Hw. apply permission_change_preserves; [done | |].
  - intros st' k room [s p] Hst'. destruct b.
    + rewrite revoke_step_unfold. apply cleanup_keeps_closed.
      unfold announce_revocation, if_connected. by destruct (decide _).
    + unfold closed.
      destruct (role_step ws r k room st' s p) as (-> & _).
      apply lookup_alter_None. done.
  - intros. by apply broadcast_keeps_closed.
Qed.

Lemma leave_keeps_closed socket w st : closed w st → closed w (leave_workflow socket st).
Proof.
  intros Hw. unfold leave_workflow. destruct (socketToWorkflow st !! id socket); [| done].
  by apply broadcast_keeps_closed, cleanup_keeps_closed.
Qed.

Lemma join_rejected_without_record d socket w st :
  workflowRecords d !! w = None →
  ∃ reason,
    join_workflow d socket w st
    = emit (ToSocket (id socket)) "join-workflow-error" (ErrorReason reason) st.
Proof.
  intros Hd. unfold join_workflow, resolveWorkflowAccess.
  destruct (socket_userId socket); [| by eexists].
  rewrite Hd. cbn. by eexists.
Qed.

Lemma join_keeps_closed d socket wid w st :
  workflowRecords d !! w = None → closed w st → closed w (join_workflow d socket wid st).
Proof.
  intros Hd Hw. unfold join_workflow.
  destruct (socket_userId socket) as [u |]; [| done].
  destruct (resolveWorkflowAccess d u wid) as [role |] eqn:Haccess; [| done].
  assert (wid ≠ w) as Hne.
  { intros ->. unfold resolveWorkflowAccess in Haccess. by rewrite Hd in Haccess. }
  apply broadcast_keeps_closed. unfold closed. cbn.
  rewrite lookup_insert_ne by done. by apply leave_keeps_closed.
Qed.

Lemma step_keeps_closed w st r : record_absent w r → closed w st → closed w (step st r).
Proof.
  intros Hr Hw. destruct r; cbn in *.
  - by apply join_keeps_closed.
  - by apply leave_keeps_closed.
  - by apply deletion_keeps_closed.
  - unfold handleWorkflowUpdate.
    destruct (workflowRooms st !! workflowId) eqn:?; [| done]. by apply touch_keeps_closed.
  - unfold handleWorkflowRevert.
    destruct (workflowRooms st !! workflowId) eqn:?; [| done]. by apply touch_keeps_closed.
  - unfold handleCopilotWorkflowEdit.
    destruct (workflowRooms st !! workflowId) eqn:?; [| done]. by apply touch_keeps_closed.
  - by apply permission_change_keeps_closed.
Qed.

Lemma run_keeps_closed w st rs : Forall (record_absent w) rs → closed w st → closed w (run st rs).
Proof.
  intros Hrs Hw. unfold run. apply foldl_preserves; [done |].
  intros a r Hr Ha. apply step_keeps_closed; [| done].
  by apply (proj1 (Forall_forall _ _) Hrs).
Qed.

(** C2.  Once the deletion notice for workflow [w] has been processed,
    and for as long as the durable stores hold no record of [w], the
    registry has no room for [w] through any further requests and
    notifications, and a request to join [w] is answered with an error
    event and admits nobody. *)
Theorem deleted_workflow_stays_closed st w requests d socket :
  Forall (record_absent w) requests →
  workflowRecords d !! w = None →
  let st1 := run (handleWorkflowDeletion w st) requests in
  workflowRooms st1 !! w = None
  ∧ (∃ reason,
       join_workflow d socket w st1
       = emit (ToSocket (id socket)) "join-workflow-error" (ErrorReason reason) st1)
  ∧ ¬ join_succeeds d socket w st1.
Proof.
  intros Hrs Hd st1.
  assert (closed w st1) as Hclosed by (apply run_keeps_closed, deletion_closes; done).
  split; [done |]. split; [by apply join_rejected_without_record |].
  intros (room & Hroom & _).
  destruct (join_rejected_without_record d socket w st1 Hd) as [reason Heq].
  rewrite Heq in Hroom. cbn in Hroom. congruence.
Qed.
End Tombstone.

Lemma deleted_workflow_stays_closed_witness :
  let st1 :=
    WorkflowHandlers.run (RoomManager.handleWorkflowDeletion "W1" alice_in_W1)
      [ WorkflowHandlers.JoinWorkflow stores_without_W1 bob_socket "W2";
        WorkflowHandlers.JoinWorkflow stores_without_W1 alice_socket "W1";
        WorkflowHandlers.WorkflowUpdated "W1" ] in
  workflowRooms st1 !! "W1" = None
  ∧ (∃ reason,
       WorkflowHandlers.join_workflow stores_without_W1 alice_socket "W1" st1
       = emit (ToSocket "s1") "join-workflow-error" (ErrorReason reason) st1)
  ∧ ¬ WorkflowHandlers.join_succeeds stores_without_W1 alice_socket "W1" st1.
Proof.
  apply (deleted_workflow_stays_closed alice_in_W1 "W1"
           [ WorkflowHandlers.JoinWorkflow stores_without_W1 bob_socket "W2";
             WorkflowHandlers.JoinWorkflow stores_without_W1 alice_socket "W1";
             WorkflowHandlers.WorkflowUpdated "W1" ]
           stores_without_W1 alice_socket).
  - repeat constructor.
  - reflexivity.
Defined.

(** Such a run, step by step: Bob gets into [W2], Alice is turned away from
    [W1]. *)
Example requests_after_deletion :
  let st1 :=
    WorkflowHandlers.run (RoomManager.handleWorkflowDeletion "W1" alice_in_W1)
      [ WorkflowHandlers.JoinWorkflow stores_without_W1 bob_socket "W2";
        WorkflowHandlers.JoinWorkflow stores_without_W1 alice_socket "W1" ] in
  dom (workflowRooms st1) = {[ "W2" ]}
  ∧ socketToWorkflow st1 = {[ "s2" := "W2" ]}
  ∧ event <$> sent st1
    = [ "joined-workspace"; "workflow-deleted"; "joined"; "presence-update";
        "join-workflow-error" ].
Proof. by vm_compute. Qed.

(** * Room registry (section 4.3): the invariants of section 3 *)

Section Discipline.
Import RoomManager.

Lemma size_remove_member (X : gset string) s :
  s ∈ X → Z.of_nat (size (X ∖ {[ s ]})) = Z.of_nat (size X) - 1.
Proof.
  intros Hs. assert (size X = size ({[ s ]} : gset string) + size (X ∖ {[ s ]}))%nat as Hsz.
  { rewrite <- size_union by set_solver. f_equal. apply set_eq. intros x.
    rewrite elem_of_union, elem_of_difference, elem_of_singleton.
    destruct (decide (x = s)) as [-> | ?]; naive_solver. }
  rewrite size_singleton in Hsz. lia.
Qed.

Lemma size_add_stranger (X : gset string) s :
  s ∉ X → Z.of_nat (size ({[ s ]} ∪ X)) = Z.of_nat (size X) + 1.
Proof. intros Hs. rewrite size_union by set_solver. rewrite size_singleton. lia. Qed.

Lemma cleanup_workspace_ok s ws st :
  workspace_registry_ok st →
  getWorkspaceIdForSocket s st = Some ws →
  workspace_registry_ok (cleanupUserFromWorkspaceRoom s ws st)
  ∧ getWorkspaceIdForSocket s (cleanupUserFromWorkspaceRoom s ws st) = None.
Proof.
  intros (Hnil & Hcount & Hindex) Hs.
  pose proof (proj1 (Hindex s ws) Hs) as (room & Hroom & Hmember).
  destruct (Hcount ws room Hroom) as [Hsize Hpos].
  pose proof (size_remove_member _ _ Hmember) as Hless.
  assert (∀ s' ws', s' ≠ s →
            getWorkspaceIdForSocket s' (cleanupUserFromWorkspaceRoom s ws st) = Some ws'
            ↔ getWorkspaceIdForSocket s' st = Some ws') as Hother.
  { intros s' ws' Hne. unfold getWorkspaceIdForSocket, cleanupUserFromWorkspaceRoom.
    rewrite Hroom. cbn. destruct (decide _); cbn; by rewrite lookup_delete_ne. }
  assert (getWorkspaceIdForSocket s (cleanupUserFromWorkspaceRoom s ws st) = None) as Hgone.
  { unfold getWorkspaceIdForSocket, cleanupUserFromWorkspaceRoom.
    rewrite Hroom. cbn. destruct (decide _); cbn; by rewrite lookup_delete_eq. }
  split; [| done].
  assert (workspaceRooms (cleanupUserFromWorkspaceRoom s ws st)
          = if decide (WorkspaceRoom.activeConnections room - 1 = 0)
            then delete ws (workspaceRooms st)
            else <[ ws := WorkspaceRoom.mk (WorkspaceRoom.workspaceId room)
                            (WorkspaceRoom.users room ∖ {[ s ]})
                            (WorkspaceRoom.lastModified room)
                            (WorkspaceRoom.activeConnections room - 1) ]>
                   (workspaceRooms st)) as Hrooms.
  { unfold cleanupUserFromWorkspaceRoom. rewrite Hroom. cbn.
    rewrite Z.max_r by lia. by destruct (decide _). }
  revert Hother Hgone Hrooms.
  generalize (cleanupUserFromWorkspaceRoom s ws st). intros st' Hother Hgone Hrooms.
  unfold workspace_registry_ok. rewrite Hrooms. clear Hrooms.
  destruct (decide (WorkspaceRoom.activeConnections room - 1 = 0)) as [Hlast | Hmore].
  - (* the last member leaves: the room goes *)
    assert (WorkspaceRoom.users room ∖ {[ s ]} = ∅) as Hempty.
    { apply leibniz_equiv, size_empty_iff. lia. }
    split; [by apply lookup_delete_None; right |].
    split.
    + intros ws' room' Hroom'. apply lookup_delete_Some in Hroom' as [_ Hroom'].
      by eapply Hcount.
    + intros s' ws'. destruct (decide (s' = s)) as [-> | Hne].
      * rewrite Hgone. split; [done |]. intros (room' & Hroom' & Hin).
        apply lookup_delete_Some in Hroom' as [Hws' Hroom'].
        assert (getWorkspaceIdForSocket s st = Some ws') as Hs' by (apply Hindex; eauto).
        congruence.
      * rewrite Hother by done. rewrite Hindex. split.
        -- intros (room' & Hroom' & Hin). exists room'. split; [| done].
           apply lookup_delete_Some. split; [| done]. intros <-.
           assert (room' = room) as -> by congruence. set_solver.
        -- intros (room' & Hroom' & Hin). apply lookup_delete_Some in Hroom' as [_ ?]. eauto.
  - split; [rewrite lookup_insert_ne; [done | intros ->; congruence] |].
    split.
    + intros ws' room' Hroom'. apply lookup_insert_Some in Hroom' as [[<- <-] | [_ Hroom']].
      * cbn. lia.
      * by eapply Hcount.
    + intros s' ws'. destruct (decide (s' = s)) as [-> | Hne].
      * rewrite Hgone. split; [done |]. intros (room' & Hroom' & Hin).
        apply lookup_insert_Some in Hroom' as [[<- <-] | [Hws' Hroom']].
        -- cbn in Hin. set_solver.
        -- assert (getWorkspaceIdForSocket s st = Some ws') as Hs' by (apply Hindex; eauto).
           congruence.
      * rewrite Hother by done. rewrite Hindex. split.
        -- intros (room' & Hroom' & Hin). destruct (decide (ws' = ws)) as [-> | Hws'].
           ++ eexists. rewrite lookup_insert_eq. split; [done |]. cbn.
              assert (room' = room) as -> by congruence. set_solver.
           ++ exists room'. by rewrite lookup_insert_ne.
        -- intros (room' & Hroom' & Hin).
           apply lookup_insert_Some in Hroom' as [[<- <-] | [_ Hroom']].
           ++ exists room. cbn in Hin. split; [done | set_solver].
           ++ eauto.
Qed.

Lemma ok_depends_on_workspace_side st st' :
  workspaceRooms st' = workspaceRooms st →
  socketToWorkspace st' = socketToWorkspace st →
  workspace_registry_ok st → workspace_registry_ok st'.
Proof.
  unfold workspace_registry_ok, getWorkspaceIdForSocket. by intros -> ->.
Qed.

(** The second half of the join handler, lines 70-95, from a state in
    which the socket is in no workspace room. *)
Lemma enter_workspace_ok (st1 stN : State) s ws role :
  workspace_registry_ok st1 →
  getWorkspaceIdForSocket s st1 = None →
  ws ≠ "" →
  (let base := default (createWorkspaceRoom ws (clock st1)) (workspaceRooms st1 !! ws) in
   workspaceRooms stN
   = <[ ws := WorkspaceRoom.mk (WorkspaceRoom.workspaceId base)
                ({[ s ]} ∪ WorkspaceRoom.users base) (WorkspaceRoom.lastModified base)
                (WorkspaceRoom.activeConnections base + 1) ]> (workspaceRooms st1)) →
  socketToWorkspace stN = <[ s := (ws, role) ]> (socketToWorkspace st1) →
  workspace_registry_ok stN.
Proof.
  intros (Hnil & Hcount & Hindex) Hout Hws Hrooms Hix. cbv zeta in Hrooms.
  assert (∀ ws' room, workspaceRooms st1 !! ws' = Some room → s ∉ WorkspaceRoom.users room)
    as Hstranger.
  { intros ws' room Hroom Hin.
    assert (getWorkspaceIdForSocket s st1 = Some ws') by (apply Hindex; eauto). congruence. }
  assert (∀ s' ws', s' ≠ s →
            getWorkspaceIdForSocket s' stN = Some ws'
            ↔ getWorkspaceIdForSocket s' st1 = Some ws') as Hother.
  { intros s' ws' Hne. unfold getWorkspaceIdForSocket. by rewrite Hix, lookup_insert_ne. }
  assert (getWorkspaceIdForSocket s stN = Some ws) as Hin.
  { unfold getWorkspaceIdForSocket. by rewrite Hix, lookup_insert_eq. }
  unfold workspace_registry_ok. rewrite Hrooms. clear Hrooms Hix.
  split; [by rewrite lookup_insert_ne |]. split.
  - intros ws' room' Hroom'.
    apply lookup_insert_Some in Hroom' as [[<- <-] | [_ Hroom']]; [| by eapply Hcount].
    cbn. destruct (workspaceRooms st1 !! ws) as [room |] eqn:Hroom; cbn.
    + destruct (Hcount ws room Hroom) as [Hsize Hpos].
      rewrite size_add_stranger by by eapply Hstranger. lia.
    + rewrite union_empty_r_L, size_singleton. lia.
  - intros s' ws'. destruct (decide (s' = s)) as [-> | Hne].
    + rewrite Hin. split.
      * intros [= <-]. eexists. rewrite lookup_insert_eq. split; [done |]. cbn. set_solver.
      * intros (room' & Hroom' & Hmem).
        apply lookup_insert_Some in Hroom' as [[<- _] | [_ Hroom']]; [done |].
        by destruct (Hstranger _ _ Hroom').
    + rewrite Hother by done. rewrite Hindex. split.
      * intros (room & Hroom & Hmem). destruct (decide (ws' = ws)) as [-> | Hws'].
        -- eexists. rewrite lookup_insert_eq. split; [done |]. cbn. rewrite Hroom. cbn.
           set_solver.
        -- exists room. by rewrite lookup_insert_ne.
      * intros (room' & Hroom' & Hmem).
        apply lookup_insert_Some in Hroom' as [[<- <-] | [_ Hroom']]; [| eauto].
        cbn in Hmem. destruct (workspaceRooms st1 !! ws) as [room |] eqn:Hroom; cbn in Hmem.
        -- exists room. split; [done | set_solver].
        -- set_solver.
Qed.

Section Run.
Variable verifyWorkspaceAccess : string → string → AccessOutcome.

Lemma join_workspace_ok socket ws st :
  workspace_registry_ok st →
  ws ≠ "" →
  getWorkspaceIdForSocket (id socket) st ≠ Some ws →
  workspace_registry_ok (WorkspaceHandlers.join_workspace verifyWorkspaceAccess socket ws st).
Proof.
  intros Hok Hws Hnew. unfold WorkspaceHandlers.join_workspace, WorkspaceHandlers.join_error.
  destruct (socket_userId socket) as [u |]; [| by eapply ok_depends_on_workspace_side].
  destruct (_ || _); [by eapply ok_depends_on_workspace_side |].
  destruct (verifyWorkspaceAccess u ws) as [| [|] accessRole];
    [by eapply ok_depends_on_workspace_side | | by eapply ok_depends_on_workspace_side].
  set (role := if truthy accessRole then default "read" accessRole else "read").
  set (st1 := match getWorkspaceIdForSocket (id socket) st with
              | Some c => _ | None => st end).
  assert (workspace_registry_ok st1 ∧ getWorkspaceIdForSocket (id socket) st1 = None)
    as [Hok1 Hout].
  { subst st1. destruct (getWorkspaceIdForSocket (id socket) st) as [c |] eqn:Hc; [| done].
    assert (c ≠ "") as Hc_named.
    { intros ->. destruct Hok as (Hnil & _ & Hindex).
      apply Hindex in Hc as (room & Hroom & _). congruence. }
    rewrite truthy_Some by done.
    rewrite bool_decide_eq_false_2 by congruence. cbn [negb andb].
    apply cleanup_workspace_ok; [| done].
    by eapply ok_depends_on_workspace_side. }
  clearbody st1. clear Hok Hnew.
  unfold hasWorkspaceRoom.
  destruct (workspaceRooms st1 !! ws) as [room |] eqn:Hroom.
  - rewrite bool_decide_eq_true_2 by (cbn; eauto). cbn. rewrite Hroom.
    eapply (enter_workspace_ok st1 _ (id socket) ws role); try done.
    cbn. by rewrite Hroom.
  - rewrite bool_decide_eq_false_2 by (cbn; rewrite Hroom; by intros [? ?]). cbn.
    rewrite lookup_insert_eq.
    eapply (enter_workspace_ok st1 _ (id socket) ws role); try done.
    cbn. rewrite Hroom. cbn. by rewrite insert_insert_eq.
Qed.

Lemma leave_workspace_ok socket ws st :
  workspace_registry_ok st →
  getWorkspaceIdForSocket (id socket) st = Some ws →
  workspace_registry_ok (WorkspaceHandlers.leave_workspace socket ws st).
Proof.
  intros Hok Hin. unfold WorkspaceHandlers.leave_workspace.
  eapply ok_depends_on_workspace_side; [done | done |].
  apply cleanup_workspace_ok; [| done]. by eapply ok_depends_on_workspace_side.
Qed.

(** X13.  Where the counters and the index do hold.  Runs in which a socket joins
    only workspaces it is not in, and leaves only the workspace it is in,
    keep the counter of every workspace room equal to the size of its member
    set and positive, and keep [socketToWorkspace] in step with the
    membership. *)
Theorem disciplined_requests_keep_registry_ok st rs :
  workspace_registry_ok st →
  disciplined_run verifyWorkspaceAccess st rs →
  workspace_registry_ok (WorkspaceHandlers.run verifyWorkspaceAccess st rs).
Proof.
  revert st. induction rs as [| r rs IH]; intros st Hok Hrun; [done |].
  destruct Hrun as [Hr Hrs]. cbn. apply IH; [| done].
  destruct r as [socket ws | socket ws | s ws]; cbn in *.
  - destruct Hr. by apply join_workspace_ok.
  - by apply leave_workspace_ok.
  - by apply cleanup_workspace_ok.
Qed.
End Run.
End Discipline.

Section RegistryInvariants.

Lemma initial_workspace_registry_ok now : workspace_registry_ok (initial now).
Proof.
  split; [done |]. split.
  - intros k room Hk. cbn in Hk. by rewrite lookup_empty in Hk.
  - intros s k. unfold RoomManager.getWorkspaceIdForSocket. cbn. rewrite lookup_empty.
    split; [done |]. intros (room & Hk & _). by rewrite lookup_empty in Hk.
Qed.

Lemma initial_counts_match now : counts_match (initial now).
Proof. split; intros k room Hk; cbn in Hk; by rewrite lookup_empty in Hk. Qed.

Lemma initial_indices_consistent now : indices_consistent (initial now).
Proof.
  split; intros s k; unfold RoomManager.getWorkspaceIdForSocket; cbn;
    rewrite lookup_empty; (split; [done |]); intros (room & Hk & _);
    by rewrite lookup_empty in Hk.
Qed.

(** C4, which the code breaks: the counter of a workspace room runs apart
    from its member set.  From the empty registry, where the invariant holds, two
    joins of [WS1] on Alice's socket leave one member and a counter of 2;
    and a leave of [WS1] from Carol, who never joined, leaves the two
    members Alice and Bob and a counter of 1. *)
Theorem workspace_counter_drifts :
  counts_match (initial 0)
  ∧ (let st := WorkspaceHandlers.run grant_all (initial 0) join_twice in
     workspaceRooms st !! "WS1" = Some (WorkspaceRoom.mk "WS1" {[ "s1" ]} 0 2)
     ∧ ¬ counts_match st)
  ∧ (let st := WorkspaceHandlers.run grant_all (initial 0) stray_leave in
     workspaceRooms st !! "WS1" = Some (WorkspaceRoom.mk "WS1" {[ "s1"; "s2" ]} 0 1)
     ∧ ¬ counts_match st).
Proof.
  split; [apply initial_counts_match |].
  split; cbv zeta.
  - assert (workspaceRooms (WorkspaceHandlers.run grant_all (initial 0) join_twice) !! "WS1"
            = Some (WorkspaceRoom.mk "WS1" {[ "s1" ]} 0 2)) as Hroom by by vm_compute.
    split; [done |]. intros [_ Hws]. by destruct (Hws _ _ Hroom) as [Hcount _].
  - assert (workspaceRooms (WorkspaceHandlers.run grant_all (initial 0) stray_leave) !! "WS1"
            = Some (WorkspaceRoom.mk "WS1" {[ "s1"; "s2" ]} 0 1)) as Hroom by by vm_compute.
    split; [done |]. intros [_ Hws]. by destruct (Hws _ _ Hroom) as [Hcount _].
Qed.

(** C5, which the code breaks: the reverse index runs apart from the
    membership.  From the empty registry, where the two agree, Alice joins [WS1] and then
    leaves [WS2], which she never joined: her socket is still a member of
    the room of [WS1], but [socketToWorkspace] has lost it. *)
Theorem workspace_index_drifts :
  indices_consistent (initial 0)
  ∧ (let st := WorkspaceHandlers.run grant_all (initial 0) leave_other in
     workspaceRooms st !! "WS1" = Some (WorkspaceRoom.mk "WS1" {[ "s1" ]} 0 1)
     ∧ socketToWorkspace st !! "s1" = None
     ∧ ¬ indices_consistent st).
Proof.
  split; [apply initial_indices_consistent |]. cbv zeta.
  assert (workspaceRooms (WorkspaceHandlers.run grant_all (initial 0) leave_other) !! "WS1"
          = Some (WorkspaceRoom.mk "WS1" {[ "s1" ]} 0 1)) as Hroom by by vm_compute.
  assert (socketToWorkspace (WorkspaceHandlers.run grant_all (initial 0) leave_other) !! "s1"
          = None) as Hindex by by vm_compute.
  split; [done |]. split; [done |]. intros [_ Hws].
  assert (RoomManager.getWorkspaceIdForSocket "s1"
            (WorkspaceHandlers.run grant_all (initial 0) leave_other) = Some "WS1") as Habs.
  { apply Hws. eexists. split; [exact Hroom |]. cbn. by apply elem_of_singleton. }
  unfold RoomManager.getWorkspaceIdForSocket in Habs. by rewrite Hindex in Habs.
Qed.

End RegistryInvariants.

(** * Workflow deletion, closer up ([handleWorkflowDeletion]) *)

Section Deletion.
Import RoomManager.

Lemma cleanup_other_rooms s wid st w :
  w ≠ wid → workflowRooms (cleanupUserFromRoom s wid st) !! w = workflowRooms st !! w.
Proof.
  intros Hne. unfold cleanupUserFromRoom.
  destruct (workflowRooms st !! wid); [| done].
  destruct (decide _); cbn; [by rewrite lookup_delete_ne | by rewrite lookup_insert_ne].
Qed.

Lemma disconnect_step w acc s :
  let st' := disconnectStep w acc s in
  socketToWorkflow st' = delete s (socketToWorkflow acc)
  ∧ userSessions st' = delete s (userSessions acc)
  ∧ workspaceRooms st' = workspaceRooms acc
  ∧ socketToWorkspace st' = socketToWorkspace acc
  ∧ sockets st' = sockets acc ∧ sent st' = sent acc ∧ clock st' = clock acc
  ∧ joined st' = (if decide (s ∈ sockets acc) then joined acc ∖ {[ (s, w) ]} else joined acc)
  ∧ ∀ w', w' ≠ w → workflowRooms st' !! w' = workflowRooms acc !! w'.
Proof.
  intros st'. subst st'. unfold disconnectStep.
  destruct (cleanup_fields s w (if_connected s (socket_leave s w) acc))
    as (-> & -> & -> & -> & -> & -> & -> & ->).
  assert (∀ w', w' ≠ w →
            workflowRooms (cleanupUserFromRoom s w (if_connected s (socket_leave s w) acc)) !! w'
            = workflowRooms acc !! w') as Hrooms.
  { intros w' Hw'. rewrite cleanup_other_rooms by done.
    unfold if_connected. by destruct (decide _). }
  unfold if_connected in *. by destruct (decide (s ∈ sockets acc)).
Qed.

Lemma deletion_unfold w st room :
  workflowRooms st !! w = Some room →
  handleWorkflowDeletion w st
  = upd_workflowRooms (delete w)
      (foldl (disconnectStep w)
             (emit (ToRoom w) "workflow-deleted"
                   (WorkflowNotice w "This workflow has been deleted" (clock st)) st)
             (map_to_list (WorkflowRoom.users room)).*1).
Proof. intros Hw. unfold handleWorkflowDeletion. by rewrite Hw. Qed.

(** X1.  Deleting a workflow that has a room removes the room, emits one
    [workflow-deleted] event to the room (and nothing else), disconnects
    nobody, and clears every member of the room out of [socketToWorkflow]
    and [userSessions]; a member that is connected has left the socket.io
    room of the workflow. *)
Theorem deletion_evicts_everyone st w room :
  workflowRooms st !! w = Some room →
  let st' := handleWorkflowDeletion w st in
  workflowRooms st' !! w = None
  ∧ sent st' = sent st ++ [ deleted_notice w (clock st) ]
  ∧ sockets st' = sockets st
  ∧ ∀ s, is_Some (WorkflowRoom.users room !! s) →
         socketToWorkflow st' !! s = None
         ∧ userSessions st' !! s = None
         ∧ (s ∈ sockets st → (s, w) ∉ joined st').
Proof.
  intros Hw st'. subst st'. rewrite (deletion_unfold w st room Hw).
  set (st1 := emit _ _ _ st).
  split; [cbn; apply lookup_delete_eq |].
  assert (sent (foldl (disconnectStep w) st1 (map_to_list (WorkflowRoom.users room)).*1)
          = sent st1
          ∧ sockets (foldl (disconnectStep w) st1 (map_to_list (WorkflowRoom.users room)).*1)
            = sockets st1) as [Hsent Hsockets].
  { apply (foldl_preserves _ (λ a, sent a = sent st1 ∧ sockets a = sockets st1)); [done |].
    intros a s _ [Ha1 Ha2].
    destruct (disconnect_step w a s) as (_ & _ & _ & _ & -> & -> & _). done. }
  split; [cbn; by rewrite Hsent |]. split; [cbn; by rewrite Hsockets |].
  intros s [p Hs]. cbn.
  assert (s ∈ (map_to_list (WorkflowRoom.users room)).*1) as Hin.
  { apply list_elem_of_fmap. exists (s, p). split; [done |]. by apply elem_of_map_to_list. }
  apply (foldl_establishes _
           (λ a, sockets a = sockets st)
           (λ a, socketToWorkflow a !! s = None ∧ userSessions a !! s = None
                 ∧ (s ∈ sockets st → (s, w) ∉ joined a))
           _ s st1 Hin).
  - done.
  - intros a s' _ Ha. by destruct (disconnect_step w a s') as (_ & _ & _ & _ & -> & _).
  - intros a Ha. destruct (disconnect_step w a s) as (-> & -> & _ & _ & _ & _ & _ & -> & _).
    rewrite !lookup_delete_eq, Ha. split; [done | split; [done |]].
    intros Hconn. rewrite decide_True by done. intros Hj.
    apply elem_of_difference in Hj as [_ Hj]. apply Hj. by apply elem_of_singleton.
  - intros a s' _ (Hi & Hu & Hj).
    destruct (disconnect_step w a s') as (-> & -> & _ & _ & _ & _ & _ & -> & _).
    split; [apply lookup_delete_None; by right |].
    split; [apply lookup_delete_None; by right |].
    intros Hconn Hin'. apply (Hj Hconn). destruct (decide _); [| done].
    by apply elem_of_difference in Hin' as [? _].
Qed.

(** X2.  A deletion touches one room only: every other workflow room is as
    it was, a socket that was not in the deleted room keeps its entries
    in [socketToWorkflow] and [userSessions], and the workspace rooms
    and their index are unchanged. *)
Theorem deletion_touches_one_room st w :
  let st' := handleWorkflowDeletion w st in
  (∀ w', w' ≠ w → workflowRooms st' !! w' = workflowRooms st !! w')
  ∧ (∀ s, (∀ room, workflowRooms st !! w = Some room → WorkflowRoom.users room !! s = None) →
          socketToWorkflow st' !! s = socketToWorkflow st !! s
          ∧ userSessions st' !! s = userSessions st !! s)
  ∧ workspaceRooms st' = workspaceRooms st
  ∧ socketToWorkspace st' = socketToWorkspace st.
Proof.
  intros st'. subst st'.
  destruct (workflowRooms st !! w) as [room |] eqn:Hw;
    [| unfold handleWorkflowDeletion; rewrite Hw; done].
  rewrite (deletion_unfold w st room Hw).
  set (st1 := emit _ _ _ st). cbn.
  split; [| split].
  - intros w' Hw'. rewrite lookup_delete_ne by done.
    apply (foldl_preserves _ (λ a, workflowRooms a !! w' = workflowRooms st !! w')); [done |].
    intros a s _ Ha. destruct (disconnect_step w a s) as (_ & _ & _ & _ & _ & _ & _ & _ & Hr).
    by rewrite Hr.
  - intros s Hs. specialize (Hs room eq_refl).
    assert (∀ l, s ∉ l →
              socketToWorkflow (foldl (disconnectStep w) st1 l) !! s = socketToWorkflow st !! s
              ∧ userSessions (foldl (disconnectStep w) st1 l) !! s = userSessions st !! s)
      as Hloop.
    { intros l Hl.
      apply (foldl_preserves _
               (λ a, socketToWorkflow a !! s = socketToWorkflow st !! s
                     ∧ userSessions a !! s = userSessions st !! s)); [done |].
      intros a s' Hs' [Ha1 Ha2].
      destruct (disconnect_step w a s') as (-> & -> & _).
      rewrite !lookup_delete_ne; [done | |]; intros ->; done. }
    apply Hloop. intros Hin. apply list_elem_of_fmap in Hin as ([s' p] & -> & Hin).
    apply elem_of_map_to_list in Hin. cbn in Hs. congruence.
  - apply (foldl_preserves _
             (λ a, workspaceRooms a = workspaceRooms st
                   ∧ socketToWorkspace a = socketToWorkspace st)); [done |].
    intros a s _ [Ha1 Ha2].
    destruct (disconnect_step w a s) as (_ & _ & -> & -> & _). done.
Qed.
End Deletion.

Lemma deletion_evicts_everyone_witness :
  let st' := RoomManager.handleWorkflowDeletion "W1" alice_in_W1 in
  workflowRooms st' !! "W1" = None
  ∧ sent st' = sent alice_in_W1 ++ [ deleted_notice "W1" (clock alice_in_W1) ]
  ∧ sockets st' = sockets alice_in_W1
  ∧ ∀ s, is_Some (WorkflowRoom.users W1_room !! s) →
         socketToWorkflow st' !! s = None
         ∧ userSessions st' !! s = None
         ∧ (s ∈ sockets alice_in_W1 → (s, "W1") ∉ joined st').
Proof.
  apply (deletion_evicts_everyone alice_in_W1 "W1" W1_room). reflexivity.
Defined.

(** * Announcements ([handleWorkflowUpdate], [handleWorkflowRevert],
      [handleCopilotWorkflowEdit], [handleWorkspaceResourceChange]) *)

Section Quiet.
Import RoomManager.

Lemma same_membership_refl st : same_membership st st.
Proof. by repeat split. Qed.

Lemma same_membership_trans st1 st2 st3 :
  same_membership st1 st2 → same_membership st2 st3 → same_membership st1 st3.
Proof.
  intros (A1 & A2 & A3 & A4 & A5 & A6 & A7 & A8 & A9) (B1 & B2 & B3 & B4 & B5 & B6 & B7 & B8 & B9).
  repeat split; intros; congruence.
Qed.

Lemma stamp_workflow_room w room ts ev p st :
  workflowRooms st !! w = Some room →
  same_membership st
    (upd_workflowRooms (insert w (WorkflowRoom.set_lastModified ts room)) (emit (ToRoom w) ev p st)).
Proof.
  intros Hw. repeat split; try done; intros w'; cbn;
    (destruct (decide (w' = w)) as [-> | ?];
     [by rewrite lookup_insert_eq, Hw | by rewrite lookup_insert_ne]).
Qed.

Lemma quiet_step n st :
  quiet n →
  same_membership st (operation_of n st)
  ∧ length (sent (operation_of n st))
    = (length (sent st) + if has_room st n then 1 else 0)%nat.
Proof.
  intros Hq. destruct n; try done; cbn [operation_of has_room workflow_of mbind option_bind].
  - unfold handleWorkflowUpdate. destruct (workflowRooms st !! workflowId) eqn:Hw.
    + split; [by apply stamp_workflow_room |]. cbn. rewrite length_app. done.
    + split; [apply same_membership_refl | cbn; lia].
  - unfold handleWorkflowRevert. destruct (workflowRooms st !! workflowId) eqn:Hw.
    + split; [by apply stamp_workflow_room |]. cbn. rewrite length_app. done.
    + split; [apply same_membership_refl | cbn; lia].
  - unfold handleCopilotWorkflowEdit. destruct (workflowRooms st !! workflowId) eqn:Hw.
    + split; [by apply stamp_workflow_room |]. cbn. rewrite length_app. done.
    + split; [apply same_membership_refl | cbn; lia].
  - unfold handleWorkspaceResourceChange. destruct (workspaceRooms st !! workspaceId) eqn:Hw.
    + split; [| cbn; rewrite length_app; done].
      repeat split; try done; intros w'; cbn;
        (destruct (decide (w' = workspaceId)) as [-> | ?];
         [by rewrite lookup_insert_eq, Hw | by rewrite lookup_insert_ne]).
    + split; [apply same_membership_refl | cbn; lia].
Qed.

(** X3.  Update, revert, copilot-edit and workspace-resource notifications
    only announce: after any sequence of them every room has the members
    and the counter it had, the reverse indices, the sessions, the
    adapter's rooms and the connected sockets are unchanged, and at most
    one event per notification was emitted. *)
Theorem quiet_notifications_keep_membership ns st :
  Forall quiet ns →
  same_membership st (foldl (λ a n, operation_of n a) st ns)
  ∧ (length (sent (foldl (λ a n, operation_of n a) st ns)) ≤ length (sent st) + length ns)%nat.
Proof.
  revert st. induction ns as [| n ns IH]; intros st Hq.
  { split; [apply same_membership_refl | cbn; lia]. }
  apply Forall_cons in Hq as [Hn Hns]. cbn.
  destruct (quiet_step n st Hn) as [Hm Hl]. destruct (IH (operation_of n st) Hns) as [Hm' Hl'].
  split; [by eapply same_membership_trans |].
  rewrite Hl in Hl'. destruct (has_room st n); lia.
Qed.
End Quiet.

Lemma quiet_notifications_keep_membership_witness :
  same_membership alice_in_W1 (foldl (λ a n, operation_of n a) alice_in_W1 two_announcements)
  ∧ (length (sent (foldl (λ a n, operation_of n a) alice_in_W1 two_announcements))
     ≤ length (sent alice_in_W1) + length two_announcements)%nat.
Proof.
  apply (quiet_notifications_keep_membership two_announcements alice_in_W1).
  repeat constructor.
Defined.

(** * Counters ([cleanupUserFromWorkspaceRoom], [cleanupUserFromRoom],
      [getTotalActiveConnections], [getUniqueUserCount]) *)

Section Counters.
Import RoomManager.

Lemma cleanup_workspace_positive s ws st :
  workspace_counters_positive st →
  workspace_counters_positive (cleanupUserFromWorkspaceRoom s ws st).
Proof.
  intros Hpos ws' room'. unfold cleanupUserFromWorkspaceRoom.
  destruct (workspaceRooms st !! ws) as [room |] eqn:Hws; cbn; [| apply Hpos].
  destruct (decide _) as [Hz | Hnz]; cbn.
  - intros Hr. apply lookup_delete_Some in Hr as [_ Hr]. by eapply Hpos.
  - intros Hr. apply lookup_insert_Some in Hr as [[_ <-] | [_ Hr]]; [| by eapply Hpos].
    cbn in *. lia.
Qed.

(** X4.  Whatever workspace requests arrive, in whatever order and whether
    or not they name the socket's actual workspace, no workspace room is
    ever kept with a counter of zero or less: a room whose counter
    reaches zero is removed at once. *)
Theorem workspace_counters_stay_positive verify st rs :
  workspace_counters_positive st →
  workspace_counters_positive (WorkspaceHandlers.run verify st rs).
Proof.
  intros Hpos. unfold WorkspaceHandlers.run.
  apply (foldl_preserves _ workspace_counters_positive); [done |].
  clear. intros st r _ Hpos. destruct r as [socket ws | socket ws | s ws]; cbn.
  - unfold WorkspaceHandlers.join_workspace, WorkspaceHandlers.join_error.
    destruct (socket_userId socket) as [u |]; [| done].
    destruct (_ || _); [done |].
    destruct (verify u ws) as [| [|] accessRole]; [done | | done].
    set (st1 := match getWorkspaceIdForSocket (id socket) st with
                | Some c => _ | None => st end).
    assert (workspace_counters_positive st1) as Hpos1.
    { subst st1. destruct (getWorkspaceIdForSocket (id socket) st) as [c |]; [| done].
      destruct (_ && _); [| done]. by apply cleanup_workspace_positive. }
    clearbody st1. clear Hpos.
    unfold hasWorkspaceRoom.
    destruct (workspaceRooms st1 !! ws) as [room |] eqn:Hroom.
    + rewrite bool_decide_eq_true_2 by (cbn; eauto). cbn. rewrite Hroom.
      intros ws' room'. cbn. intros Hr.
      apply lookup_insert_Some in Hr as [[_ <-] | [_ Hr]]; [| by eapply Hpos1].
      cbn. specialize (Hpos1 ws room Hroom). lia.
    + rewrite bool_decide_eq_false_2 by (cbn; rewrite Hroom; by intros [? ?]). cbn.
      rewrite lookup_insert_eq. intros ws' room'. cbn. rewrite insert_insert_eq. intros Hr.
      apply lookup_insert_Some in Hr as [[_ <-] | [_ Hr]]; [| by eapply Hpos1].
      cbn. lia.
  - unfold WorkspaceHandlers.leave_workspace.
    exact (cleanup_workspace_positive (id socket) ws (socket_leave (id socket) ws st) Hpos).
  - by apply cleanup_workspace_positive.
Qed.

Lemma tally_from (a : Z) rooms :
  foldl (λ total room, total + WorkflowRoom.activeConnections room) a rooms = a + tally rooms.
Proof.
  unfold tally. revert a. induction rooms as [| r rooms IH]; intros a; cbn; [lia |].
  rewrite (IH (a + _)), (IH (0 + _)). lia.
Qed.

Lemma tally_cons r rooms : tally (r :: rooms) = WorkflowRoom.activeConnections r + tally rooms.
Proof. unfold tally at 1. cbn. rewrite tally_from. lia. Qed.

Lemma tally_perm rooms rooms' : rooms ≡ₚ rooms' → tally rooms = tally rooms'.
Proof.
  induction 1 as [| r l l' _ IH | r1 r2 l | l1 l2 l3 _ IH1 _ IH2]; [done | .. ].
  - by rewrite !tally_cons, IH.
  - rewrite !tally_cons. lia.
  - congruence.
Qed.

Lemma total_is_tally st : getTotalActiveConnections st = tally (map_to_list (workflowRooms st)).*2.
Proof. reflexivity. Qed.

Lemma tally_lookup (m : gmap string WorkflowRoom.t) w room :
  m !! w = Some room →
  tally (map_to_list m).*2 = WorkflowRoom.activeConnections room + tally (map_to_list (delete w m)).*2.
Proof.
  intros Hw. rewrite <- tally_cons. apply tally_perm.
  change (room :: (map_to_list (delete w m)).*2) with (((w, room) :: map_to_list (delete w m)).*2).
  apply fmap_Permutation. symmetry. by apply map_to_list_delete.
Qed.

Lemma tally_insert (m : gmap string WorkflowRoom.t) w room :
  tally (map_to_list (<[ w := room ]> m)).*2
  = WorkflowRoom.activeConnections room + tally (map_to_list (delete w m)).*2.
Proof.
  rewrite (tally_lookup (<[ w := room ]> m) w room) by apply lookup_insert_eq.
  by rewrite delete_insert_eq.
Qed.

(** X5.  Taking a socket out of a workflow room lowers the total that the
    health probe reports by exactly one when the room's counter is
    positive; the total is unchanged when there is no such room or its
    counter is already zero, and it falls by the (negative) counter when
    the counter is below zero. *)
Theorem cleanup_lowers_total_by_one s w st :
  getTotalActiveConnections (cleanupUserFromRoom s w st)
  = getTotalActiveConnections st
    - match workflowRooms st !! w with
      | Some room => Z.min 1 (WorkflowRoom.activeConnections room)
      | None => 0
      end.
Proof.
  rewrite !total_is_tally. unfold cleanupUserFromRoom.
  destruct (workflowRooms st !! w) as [room |] eqn:Hw; cbn; [| lia].
  rewrite (tally_lookup (workflowRooms st) w room Hw).
  destruct (decide _) as [Hz | Hnz]; cbn.
  - lia.
  - rewrite tally_insert. cbn. lia.
Qed.

Lemma userIds_from (acc : gset string) presences :
  foldl (λ acc presence, {[ UserPresence.userId presence ]} ∪ acc) acc presences
  = acc ∪ list_to_set (UserPresence.userId <$> presences).
Proof.
  revert acc. induction presences as [| p ps IH]; intros acc; cbn.
  - set_solver.
  - rewrite IH. set_solver.
Qed.

Lemma userIds_spec presences u :
  u ∈ userIdsOf presences ↔ ∃ p, p ∈ presences ∧ UserPresence.userId p = u.
Proof.
  unfold userIdsOf. rewrite userIds_from, elem_of_union, elem_of_list_to_set, list_elem_of_fmap.
  split.
  - intros [H | (p & -> & Hp)]; [set_solver | eauto].
  - intros (p & Hp & <-). right. eauto.
Qed.

Lemma userIds_size presences : (size (userIdsOf presences) ≤ length presences)%nat.
Proof.
  unfold userIdsOf. rewrite userIds_from, union_empty_l_L.
  induction presences as [| p ps IH]; cbn; [by rewrite size_empty |].
  rewrite size_union_alt, size_singleton.
  pose proof (subseteq_size (list_to_set (UserPresence.userId <$> ps)
                              ∖ {[ UserPresence.userId p ]})
                (list_to_set (UserPresence.userId <$> ps) : gset string)) as Hle.
  specialize (Hle ltac:(set_solver)). lia.
Qed.

(** X6.  [getUniqueUserCount] is 0 for a workflow without a room;
    otherwise it is the size of the set of user ids that have a presence
    in the room, and never more than the number of sockets in the room. *)
Theorem unique_user_count_counts_users st w :
  match workflowRooms st !! w with
  | None => getUniqueUserCount w st = 0
  | Some room =>
      (∃ uniqueUsers : gset string,
         getUniqueUserCount w st = Z.of_nat (size uniqueUsers)
         ∧ ∀ u, u ∈ uniqueUsers
                ↔ ∃ s p, WorkflowRoom.users room !! s = Some p ∧ UserPresence.userId p = u)
      ∧ getUniqueUserCount w st ≤ Z.of_nat (size (WorkflowRoom.users room))
  end.
Proof.
  unfold getUniqueUserCount. destruct (workflowRooms st !! w) as [room |]; [| done].
  fold (userIdsOf (map_to_list (WorkflowRoom.users room)).*2). split.
  - eexists. split; [done |]. intros u. rewrite userIds_spec. split.
    + intros (p & Hp & Hu). apply list_elem_of_fmap in Hp as ([s p'] & -> & Hp).
      apply elem_of_map_to_list in Hp. eauto.
    + intros (s & p & Hs & Hu). exists p. split; [| done].
      apply list_elem_of_fmap. exists (s, p). split; [done |]. by apply elem_of_map_to_list.
  - pose proof (userIds_size (map_to_list (WorkflowRoom.users room)).*2) as Hle.
    rewrite length_fmap, length_map_to_list in Hle. lia.
Qed.

(** X7.  The verdict of [validateWorkflowConsistency] is [valid] exactly
    when it lists no issue, which is exactly when the query for orphaned
    edges succeeds and finds none; it never lists more than one issue,
    and a failing query is reported as invalid. *)
Theorem consistency_verdict query :
  let result := validateWorkflowConsistency query in
  (valid result = true ↔ issues result = [])
  ∧ (valid result = true ↔ query = Some [])
  ∧ (length (issues result) ≤ 1)%nat.
Proof.
  destruct query as [[| e edges] |]; unfold validateWorkflowConsistency.
  - rewrite decide_False by (cbn; lia). cbn. rewrite !bool_decide_eq_true.
    repeat split; try done; lia.
  - rewrite decide_True by (cbn; lia). cbn. rewrite !bool_decide_eq_true. cbn.
    repeat split; try done; lia.
  - cbn. repeat split; try done; lia.
Qed.
End Counters.

Lemma workspace_counters_stay_positive_witness :
  workspace_counters_positive (WorkspaceHandlers.run grant_all (initial 0) join_twice).
Proof.
  apply (workspace_counters_stay_positive grant_all (initial 0) join_twice).
  intros ws room Hroom. cbn in Hroom. by rewrite lookup_empty in Hroom.
Defined.

(** * Permission changes, closer up ([handlePermissionChange]) *)

Section PermissionClosed.
Import RoomManager.

Lemma user_socket_inv userId room s p :
  (s, p) ∈ userSocketsOf userId room →
  WorkflowRoom.users room !! s = Some p ∧ UserPresence.userId p = userId.
Proof.
  unfold userSocketsOf. intros Hin. apply list_elem_of_filter in Hin as [Hu Hin].
  by apply elem_of_map_to_list in Hin.
Qed.

Lemma affected_room_inv userId st k room :
  (k, room) ∈ affectedRoomsOf userId st → workflowRooms st !! k = Some room.
Proof.
  unfold affectedRoomsOf. intros Hin. apply list_elem_of_filter in Hin as [_ Hin].
  by apply elem_of_map_to_list in Hin.
Qed.

Lemma permission_change_preserves_in (P : State → Prop) userId workspaceId newRole isRemoved st :
  P st →
  (∀ a k r s p,
     workflowRooms st !! k = Some r → WorkflowRoom.users r !! s = Some p →
     UserPresence.userId p = userId →
     P a → P (permissionStep workspaceId newRole isRemoved k r a (s, p))) →
  (∀ a wid, P a → P (broadcastPresenceUpdate wid a)) →
  P (handlePermissionChange userId workspaceId newRole isRemoved st).
Proof.
  intros HP Hstep Hcast. unfold handlePermissionChange.
  destruct (decide _); [done |].
  apply foldl_preserves; [done |]. intros a [k r] Hk Ha. cbn. apply Hcast.
  apply affected_room_inv in Hk.
  apply foldl_preserves; [done |]. intros a' [s p] Hs Ha'.
  apply user_socket_inv in Hs as [Hs Hu]. by eapply Hstep.
Qed.

(** X8.  A permission change for a user who has no presence in any
    workflow room returns the state it was given: nothing is emitted,
    whether the change is a revocation or a change of role. *)
Theorem permission_change_without_sessions userId workspaceId newRole isRemoved st :
  has_no_session userId st →
  handlePermissionChange userId workspaceId newRole isRemoved st = st.
Proof.
  intros Hnone. unfold handlePermissionChange.
  destruct (affectedRoomsOf userId st) as [| [k room] rest] eqn:Haff; [done |].
  exfalso.
  assert ((k, room) ∈ affectedRoomsOf userId st) as Hin by (rewrite Haff; left).
  unfold affectedRoomsOf in Hin. apply list_elem_of_filter in Hin as [Hlen Hin].
  apply elem_of_map_to_list in Hin. cbn in Hlen.
  destruct (userSocketsOf userId room) as [| [s p] l] eqn:Hus; [cbn in Hlen; lia |].
  assert ((s, p) ∈ userSocketsOf userId room) as Hsp by (rewrite Hus; left).
  apply user_socket_inv in Hsp as [Hs Hu]. by eapply Hnone.
Qed.

Lemma foldl_related {A B} (R : A → A → Prop) (f g : A → B → A) l a a' :
  R a a' → (∀ a a' b, R a a' → R (f a b) (g a' b)) → R (foldl f a l) (foldl g a' l).
Proof. revert a a'. induction l as [| b l IH]; intros a a' Ha Hstep; cbn; auto. Qed.

Lemma forget_sent_step ws ws' newRole isRemoved k room a a' sp :
  forget_sent a = forget_sent a' →
  forget_sent (permissionStep ws newRole isRemoved k room a sp)
  = forget_sent (permissionStep ws' newRole isRemoved k room a' sp).
Proof.
  destruct a, a', sp as [s p]. unfold forget_sent. cbn. intros [= -> -> -> -> -> -> -> ->].
  unfold permissionStep, cleanupUserFromRoom, if_connected. destruct isRemoved; cbn.
  - destruct (decide (s ∈ _)); cbn;
      (destruct (_ !! WorkflowRoom.workflowId room); cbn; [destruct (decide _) |]; done).
  - by destruct (decide (s ∈ _)).
Qed.

Lemma forget_sent_broadcast wid a a' :
  forget_sent a = forget_sent a' →
  forget_sent (broadcastPresenceUpdate wid a) = forget_sent (broadcastPresenceUpdate wid a').
Proof.
  destruct a, a'. unfold forget_sent. cbn. intros [= -> -> -> -> -> -> -> ->].
  unfold broadcastPresenceUpdate. cbn. by destruct (_ !! wid).
Qed.

(** X9.  The workspace named by a permission change only travels in the
    payloads of the events: which sockets are evicted or relabelled, and
    every map of the registry afterwards, are the same whatever workspace
    id the notification carries. *)
Theorem permission_change_ignores_workspace userId ws ws' newRole isRemoved st :
  forget_sent (handlePermissionChange userId ws newRole isRemoved st)
  = forget_sent (handlePermissionChange userId ws' newRole isRemoved st).
Proof.
  unfold handlePermissionChange. destruct (decide _); [done |].
  apply (foldl_related (λ a a', forget_sent a = forget_sent a')); [done |].
  intros a a' [k room] Ha. cbn. apply forget_sent_broadcast.
  apply (foldl_related (λ a a', forget_sent a = forget_sent a')); [done |].
  intros. by apply forget_sent_step.
Qed.
Lemma role_change_partly userId workspaceId newRole st :
  rooms_partly_relabelled userId newRole st
    (handlePermissionChange userId workspaceId newRole false st).
Proof.
  apply permission_change_preserves_in.
  - intros w. destruct (workflowRooms st !! w) as [r |]; [| done].
    exists r. repeat split; try done. intros s. by left.
  - intros a k r s p Hk Hs Hu Ha. unfold rooms_partly_relabelled in *. intros w.
    specialize (Ha w).
    destruct (role_step workspaceId newRole k r a s p) as (-> & _).
    destruct (decide (k = w)) as [-> | Hne].
    2:{ destruct (workflowRooms st !! w); [| by rewrite lookup_alter_ne].
        destruct Ha as (r' & Hr' & Hrel). exists r'. by rewrite lookup_alter_ne. }
    rewrite Hk in Ha |- *. destruct Ha as (r' & Hr' & Hid & Hlm & Hac & Hus).
    eexists. split; [by rewrite lookup_alter_eq, Hr' |].
    unfold partly_relabelled, relabel. cbn. repeat split; try done.
    intros s'. rewrite lookup_alter. destruct (decide (s = s')) as [<- | Hs']; [| apply Hus].
    right. exists p. split; [done | split; [done |]].
    destruct (Hus s) as [-> | (p' & Hp' & _ & ->)].
    + by rewrite Hs.
    + cbn. rewrite Hs in Hp'. injection Hp' as <-. by rewrite set_role_twice.
  - intros a wid Ha. unfold rooms_partly_relabelled in *. intros w.
    specialize (Ha w). by destruct (broadcast_rooms wid a) as (-> & _).
Qed.

Lemma role_change_keeps_indices userId workspaceId newRole st :
  let st' := handlePermissionChange userId workspaceId newRole false st in
  socketToWorkflow st' = socketToWorkflow st
  ∧ userSessions st' = userSessions st
  ∧ joined st' = joined st.
Proof.
  apply (permission_change_preserves
           (λ a, socketToWorkflow a = socketToWorkflow st
                 ∧ userSessions a = userSessions st ∧ joined a = joined st)).
  - done.
  - intros a k r [s p] (H1 & H2 & H3). cbn. unfold if_connected.
    by destruct (decide _).
  - intros a wid (H1 & H2 & H3). unfold broadcastPresenceUpdate.
    by destruct (workflowRooms a !! wid).
Qed.

(** X10.  A change of role rewrites roles and nothing else: afterwards
    every workflow room is the room it was with [newRole] on each
    presence of the user (other presences, counters and timestamps
    untouched, no room added or removed), and the workspace rooms, both
    reverse indices, the sessions, the adapter's rooms and the connected
    sockets are unchanged. *)
Theorem role_change_rewrites_only_roles userId workspaceId newRole st :
  let st' := handlePermissionChange userId workspaceId newRole false st in
  workflowRooms st' = relabel_user userId newRole <$> workflowRooms st
  ∧ workspaceRooms st' = workspaceRooms st
  ∧ socketToWorkflow st' = socketToWorkflow st
  ∧ socketToWorkspace st' = socketToWorkspace st
  ∧ userSessions st' = userSessions st
  ∧ joined st' = joined st
  ∧ sockets st' = sockets st.
Proof.
  intros st'. subst st'.
  destruct (permission_change_frame userId workspaceId newRole false st)
    as (Hsockets & _ & Hws & Hidx).
  destruct (role_change_keeps_indices userId workspaceId newRole st) as (Hwf & Hus & Hj).
  split; [| done].
  apply map_eq. intros w. rewrite lookup_fmap.
  pose proof (role_change_partly userId workspaceId newRole st w) as Hw.
  destruct (workflowRooms st !! w) as [r |] eqn:Hr; [| done].
  destruct Hw as (r' & Hr' & Hid & Hlm & Hac & Hrel). rewrite Hr'. cbn. f_equal.
  assert (WorkflowRoom.users r'
          = (λ p, if decide (UserPresence.userId p = userId)
                  then UserPresence.set_role newRole p else p) <$> WorkflowRoom.users r)
    as Husers.
  { apply map_eq. intros s. rewrite lookup_fmap.
    destruct (WorkflowRoom.users r !! s) as [p |] eqn:Hs; cbn.
    - destruct (decide (UserPresence.userId p = userId)) as [Hu | Hu].
      + destruct (role_change_relabels userId workspaceId newRole st w r s p Hr Hs Hu)
          as (r'' & Hr'' & Hs''). congruence.
      + destruct (Hrel s) as [-> | (p' & Hp' & Hu' & _)]; [done | congruence].
    - destruct (Hrel s) as [-> | (p' & Hp' & _)]; [done | congruence]. }
  unfold relabel_user. rewrite <- Husers. destruct r, r'.
  unfold WorkflowRoom.set_users. cbn in *. congruence.
Qed.

(** X11.  A revocation leaves alone every socket that holds no presence
    of the user: its entries in [socketToWorkflow] and [userSessions]
    and its presence in every room that remains are as before; no room is
    created, and no socket is joined to a socket.io room. *)
Theorem revocation_spares_other_sockets userId workspaceId newRole st s :
  ¬ is_socket_of userId st s →
  let st' := handlePermissionChange userId workspaceId newRole true st in
  socketToWorkflow st' !! s = socketToWorkflow st !! s
  ∧ userSessions st' !! s = userSessions st !! s
  ∧ joined st' ⊆ joined st
  ∧ ∀ w room', workflowRooms st' !! w = Some room' →
      ∃ room, workflowRooms st !! w = Some room
              ∧ WorkflowRoom.users room' !! s = WorkflowRoom.users room !! s.
Proof.
  intros Hother.
  apply (permission_change_preserves_in
           (λ a, socketToWorkflow a !! s = socketToWorkflow st !! s
                 ∧ userSessions a !! s = userSessions st !! s
                 ∧ joined a ⊆ joined st
                 ∧ ∀ w room', workflowRooms a !! w = Some room' →
                     ∃ room, workflowRooms st !! w = Some room
                             ∧ WorkflowRoom.users room' !! s = WorkflowRoom.users room !! s)).
  - repeat split; try done. eauto.
  - intros a k r s' p Hk Hs' Hu (Hi & Hse & Hj & Hr).
    assert (s' ≠ s) as Hne by (intros ->; apply Hother; by exists k, r, p).
    destruct (revoke_step workspaceId newRole k r a s' p)
      as (_ & _ & Hi' & Hse' & _ & _ & _ & _ & Hio).
    rewrite Hi', Hse', !lookup_delete_ne by done.
    split; [done | split; [done | split]].
    + destruct (decide (s' ∈ sockets a)); destruct Hio as [_ ->]; set_solver.
    + intros w room' Hroom'. rewrite revoke_step_unfold in Hroom'.
      apply cleanup_rooms in Hroom' as (r1 & Hr1 & Hcase).
      assert (workflowRooms a !! w = Some r1) as Hr1'.
      { unfold announce_revocation, if_connected in Hr1. by destruct (decide _). }
      destruct (Hr w r1 Hr1') as (r0 & Hr0 & Hs0). exists r0. split; [done |].
      destruct Hcase as [-> | [_ ->]]; [done |]. by rewrite lookup_delete_ne.
  - intros a wid (Hi & Hse & Hj & Hr). unfold broadcastPresenceUpdate.
    destruct (workflowRooms a !! wid); by repeat split.
Qed.
Lemma lookup_foldr_delete {A} (m : gmap string A) keys s :
  foldr delete m keys !! s = if decide (s ∈ keys) then None else m !! s.
Proof.
  induction keys as [| k keys IH]; cbn.
  - by rewrite decide_False by set_solver.
  - destruct (decide (k = s)) as [-> | Hne].
    + rewrite lookup_delete_eq, decide_True by set_solver. done.
    + rewrite lookup_delete_ne, IH by done.
      destruct (decide (s ∈ keys)); [by rewrite decide_True by set_solver |].
      by rewrite decide_False by set_solver.
Qed.

Lemma foldr_delete_commute {A} (m : gmap string A) keys s :
  foldr delete (delete s m) keys = delete s (foldr delete m keys).
Proof.
  apply map_eq. intros i. rewrite lookup_foldr_delete.
  destruct (decide (s = i)) as [-> | Hne].
  - rewrite !lookup_delete_eq. by destruct (decide _).
  - rewrite !lookup_delete_ne, lookup_foldr_delete by done. done.
Qed.

Lemma cleanup_present s k st r :
  workflowRooms st !! k = Some r →
  is_Some (WorkflowRoom.users r !! s) →
  WorkflowRoom.activeConnections r = Z.of_nat (size (WorkflowRoom.users r)) →
  workflowRooms (cleanupUserFromRoom s k st)
  = if decide (delete s (WorkflowRoom.users r) = ∅) then delete k (workflowRooms st)
    else <[ k := WorkflowRoom.mk (WorkflowRoom.workflowId r) (delete s (WorkflowRoom.users r))
                   (WorkflowRoom.lastModified r)
                   (Z.of_nat (size (delete s (WorkflowRoom.users r)))) ]> (workflowRooms st).
Proof.
  intros Hk Hs Hc. unfold cleanupUserFromRoom. rewrite Hk. cbn.
  pose proof (map_size_delete_Some s (WorkflowRoom.users r) Hs) as Hsize.
  assert (size (WorkflowRoom.users r) ≠ 0%nat) as Hne.
  { apply map_size_non_empty_iff. intros He. rewrite He in Hs. by destruct Hs. }
  assert (Z.max 0 (WorkflowRoom.activeConnections r - 1)
          = Z.of_nat (size (delete s (WorkflowRoom.users r)))) as -> by lia.
  destruct (decide (Z.of_nat _ = 0)) as [Hz | Hnz]; cbn.
  - rewrite decide_True; [done |]. apply map_size_empty_iff. lia.
  - rewrite decide_False; [done |]. intros He. apply Hnz. by rewrite He, map_size_empty.
Qed.

Lemma revoke_loop_absent ws nr k room l a :
  WorkflowRoom.workflowId room = k →
  workflowRooms a !! k = None →
  workflowRooms (foldl (permissionStep ws nr true k room) a l) = workflowRooms a.
Proof.
  intros Hid Hk.
  apply (foldl_preserves _ (λ x, workflowRooms x = workflowRooms a)); [done |].
  intros x [s p] _ Hx. rewrite revoke_step_unfold, Hid.
  unfold cleanupUserFromRoom.
  assert (workflowRooms (announce_revocation ws s k x) = workflowRooms x) as Hr.
  { unfold announce_revocation, if_connected. by destruct (decide _). }
  rewrite Hr, Hx, Hk. cbn. by rewrite Hr.
Qed.

Lemma revoke_loop ws nr k room l : ∀ a r,
  WorkflowRoom.workflowId room = k →
  NoDup l.*1 →
  workflowRooms a !! k = Some r →
  (∀ s, s ∈ l.*1 → is_Some (WorkflowRoom.users r !! s)) →
  WorkflowRoom.activeConnections r = Z.of_nat (size (WorkflowRoom.users r)) →
  0 < WorkflowRoom.activeConnections r →
  workflowRooms (foldl (permissionStep ws nr true k room) a l)
  = if decide (foldr delete (WorkflowRoom.users r) l.*1 = ∅) then delete k (workflowRooms a)
    else <[ k := WorkflowRoom.mk (WorkflowRoom.workflowId r)
                   (foldr delete (WorkflowRoom.users r) l.*1) (WorkflowRoom.lastModified r)
                   (Z.of_nat (size (foldr delete (WorkflowRoom.users r) l.*1))) ]>
           (workflowRooms a).
Proof.
  induction l as [| [s q] l IH]; intros a r Hid Hnd Hk Hin Hc Hpos.
  - cbn. rewrite decide_False.
    + symmetry. apply insert_id. rewrite Hk. f_equal. destruct r. cbn in *. congruence.
    + intros He. rewrite He, map_size_empty in Hc. lia.
  - cbn [foldl fmap list_fmap foldr fst]. apply NoDup_cons in Hnd as [Hs Hnd].
    rewrite revoke_step_unfold, Hid.
    set (a0 := announce_revocation ws s k a).
    assert (workflowRooms a0 = workflowRooms a) as Ha0.
    { subst a0. unfold announce_revocation, if_connected. by destruct (decide _). }
    assert (is_Some (WorkflowRoom.users r !! s)) as Hs_in by (apply Hin; left).
    pose proof (cleanup_present s k a0 r ltac:(by rewrite Ha0) Hs_in Hc) as Hclean.
    rewrite Ha0 in Hclean. rewrite <- foldr_delete_commute.
    destruct (decide (delete s (WorkflowRoom.users r) = ∅)) as [He | Hne].
    + rewrite revoke_loop_absent; [| done | by rewrite Hclean, lookup_delete_eq].
      rewrite Hclean, He.
      assert (foldr delete (∅ : gmap string UserPresence.t) l.*1 = ∅) as ->.
      { apply map_eq. intros i. rewrite lookup_foldr_delete, lookup_empty.
        by destruct (decide _). }
      by rewrite decide_True.
    + rewrite (IH _ (WorkflowRoom.mk (WorkflowRoom.workflowId r)
                       (delete s (WorkflowRoom.users r)) (WorkflowRoom.lastModified r)
                       (Z.of_nat (size (delete s (WorkflowRoom.users r)))))); try done.
      * rewrite Hclean. cbn. destruct (decide _).
        -- by rewrite delete_insert_eq.
        -- by rewrite insert_insert_eq.
      * by rewrite Hclean, lookup_insert_eq.
      * intros s' Hs'. cbn. rewrite lookup_delete_ne by (intros ->; done). apply Hin. by right.
      * cbn. apply map_size_non_empty_iff in Hne. lia.
Qed.

Lemma user_keys_removed userId (users : gmap string UserPresence.t) :
  foldr delete users
        (filter (λ sp, UserPresence.userId sp.2 = userId) (map_to_list users)).*1
  = filter (λ sp, UserPresence.userId sp.2 ≠ userId) users.
Proof.
  apply map_eq. intros s. rewrite lookup_foldr_delete, map_lookup_filter.
  destruct (users !! s) as [p |] eqn:Hs; cbn.
  - destruct (decide (UserPresence.userId p = userId)) as [Hu | Hu].
    + rewrite option_guard_False by (cbn; tauto). rewrite decide_True; [done |].
      apply list_elem_of_fmap. exists (s, p). split; [done |].
      apply list_elem_of_filter. split; [done | by apply elem_of_map_to_list].
    + rewrite option_guard_True by done. rewrite decide_False; [done |].
      intros Hin. apply list_elem_of_fmap in Hin as ([s' p'] & -> & Hin).
      apply list_elem_of_filter in Hin as [Hu' Hin]. apply elem_of_map_to_list in Hin.
      cbn in *. congruence.
  - destruct (decide _) as [Hin |]; [| done]. done.
Qed.

Lemma revoke_room_turn userId ws nr a k r :
  workflowRooms a !! k = Some r →
  WorkflowRoom.workflowId r = k →
  WorkflowRoom.activeConnections r = Z.of_nat (size (WorkflowRoom.users r)) →
  0 < WorkflowRoom.activeConnections r →
  let a' := permissionRoomStep userId ws nr true a (k, r) in
  workflowRooms a' !! k = without_user userId r
  ∧ ∀ w, w ≠ k → workflowRooms a' !! w = workflowRooms a !! w.
Proof.
  intros Hk Hid Hc Hpos a'. subst a'. cbn.
  destruct (broadcast_rooms (WorkflowRoom.workflowId r)
              (foldl (permissionStep ws nr true k r) a (userSocketsOf userId r))) as (-> & _).
  rewrite (revoke_loop ws nr k r (userSocketsOf userId r) a r Hid); try done.
  - unfold userSocketsOf. rewrite user_keys_removed. unfold without_user.
    destruct (decide _); cbn.
    + split; [apply lookup_delete_eq |]. intros w Hw. by rewrite lookup_delete_ne.
    + split; [apply lookup_insert_eq |]. intros w Hw. by rewrite lookup_insert_ne.
  - unfold userSocketsOf.
    apply (sublist_NoDup _ (map_to_list (WorkflowRoom.users r)).*1);
      [apply NoDup_fst_map_to_list | apply fmap_sublist, sublist_filter].
  - intros s Hs. apply list_elem_of_fmap in Hs as ([s' p] & -> & Hs).
    apply user_socket_inv in Hs as [Hs _]. eauto.
Qed.

Lemma revoke_rooms_loop userId ws nr L : ∀ a,
  NoDup L.*1 →
  (∀ k r, (k, r) ∈ L →
     workflowRooms a !! k = Some r ∧ WorkflowRoom.workflowId r = k
     ∧ WorkflowRoom.activeConnections r = Z.of_nat (size (WorkflowRoom.users r))
     ∧ 0 < WorkflowRoom.activeConnections r) →
  ∀ w,
    (∀ r, (w, r) ∈ L →
       workflowRooms (foldl (permissionRoomStep userId ws nr true) a L) !! w
       = without_user userId r)
    ∧ (w ∉ L.*1 →
       workflowRooms (foldl (permissionRoomStep userId ws nr true) a L) !! w
       = workflowRooms a !! w).
Proof.
  induction L as [| [k r] L IH]; intros a Hnd Hall w.
  { split; [intros r Hr; by apply elem_of_nil in Hr | done]. }
  cbn [fmap list_fmap fst] in Hnd. apply NoDup_cons in Hnd as [Hk Hnd].
  destruct (Hall k r ltac:(left)) as (Hak & Hid & Hc & Hpos).
  destruct (revoke_room_turn userId ws nr a k r Hak Hid Hc Hpos) as [Hhere Hothers].
  cbn [foldl].
  set (a1 := permissionRoomStep userId ws nr true a (k, r)) in *.
  assert (∀ k' r', (k', r') ∈ L →
            workflowRooms a1 !! k' = Some r' ∧ WorkflowRoom.workflowId r' = k'
            ∧ WorkflowRoom.activeConnections r' = Z.of_nat (size (WorkflowRoom.users r'))
            ∧ 0 < WorkflowRoom.activeConnections r') as Hall1.
  { intros k' r' Hin. destruct (Hall k' r' ltac:(by right)) as (H1 & H2 & H3 & H4).
    rewrite Hothers; [done |]. intros ->. apply Hk.
    apply list_elem_of_fmap. by exists (k, r'). }
  destruct (IH a1 Hnd Hall1 w) as [IH1 IH2]. split.
  - intros r0 Hin. apply elem_of_cons in Hin as [[= -> ->] | Hin]; [| by apply IH1].
    rewrite IH2; [done |]. done.
  - intros Hw. cbn in Hw. apply not_elem_of_cons in Hw as [Hwk Hw].
    rewrite IH2 by done. by apply Hothers.
Qed.

(** X12.  In a registry whose rooms are registered under their own ids
    and whose counters equal the sizes of their member maps and are
    positive, a revocation leaves of every workflow room exactly the
    sockets of the other users, with the counter equal to their number,
    and removes the rooms in which nobody else is left. *)
Theorem revocation_removes_exactly_the_user userId workspaceId newRole st :
  rooms_keyed_by_id st →
  workflow_counts_match st →
  workflowRooms (handlePermissionChange userId workspaceId newRole true st)
  = omap (without_user userId) (workflowRooms st).
Proof.
  intros Hkeys Hcounts.
  assert (handlePermissionChange userId workspaceId newRole true st
          = foldl (permissionRoomStep userId workspaceId newRole true) st
                  (affectedRoomsOf userId st)) as ->.
  { unfold handlePermissionChange. destruct (decide _) as [Hlen |]; [| done].
    by destruct (affectedRoomsOf userId st). }
  apply map_eq. intros w. rewrite lookup_omap.
  pose proof (revoke_rooms_loop userId workspaceId newRole (affectedRoomsOf userId st) st) as Hloop.
  destruct (Hloop ltac:(unfold affectedRoomsOf;
                        apply (sublist_NoDup _ (map_to_list (workflowRooms st)).*1);
                        [apply NoDup_fst_map_to_list | apply fmap_sublist, sublist_filter])
                  ltac:(intros k r Hin; apply affected_room_inv in Hin;
                        destruct (Hcounts k r Hin); pose proof (Hkeys k r Hin); eauto) w) as [Hin Hout].
  destruct (decide (w ∈ (affectedRoomsOf userId st).*1)) as [Haff | Hno].
  - apply list_elem_of_fmap in Haff as ([k r] & -> & Haff). cbn.
    rewrite (affected_room_inv _ _ _ _ Haff). cbn. by apply Hin.
  - rewrite Hout by done. destruct (workflowRooms st !! w) as [r |] eqn:Hw; [| done]. cbn.
    destruct (Hcounts w r Hw) as [Hc Hpos]. unfold without_user.
    assert (filter (λ sp, UserPresence.userId sp.2 ≠ userId) (WorkflowRoom.users r)
            = WorkflowRoom.users r) as ->.
    { apply map_filter_id. intros s p Hs Hu. cbn in Hu. apply Hno.
      apply list_elem_of_fmap. exists (w, r). split; [done |].
      unfold affectedRoomsOf. apply list_elem_of_filter. split.
      - cbn. assert ((s, p) ∈ userSocketsOf userId r) as Hsp.
        { unfold userSocketsOf. apply list_elem_of_filter. split; [done |].
          by apply elem_of_map_to_list. }
        destruct (userSocketsOf userId r); [by apply elem_of_nil in Hsp | cbn; lia].
      - by apply elem_of_map_to_list. }
    rewrite decide_False.
    + f_equal. destruct r. cbn in *. congruence.
    + intros He. rewrite He, map_size_empty in Hc. lia.
Qed.
End PermissionClosed.

Lemma alice_in_W1_rooms w room :
  workflowRooms alice_in_W1 !! w = Some room → w = "W1" ∧ room = W1_room.
Proof.
  intros Hw.
  change (workflowRooms alice_in_W1)
    with (<[ "W1" := W1_room ]> (∅ : gmap string WorkflowRoom.t)) in Hw.
  apply lookup_insert_Some in Hw as [[<- <-] | [_ Hw]]; [done |].
  by rewrite lookup_empty in Hw.
Defined.

Lemma W1_room_users s p :
  WorkflowRoom.users W1_room !! s = Some p → s = "s1" ∧ p = alice_presence.
Proof.
  intros Hs.
  change (WorkflowRoom.users W1_room)
    with ({[ "s1" := alice_presence ]} : gmap string UserPresence.t) in Hs.
  by apply lookup_singleton_Some in Hs as [<- <-].
Defined.

Lemma permission_change_without_sessions_witness :
  RoomManager.handlePermissionChange "carol" "WS1" (Some "read") false alice_in_W1
  = alice_in_W1.
Proof.
  apply (permission_change_without_sessions "carol" "WS1" (Some "read") false alice_in_W1).
  intros w room s p Hw Hs.
  apply alice_in_W1_rooms in Hw as [_ ->]. apply W1_room_users in Hs as [_ ->].
  discriminate.
Defined.

Lemma revocation_spares_other_sockets_witness :
  let st' := RoomManager.handlePermissionChange "carol" "WS1" None true alice_in_W1 in
  socketToWorkflow st' !! "s1" = socketToWorkflow alice_in_W1 !! "s1"
  ∧ userSessions st' !! "s1" = userSessions alice_in_W1 !! "s1"
  ∧ joined st' ⊆ joined alice_in_W1
  ∧ ∀ w room', workflowRooms st' !! w = Some room' →
      ∃ room, workflowRooms alice_in_W1 !! w = Some room
              ∧ WorkflowRoom.users room' !! "s1" = WorkflowRoom.users room !! "s1".
Proof.
  apply (revocation_spares_other_sockets "carol" "WS1" None alice_in_W1 "s1").
  intros (w & room & p & Hw & Hs & Hu).
  apply alice_in_W1_rooms in Hw as [_ ->]. apply W1_room_users in Hs as [_ ->].
  discriminate.
Defined.

Lemma revocation_removes_exactly_the_user_witness :
  workflowRooms (RoomManager.handlePermissionChange "alice" "WS1" None true alice_in_W1)
  = omap (without_user "alice") (workflowRooms alice_in_W1).
Proof.
  apply (revocation_removes_exactly_the_user "alice" "WS1" None alice_in_W1).
  - intros w room Hw. by apply alice_in_W1_rooms in Hw as [-> ->].
  - intros w room Hw. apply alice_in_W1_rooms in Hw as [_ ->]. split; [| done].
    cbn. by rewrite map_size_singleton.
Defined.

(** * Workspace handlers, closer up ([handlers/workspace.ts]) *)

Section WorkspaceSurface.
Variable verify : string → string → AccessOutcome.
Import WorkspaceHandlers RoomManager.

Lemma cleanup_workspace_fields s ws st :
  let st' := cleanupUserFromWorkspaceRoom s ws st in
  workflowRooms st' = workflowRooms st ∧ socketToWorkflow st' = socketToWorkflow st
  ∧ userSessions st' = userSessions st ∧ sockets st' = sockets st
  ∧ joined st' = joined st ∧ sent st' = sent st ∧ clock st' = clock st
  ∧ socketToWorkspace st' = delete s (socketToWorkspace st)
  ∧ (∀ ws', ws' ≠ ws → workspaceRooms st' !! ws' = workspaceRooms st !! ws')
  ∧ (∀ room, workspaceRooms st' !! ws = Some room → s ∉ WorkspaceRoom.users room).
Proof.
  unfold cleanupUserFromWorkspaceRoom.
  destruct (workspaceRooms st !! ws) as [room |] eqn:Hws; [| by repeat split; intros; simplify_eq/=].
  destruct (decide _); cbn; repeat split; try done.
  - intros ws' Hne. by rewrite lookup_delete_ne.
  - intros room'. by rewrite lookup_delete_eq.
  - intros ws' Hne. by rewrite lookup_insert_ne.
  - intros room'. rewrite lookup_insert_eq. intros [= <-]. cbn. set_solver.
Qed.

Lemma granted_role_spec accessRole :
  (if truthy accessRole then default "read" accessRole else "read") = granted_role accessRole.
Proof.
  destruct accessRole as [r |]; [| done]. cbn.
  destruct (decide (r = "")) as [-> | Hr]; [done |].
  by rewrite bool_decide_eq_false_2.
Qed.

(** What the guarded leave of lines 64-68 does. *)
Lemma previous_left socket ws st :
  let st1 :=
    match getWorkspaceIdForSocket (id socket) st with
    | Some currentWorkspaceId =>
        if truthy (Some currentWorkspaceId)
           && negb (bool_decide (currentWorkspaceId = ws))
        then cleanupUserFromWorkspaceRoom (id socket) currentWorkspaceId
               (socket_leave (id socket) currentWorkspaceId st)
        else st
    | None => st
    end in
  workflowRooms st1 = workflowRooms st ∧ socketToWorkflow st1 = socketToWorkflow st
  ∧ userSessions st1 = userSessions st ∧ sockets st1 = sockets st
  ∧ sent st1 = sent st ∧ clock st1 = clock st
  ∧ workspaceRooms st1 !! ws = workspaceRooms st !! ws
  ∧ ((id socket, ws) ∈ joined st → (id socket, ws) ∈ joined st1)
  ∧ (∀ ws0 role0, socketToWorkspace st !! id socket = Some (ws0, role0) →
       ws0 ≠ "" → ws0 ≠ ws →
       (∀ r, (id socket, r) ∈ joined st1 → r ≠ ws0)
       ∧ ∀ room0, workspaceRooms st1 !! ws0 = Some room0 →
                  id socket ∉ WorkspaceRoom.users room0).
Proof.
  unfold getWorkspaceIdForSocket.
  destruct (socketToWorkspace st !! id socket) as [[ws0 role0] |] eqn:Hidx;
    cbn [fmap option_fmap option_map fst]; [| by repeat split].
  unfold truthy.
  destruct (decide (ws0 = "")) as [-> | Hne0].
  { change (bool_decide ("" = "")) with true. cbn [negb andb]. repeat split; try done;
      intros; simplify_eq. }
  rewrite (bool_decide_eq_false_2 (ws0 = "")) by done. cbn [negb andb].
  destruct (decide (ws0 = ws)) as [-> | Hne].
  { rewrite bool_decide_eq_true_2 by done. cbn [negb andb]. repeat split; try done;
      intros; simplify_eq. }
  rewrite bool_decide_eq_false_2 by done. cbn [negb andb].
  pose proof (cleanup_workspace_fields (id socket) ws0
                (socket_leave (id socket) ws0 st)) as Hclean.
  cbv zeta in Hclean.
  destruct Hclean as (H1 & H2 & H3 & H4 & Hj & H5 & H6 & _ & Hothers & Hout).
  rewrite H1, H2, H3, H4, H5, H6, Hj, Hothers by done. cbn.
  split; [done |]. split; [done |]. split; [done |]. split; [done |].
  split; [done |]. split; [done |]. split; [done |]. split.
  - intros Hin. apply elem_of_difference. split; [done |].
    intros Heq%elem_of_singleton. congruence.
  - intros ws1 role1 [= <- <-] _ _. split; [| exact Hout].
    intros r Hin ->. apply elem_of_difference in Hin as [_ Hin]. apply Hin.
    by apply elem_of_singleton.
Qed.

Lemma join_workspace_unfold socket ws st accessRole :
  admitted verify socket ws accessRole →
  ∃ st1,
    (workflowRooms st1 = workflowRooms st ∧ socketToWorkflow st1 = socketToWorkflow st
     ∧ userSessions st1 = userSessions st ∧ sockets st1 = sockets st
     ∧ sent st1 = sent st ∧ clock st1 = clock st
     ∧ workspaceRooms st1 !! ws = workspaceRooms st !! ws
     ∧ ((id socket, ws) ∈ joined st → (id socket, ws) ∈ joined st1)
     ∧ (∀ ws0 role0, socketToWorkspace st !! id socket = Some (ws0, role0) →
          ws0 ≠ "" → ws0 ≠ ws →
          (∀ r, (id socket, r) ∈ joined st1 → r ≠ ws0)
          ∧ ∀ room0, workspaceRooms st1 !! ws0 = Some room0 →
                     id socket ∉ WorkspaceRoom.users room0))
    ∧ (getWorkspaceIdForSocket (id socket) st = None → st1 = st)
    ∧ let room := default (createWorkspaceRoom ws (clock st)) (workspaceRooms st !! ws) in
      let room' :=
        WorkspaceRoom.set_users ({[ id socket ]} ∪ WorkspaceRoom.users room)
          (WorkspaceRoom.set_activeConnections
             (WorkspaceRoom.activeConnections room + 1) room) in
      join_workspace verify socket ws st
      = emit (ToSocket (id socket)) "joined-workspace"
          (JoinedWorkspace ws (granted_role accessRole)
             (WorkspaceRoom.activeConnections room'))
          (setSocketWorkspace (id socket) ws (granted_role accessRole)
             (upd_workspaceRooms (insert ws room')
                (socket_join (id socket) ws st1))).
Proof.
  intros (userId & userName & Hu & Hune & Hn & Hnne & Hv).
  pose proof (previous_left socket ws st) as Hprev. cbv zeta in Hprev.
  unfold join_workspace. rewrite Hu, Hn, Hv.
  rewrite !truthy_Some, granted_role_spec by done.
  cbn [negb orb].
  set (st1 := match getWorkspaceIdForSocket (id socket) st with
              | Some c => _ | None => st end) in *.
  exists st1. split; [exact Hprev |]. split.
  { intros Hnone. subst st1. by rewrite Hnone. }
  destruct Hprev as (_ & _ & _ & _ & _ & Hclock & Hroom & _).
  unfold hasWorkspaceRoom. cbn [workspaceRooms socket_join upd_joined clock].
  rewrite <- Hroom, <- Hclock.
  destruct (workspaceRooms st1 !! ws) as [room |] eqn:Hws.
  - rewrite bool_decide_eq_true_2 by eauto. cbn. rewrite Hws. cbn.
    unfold setSocketWorkspace, upd_workspaceRooms, upd_socketToWorkspace, emit; cbn.
    done.
  - rewrite bool_decide_eq_false_2 by (intros [? ?]; done). cbn.
    rewrite lookup_insert_eq. cbn.
    unfold setSocketWorkspace, upd_workspaceRooms, upd_socketToWorkspace, emit; cbn.
    by rewrite insert_insert_eq.
Qed.

(** X14.  A join that passes authentication and the access check leaves
    the socket a member of the room of the workspace (created if it was
    not there), with the counter one above what it was, maps the socket
    to the workspace with the granted role ([read] when the check names
    none), joins it to the socket.io room, and confirms with one
    [joined-workspace] event that reports that counter; the workflow
    side of the registry and the connections are untouched. *)
Theorem join_workspace_admits socket workspaceId st accessRole :
  admitted verify socket workspaceId accessRole →
  let st' := join_workspace verify socket workspaceId st in
  let before := workspaceRooms st !! workspaceId in
  ∃ room',
    workspaceRooms st' !! workspaceId = Some room'
    ∧ WorkspaceRoom.users room'
      = {[ id socket ]} ∪ default ∅ (WorkspaceRoom.users <$> before)
    ∧ WorkspaceRoom.activeConnections room'
      = default 0 (WorkspaceRoom.activeConnections <$> before) + 1
    ∧ socketToWorkspace st' !! id socket = Some (workspaceId, granted_role accessRole)
    ∧ (id socket, workspaceId) ∈ joined st'
    ∧ sent st' = sent st ++ [ joined_notice (id socket) workspaceId (granted_role accessRole)
                                (WorkspaceRoom.activeConnections room') ]
    ∧ workflowRooms st' = workflowRooms st
    ∧ socketToWorkflow st' = socketToWorkflow st
    ∧ userSessions st' = userSessions st
    ∧ sockets st' = sockets st.
Proof.
  intros Hadm st' before. subst st' before.
  destruct (join_workspace_unfold socket workspaceId st accessRole Hadm)
    as (st1 & (Hwf & Hidx & Hus & Hso & Hsent & _) & _ & ->).
  cbn. rewrite !lookup_insert_eq. eexists. split; [done |]. cbn.
  rewrite Hwf, Hidx, Hus, Hso, Hsent.
  destruct (workspaceRooms st !! workspaceId); cbn; repeat split; try done; set_solver.
Qed.

(** X15.  A socket that is recorded in one workspace and is admitted to
    another is moved: it is no longer a member of the room of the
    previous workspace nor joined to its socket.io room, and the index
    maps it to the new workspace. *)
Theorem join_workspace_leaves_previous socket workspaceId st accessRole previous role0 :
  admitted verify socket workspaceId accessRole →
  socketToWorkspace st !! id socket = Some (previous, role0) →
  previous ≠ "" → previous ≠ workspaceId →
  let st' := join_workspace verify socket workspaceId st in
  ((id socket, previous) ∉ joined st')
  ∧ (∀ room, workspaceRooms st' !! previous = Some room →
             id socket ∉ WorkspaceRoom.users room)
  ∧ getWorkspaceIdForSocket (id socket) st' = Some workspaceId.
Proof.
  intros Hadm Hidx Hne0 Hne st'. subst st'.
  destruct (join_workspace_unfold socket workspaceId st accessRole Hadm)
    as (st1 & (_ & _ & _ & _ & _ & _ & _ & _ & Hprev) & _ & ->).
  destruct (Hprev previous role0 Hidx Hne0 Hne) as [Hj Hroom].
  unfold getWorkspaceIdForSocket. cbn. rewrite lookup_insert_eq, lookup_insert_ne by done.
  split; [| split; [exact Hroom | done]].
  intros Hin. apply elem_of_union in Hin as [Hin%elem_of_singleton | Hin].
  - congruence.
  - by apply (Hj previous).
Qed.

(** X16.  Whether or not the socket was a member, a leave request ends
    with the socket out of the room it names (if that room still
    exists), out of the socket.io room, and without an entry in
    [socketToWorkspace]; one [left-workspace] event is sent to it; the
    other workspace rooms, the index entries of other sockets and the
    workflow side are unchanged. *)
Theorem leave_workspace_clears socket workspaceId st :
  let st' := leave_workspace socket workspaceId st in
  socketToWorkspace st' !! id socket = None
  ∧ ((id socket, workspaceId) ∉ joined st')
  ∧ (∀ room, workspaceRooms st' !! workspaceId = Some room →
             id socket ∉ WorkspaceRoom.users room)
  ∧ sent st' = sent st ++ [ left_notice (id socket) workspaceId ]
  ∧ (∀ ws, ws ≠ workspaceId → workspaceRooms st' !! ws = workspaceRooms st !! ws)
  ∧ (∀ s, s ≠ id socket → socketToWorkspace st' !! s = socketToWorkspace st !! s)
  ∧ workflowRooms st' = workflowRooms st
  ∧ socketToWorkflow st' = socketToWorkflow st
  ∧ userSessions st' = userSessions st
  ∧ sockets st' = sockets st.
Proof.
  intros st'. subst st'. unfold leave_workspace.
  pose proof (cleanup_workspace_fields (id socket) workspaceId
                (socket_leave (id socket) workspaceId st)) as Hclean.
  cbv zeta in Hclean.
  destruct Hclean as (Hwf & Hidx & Hus & Hso & Hj & Hsent & _ & Hmap & Hothers & Hout).
  cbn [emit workflowRooms workspaceRooms socketToWorkflow socketToWorkspace userSessions
       sockets joined sent clock].
  rewrite Hwf, Hidx, Hus, Hso, Hj, Hsent, Hmap. cbn.
  repeat split; try done.
  - apply lookup_delete_eq.
  - intros Hin. apply elem_of_difference in Hin as [_ Hin]. apply Hin.
    by apply elem_of_singleton.
  - intros s Hs. by rewrite lookup_delete_ne.
Qed.

(** X17.  Round trip.  In a registry whose workspace side is consistent,
    a socket that is in no workspace and is admitted to one, and then
    leaves it, leaves every map of the registry and the adapter's rooms
    exactly as they were; the only trace is the two confirmations. *)
Theorem join_then_leave_restores socket workspaceId st accessRole :
  admitted verify socket workspaceId accessRole →
  workspace_registry_ok st →
  getWorkspaceIdForSocket (id socket) st = None →
  (id socket, workspaceId) ∉ joined st →
  let st' := leave_workspace socket workspaceId
               (join_workspace verify socket workspaceId st) in
  same_rooms st st' ∧ sockets st' = sockets st
  ∧ ∃ activeUsers,
      sent st' = sent st ++ [ joined_notice (id socket) workspaceId (granted_role accessRole)
                                activeUsers;
                              left_notice (id socket) workspaceId ].
Proof.
  intros Hadm (_ & Hcount & Hindex) Hnone Hnj st'. subst st'.
  destruct (join_workspace_unfold socket workspaceId st accessRole Hadm)
    as (st1 & _ & Hst1 & ->).
  rewrite (Hst1 Hnone). clear Hst1 st1.
  assert (socketToWorkspace st !! id socket = None) as Hidx.
  { unfold getWorkspaceIdForSocket in Hnone.
    by destruct (socketToWorkspace st !! id socket). }
  unfold leave_workspace, cleanupUserFromWorkspaceRoom. cbn.
  rewrite lookup_insert_eq. cbn.
  assert (∀ X : gset string, id socket ∉ X → ({[ id socket ]} ∪ X) ∖ {[ id socket ]} = X)
    as Hset by (intros X HX; set_solver).
  assert (∀ J : gset (string * string), (id socket, workspaceId) ∉ J →
            ({[ (id socket, workspaceId) ]} ∪ J) ∖ {[ (id socket, workspaceId) ]} = J)
    as Hjoined by (intros J HJ; set_solver).
  destruct (workspaceRooms st !! workspaceId) as [room |] eqn:Hws; cbn.
  - destruct (Hcount _ _ Hws) as [Hc Hpos].
    assert (id socket ∉ WorkspaceRoom.users room) as Hout.
    { intros Hin. assert (getWorkspaceIdForSocket (id socket) st = Some workspaceId) as Habs
        by (apply Hindex; eauto). congruence. }
    rewrite decide_False by lia. unfold same_rooms. cbn.
    rewrite insert_insert_eq, delete_insert_id, Hset, Hjoined by done.
    assert (Z.max 0 (WorkspaceRoom.activeConnections room + 1 - 1)
            = WorkspaceRoom.activeConnections room) as -> by lia.
    repeat split; try done; [| by eexists; rewrite <- app_assoc].
    apply insert_id. rewrite Hws. by destruct room.
  - change (Z.max 0 (0 + 1 - 1)) with 0. rewrite decide_True by done.
    unfold same_rooms. cbn. rewrite !delete_insert_id, Hjoined by done.
    repeat split; try done. by eexists; rewrite <- app_assoc.
Qed.
End WorkspaceSurface.

Lemma alice_is_admitted workspaceId :
  admitted grant_all alice_socket workspaceId (Some "edit").
Proof. exists "alice", "Alice". by repeat split. Defined.

Lemma join_workspace_admits_witness :
  let st' := WorkspaceHandlers.join_workspace grant_all alice_socket "WS1" (initial 0) in
  let before := workspaceRooms (initial 0) !! "WS1" in
  ∃ room',
    workspaceRooms st' !! "WS1" = Some room'
    ∧ WorkspaceRoom.users room'
      = {[ id alice_socket ]} ∪ default ∅ (WorkspaceRoom.users <$> before)
    ∧ WorkspaceRoom.activeConnections room'
      = default 0 (WorkspaceRoom.activeConnections <$> before) + 1
    ∧ socketToWorkspace st' !! id alice_socket = Some ("WS1", granted_role (Some "edit"))
    ∧ (id alice_socket, "WS1") ∈ joined st'
    ∧ sent st' = sent (initial 0)
                 ++ [ joined_notice (id alice_socket) "WS1" (granted_role (Some "edit"))
                        (WorkspaceRoom.activeConnections room') ]
    ∧ workflowRooms st' = workflowRooms (initial 0)
    ∧ socketToWorkflow st' = socketToWorkflow (initial 0)
    ∧ userSessions st' = userSessions (initial 0)
    ∧ sockets st' = sockets (initial 0).
Proof.
  exact (join_workspace_admits grant_all alice_socket "WS1" (initial 0) (Some "edit")
           (alice_is_admitted "WS1")).
Defined.

Lemma join_workspace_leaves_previous_witness :
  let st' := WorkspaceHandlers.join_workspace grant_all alice_socket "WS2" alice_in_WS1 in
  ((id alice_socket, "WS1") ∉ joined st')
  ∧ (∀ room, workspaceRooms st' !! "WS1" = Some room →
             id alice_socket ∉ WorkspaceRoom.users room)
  ∧ RoomManager.getWorkspaceIdForSocket (id alice_socket) st' = Some "WS2".
Proof.
  apply (join_workspace_leaves_previous grant_all alice_socket "WS2" alice_in_WS1
           (Some "edit") "WS1" "edit" (alice_is_admitted "WS2")).
  - reflexivity.
  - discriminate.
  - discriminate.
Defined.

Lemma join_then_leave_restores_witness :
  let st' := WorkspaceHandlers.leave_workspace alice_socket "WS1"
               (WorkspaceHandlers.join_workspace grant_all alice_socket "WS1" (initial 0)) in
  same_rooms (initial 0) st' ∧ sockets st' = sockets (initial 0)
  ∧ ∃ activeUsers,
      sent st' = sent (initial 0)
                 ++ [ joined_notice (id alice_socket) "WS1" (granted_role (Some "edit"))
                        activeUsers;
                      left_notice (id alice_socket) "WS1" ].
Proof.
  apply (join_then_leave_restores grant_all alice_socket "WS1" (initial 0) (Some "edit")
           (alice_is_admitted "WS1") (initial_workspace_registry_ok 0)).
  - reflexivity.
  - apply not_elem_of_empty.
Defined.

Lemma disciplined_requests_keep_registry_ok_witness :
  workspace_registry_ok (WorkspaceHandlers.run grant_all (initial 0) in_and_out).
Proof.
  apply (disciplined_requests_keep_registry_ok grant_all (initial 0) in_and_out
           (initial_workspace_registry_ok 0)).
  split; [split; [discriminate | discriminate] |].
  split; [reflexivity | exact I].
Defined.

(** * Responses of the ingress ([routes/http.ts]) *)

Section HttpResponses.
Variable JSON_parse : string → option JsValue.

Lemma post_outcome failure dispatch req st st' resp :
  Http.post JSON_parse failure dispatch req st = Some (st', resp) →
  (st' = st ∧ resp = Http.respond 500 (Http.Error failure))
  ∨ resp = Http.respond 200 Http.Success.
Proof.
  unfold Http.post. intros H.
  destruct (JSON_parse (Http.body req)) as [v |]; [| left; by simplify_eq].
  destruct (Http.destructure v) as [f |]; [| left; by simplify_eq].
  destruct (dispatch f) as [op |]; [| done]. right. by simplify_eq/=.
Qed.

(** X18.  Every answer of the HTTP handler is JSON with status 200, 404 or
    500, and only a 200 to a POST can have changed the registry: an
    answer other than 200, and any answer to a request that is not a
    POST, leaves the state as it was. *)
Theorem only_success_changes_registry req st st' resp :
  Http.createHttpHandler JSON_parse req st = Some (st', resp) →
  Http.status resp ∈ [200; 404; 500]
  ∧ Http.contentType resp = "application/json"
  ∧ (Http.status resp ≠ 200 → st' = st)
  ∧ (Http.method req ≠ "POST" → st' = st).
Proof.
  unfold Http.createHttpHandler. intros H.
  destruct (Http.route "GET" "/health" req) eqn:Hhealth.
  { simplify_eq. cbn. repeat split; try done. set_solver. }
  repeat match type of H with
    | (if Http.route ?m ?u req then _ else _) = _ =>
        destruct (Http.route m u req) eqn:?Hr
    end.
  all: try (apply post_outcome in H as [[-> ->] | ->]).
  all: try (injection H as <- <-).
  all: cbn; repeat split; try done; try set_solver.
  all: intros Hm;
    match goal with
    | Hr : Http.route "POST" _ _ = true |- _ => apply route_spec in Hr as [? _]; done
    end.
Qed.
End HttpResponses.

Lemma only_success_changes_registry_witness :
  Http.status (Http.respond 500 (Http.Error "Failed to process deletion notification"))
    ∈ [200; 404; 500]
  ∧ Http.contentType (Http.respond 500 (Http.Error "Failed to process deletion notification"))
    = "application/json"
  ∧ (Http.status (Http.respond 500 (Http.Error "Failed to process deletion notification"))
     ≠ 200 → alice_in_W1 = alice_in_W1)
  ∧ (Http.method garbled_deletion ≠ "POST" → alice_in_W1 = alice_in_W1).
Proof.
  apply (only_success_changes_registry (sample_parse (NWorkflowDeleted "W1"))
           garbled_deletion alice_in_W1 alice_in_W1
           (Http.respond 500 (Http.Error "Failed to process deletion notification"))).
  reflexivity.
Defined.

(** * What the notifier does, step by step
      ([lib/realtime/notify-workspace-change.ts]) *)

Section NotifierTrace.
Import Notifier.

Ltac run_notifier :=
  unfold notifyWorkspaceResourceChange, fetch, try_finally, try_catch, perform;
  unfold mbind, mret, Eff_bind, Eff_ret, bind, ret, raise; cbn.

Lemma base_url_spec socketServerUrl :
  (if truthy socketServerUrl then default "" socketServerUrl else "http://localhost:3002")
  = base_url socketServerUrl.
Proof.
  destruct socketServerUrl as [u |]; [| done]. cbn.
  destruct (decide (u = "")) as [-> | Hu]; [done |]. by rewrite bool_decide_eq_false_2.
Qed.

(** X19.  For a workspace id that is not empty the notifier does exactly
    four things, in this order: it arms the 5000 ms timer, posts the
    workspace, resource type, operation and data it was given to
    [/api/workspace-resource-changed] under [SOCKET_SERVER_URL] (under
    [http://localhost:3002] when that is unset or empty), writes one log
    line, and clears the timer.  The line is at level [info] exactly
    when the request was answered [ok] within the 5000 ms, and a warning
    otherwise. *)
Theorem notifier_trace socketServerUrl net workspaceId resourceType operation data resourceId :
  workspaceId ≠ "" →
  ∃ level text,
    (call socketServerUrl net workspaceId resourceType operation data resourceId).2
    = [ SetTimeout 5000;
        Fetch (base_url socketServerUrl +:+ "/api/workspace-resource-changed") "POST"
              workspaceId resourceType operation data;
        Log level text;
        ClearTimeout ]
    ∧ (level = info ↔ answered_ok net).
Proof.
  intros Hws. unfold call, notifyWorkspaceResourceChange, answered_ok.
  rewrite base_url_spec.
  unfold truthy. rewrite (bool_decide_eq_false_2 (workspaceId = "")) by done. cbn [negb].
  destruct net as [[t |] settled]; run_notifier;
    [ destruct (decide (t < timeoutMs)) as [Hlt | Hge];
      [ destruct settled as [[|] |] |] |];
    cbn; unfold timeoutMs in *.
  all: do 2 eexists; (split; [reflexivity |]).
  all: split; [intros ? | intros (t' & ? & ? & ?)]; simplify_eq/=; try done; try lia.
  eauto.
Qed.
End NotifierTrace.

Lemma notifier_trace_witness :
  ∃ level text,
    (Notifier.call None quick_network "WS1" workflows create JNull "W1").2
    = [ Notifier.SetTimeout 5000;
        Notifier.Fetch (base_url None +:+ "/api/workspace-resource-changed") "POST"
                       "WS1" workflows create JNull;
        Notifier.Log level text;
        Notifier.ClearTimeout ]
    ∧ (level = Notifier.info ↔ answered_ok quick_network).
Proof.
  apply (notifier_trace None quick_network "WS1" workflows create JNull "W1").
  discriminate.
Defined.

(** * The client ([contexts/socket-context.tsx] and the hook
      [useCollaborativeWorkspace]) *)

Section ClientSide.
Import SocketContext CollaborativeWorkspace.

(** X20.  The client listens for exactly the events that the fan-out of
    workspace resource changes can emit: every name that [eventMap]
    produces for an operation and a resource type has a listener in
    [socket-context.tsx], and every workspace listener is for a name
    that [eventMap] produces. *)
Theorem every_fanout_event_is_listened_for ev :
  ev ∈ workspaceListeners ↔ ∃ operation resourceType, RoomManager.eventMap operation resourceType = ev.
Proof.
  split.
  - unfold workspaceListeners. intros Hin.
    repeat (apply elem_of_cons in Hin as [-> | Hin]);
      [.. | by apply elem_of_nil in Hin].
    + by exists create, env.
    + by exists create, tools.
    + by exists update, tools.
    + by exists delete_, tools.
    + by exists create, folders.
    + by exists update, folders.
    + by exists delete_, folders.
    + by exists create, mcp.
    + by exists create, workflows.
    + by exists update, workflows.
    + by exists delete_, workflows.
  - intros (op & rt & <-). destruct op, rt; vm_compute; set_solver.
Qed.

(** X21.  Over any run of calls of [emitCursorUpdate] on a connected
    socket, an emission that carries a position comes at least 33 ms
    after the emission before it (after the initial [lastCursorEmit] for
    the first), whereas a call that clears the cursor is always emitted,
    however soon it comes. *)
Theorem cursor_updates_are_throttled calls lastCursorEmit :
  spaced lastCursorEmit (cursorRun calls lastCursorEmit)
  ∧ ∀ now, (now, None) ∈ calls → (now, None) ∈ cursorRun calls lastCursorEmit.
Proof.
  revert lastCursorEmit. induction calls as [| [now cursor] calls IH]; intros last.
  { split; [done |]. intros now Hin. by apply elem_of_nil in Hin. }
  cbn. destruct cursor as [c |]; cbn.
  - destruct (decide (33 ≤ now - last)) as [Hgap | Hsoon]; cbn.
    + destruct (IH now) as [Hs Hn]. split; [done |].
      intros t Hin. apply elem_of_cons in Hin as [[=] | Hin]. right. by apply Hn.
    + destruct (IH last) as [Hs Hn]. split; [done |].
      intros t Hin. apply elem_of_cons in Hin as [[=] | Hin]. by apply Hn.
  - destruct (IH now) as [Hs Hn]. split.
    + split; [by intros [? [=]] | done].
    + intros t Hin. apply elem_of_cons in Hin as [[= ->] | Hin]; [left | right; by apply Hn].
Qed.


Lemma handler_accepts workspaceId resourceName clear data c :
  workspaceId ≠ "" →
  update_workspaceId data = workspaceId →
  isApplying c = false →
  let c' := createResourceUpdateHandler (Some workspaceId) resourceName clear data c in
  isApplying c' = true
  ∧ ∃ cleared,
      actions c' = actions c ++ cleared ++ [ FetchStarted resourceName workspaceId ]
      ∧ Forall (λ a, ∃ w, a = CacheCleared resourceName w) cleared.
Proof.
  intros Hws Hdata Hc c'. subst c'. unfold createResourceUpdateHandler.
  rewrite truthy_Some, bool_decide_eq_true_2, Hc by done. cbn.
  split; [done |]. eexists. split; [done |]. destruct clear; repeat constructor; eauto.
Qed.

(** A handler of the hook acts on an event exactly when the hook has a
    workspace id that is not empty, the event is about that workspace,
    and no refetch is in flight; in every other case it returns the
    client state it was given. *)
Lemma update_is_handled_iff workspaceId resourceName clear data c :
  createResourceUpdateHandler workspaceId resourceName clear data c ≠ c
  ↔ ∃ ws, workspaceId = Some ws ∧ ws ≠ "" ∧ update_workspaceId data = ws
          ∧ isApplying c = false.
Proof.
  split.
  - unfold createResourceUpdateHandler. destruct workspaceId as [ws |]; [| done].
    intros Hne. exists ws. split; [done |].
    destruct (decide (ws = "")) as [-> | Hws]; [done |].
    rewrite truthy_Some in Hne by done.
    destruct (decide (update_workspaceId data = ws)) as [Hd | Hd].
    2:{ by rewrite (bool_decide_eq_false_2 _ Hd) in Hne. }
    destruct (isApplying c) eqn:Hc; [| done].
    by rewrite (bool_decide_eq_true_2 _ Hd) in Hne.
  - intros (ws & -> & Hws & Hd & Hc) Heq.
    destruct (handler_accepts ws resourceName clear data c Hws Hd Hc) as [Hbusy _].
    rewrite Heq in Hbusy. congruence.
Qed.

End ClientSide.


(** * The client's throttle of position updates ([emitWorkflowOperation]) *)

Section Throttle.
Import PositionThrottle.

Lemma step_keeps_parked_iff_armed t e : parked_iff_armed t → parked_iff_armed (step t e).
Proof.
  intros Hinv. destruct e as [connected operation target payload operationId now | b | connected];
    cbn.
  - unfold emitWorkflowOperation.
    destruct connected; cbn [negb]; [| done].
    destruct (_ && _); [| done].
    destruct payload as [p |]; [| done].
    destruct (truthy (payload_id p)); [| done].
    destruct (default true (payload_commit p)); cbn.
    + intros b. cbn. destruct (decide (b = default "" (payload_id p))) as [-> | Hne].
      * rewrite lookup_delete_eq. split; [by intros [? ?] |].
        destruct (decide _); set_solver.
      * rewrite lookup_delete_ne by done. rewrite (Hinv b).
        destruct (decide _); set_solver.
    + intros b. cbn. destruct (decide (b = default "" (payload_id p))) as [-> | Hne].
      * rewrite lookup_insert_eq. split; [| eauto]. intros _.
        destruct (decide _); set_solver.
      * rewrite lookup_insert_ne by done. rewrite (Hinv b).
        destruct (decide _); set_solver.
  - unfold positionTimerFires. destruct (decide _) as [Harmed |]; [| done].
    apply Hinv in Harmed as [latest Hlatest]. rewrite Hlatest. cbn.
    intros b'. cbn. destruct (decide (b' = b)) as [-> | Hne].
    + rewrite lookup_delete_eq. split; [by intros [? ?] | set_solver].
    + rewrite lookup_delete_ne by done. rewrite (Hinv b'). set_solver.
  - destruct connected; cbn; [| done]. intros b. cbn. rewrite lookup_empty.
    split; [by intros [? ?] | set_solver].
Qed.

(** X23.  Whatever calls, timers and departures follow one another, a
    position is parked for a block exactly when a timer is armed for that
    block: no parked position is left without the timer that will send
    it, and no timer fires for nothing. *)
Theorem parked_updates_have_timers t events :
  parked_iff_armed t → parked_iff_armed (run t events).
Proof.
  intros Hinv. unfold run. apply (foldl_preserves _ parked_iff_armed); [done |].
  intros a e _. apply step_keeps_parked_iff_armed.
Qed.

Lemma drag_parks b m t :
  b ≠ "" →
  step t (dragged b m)
  = {| pendingPositionUpdates := <[ b := drag_message b m ]> (pendingPositionUpdates t);
       positionUpdateTimeouts :=
         if decide (b ∈ positionUpdateTimeouts t) then positionUpdateTimeouts t
         else {[ b ]} ∪ positionUpdateTimeouts t;
       emitted := emitted t |}.
Proof.
  intros Hb. cbn. unfold emitWorkflowOperation, drag. cbn.
  by rewrite (bool_decide_eq_false_2 (b = "")) by done.
Qed.

(** X24.  While a block is dragged nothing is sent; when the timer armed
    by the first move fires, the position of the last move, and no
    other, is sent, and the throttle is as it was before the drag. *)
Theorem last_position_wins b t moves m :
  b ≠ "" →
  pendingPositionUpdates t !! b = None →
  b ∉ positionUpdateTimeouts t →
  let t' := run t (dragged b <$> (moves ++ [ m ])) in
  emitted t' = emitted t
  ∧ positionTimerFires b t'
    = {| pendingPositionUpdates := pendingPositionUpdates t;
         positionUpdateTimeouts := positionUpdateTimeouts t;
         emitted := emitted t ++ [ drag_message b m ] |}.
Proof.
  intros Hb Hnone Hunarmed t'. subst t'.
  assert (∀ ms a,
            emitted a = emitted t →
            delete b (pendingPositionUpdates a) = pendingPositionUpdates t →
            positionUpdateTimeouts a ∖ {[ b ]} = positionUpdateTimeouts t →
            let a' := run a (dragged b <$> ms) in
            emitted a' = emitted t
            ∧ delete b (pendingPositionUpdates a') = pendingPositionUpdates t
            ∧ positionUpdateTimeouts a' ∖ {[ b ]} = positionUpdateTimeouts t
            ∧ (ms ≠ [] → b ∈ positionUpdateTimeouts a'
                         ∧ ∃ m', last ms = Some m'
                                 ∧ pendingPositionUpdates a' !! b = Some (drag_message b m')))
    as Hloop.
  { induction ms as [| m0 ms IH]; intros a He Hp Ht; [done |].
    cbn [fmap list_fmap run foldl]. rewrite drag_parks by done.
    set (a1 := {| pendingPositionUpdates := _ |}).
    assert (emitted a1 = emitted t) as He1 by done.
    assert (delete b (pendingPositionUpdates a1) = pendingPositionUpdates t) as Hp1.
    { subst a1. cbn. by rewrite delete_insert_eq. }
    assert (positionUpdateTimeouts a1 ∖ {[ b ]} = positionUpdateTimeouts t) as Ht1.
    { subst a1. cbn. destruct (decide _); [done |]. rewrite <- Ht. set_solver. }
    destruct (IH a1 He1 Hp1 Ht1) as (H1 & H2 & H3 & H4). fold (run a1 (dragged b <$> ms)).
    split; [done |]. split; [done |]. split; [done |]. intros _.
    destruct ms as [| m1 ms'].
    - cbn. split.
      + subst a1. cbn. destruct (decide _); set_solver.
      + exists m0. split; [done |]. subst a1. cbn. apply lookup_insert_eq.
    - destruct (H4 ltac:(done)) as (Harmed & m' & Hlast & Hpending).
      split; [done |]. exists m'. split; [| done]. by rewrite last_cons, Hlast. }
  destruct (Hloop (moves ++ [ m ]) t eq_refl) as (He & Hp & Ht & Hlast).
  { by apply delete_id. }
  { set_solver. }
  split; [done |].
  destruct Hlast as (Harmed & m' & Hm' & Hpending); [by destruct moves |].
  rewrite last_snoc in Hm'. injection Hm' as <-.
  unfold positionTimerFires. rewrite decide_True by done. rewrite Hpending. cbn.
  by rewrite He, Hp, Ht.
Qed.

(** X25.  A committed move of a block (one whose payload does not say
    [commit: false]) is sent at once, and the position parked for the
    block and its timer are dropped, so that no older position follows
    it; what is parked for other blocks stays. *)
Theorem commit_discards_parked_position p operationId now t b :
  payload_id p = Some b → b ≠ "" → payload_commit p ≠ Some false →
  ∃ t',
    emitWorkflowOperation true "update-position" "block" (Some p) operationId now t = Some t'
    ∧ emitted t'
      = emitted t ++ [ {| op_operation := "update-position"; op_target := "block";
                          op_payload := Some p; op_timestamp := now;
                          op_operationId := operationId |} ]
    ∧ pendingPositionUpdates t' !! b = None
    ∧ (b ∉ positionUpdateTimeouts t')
    ∧ positionTimerFires b t' = t'
    ∧ ∀ b', b' ≠ b →
        pendingPositionUpdates t' !! b' = pendingPositionUpdates t !! b'
        ∧ (b' ∈ positionUpdateTimeouts t' ↔ b' ∈ positionUpdateTimeouts t).
Proof.
  intros Hid Hb Hcommit. unfold emitWorkflowOperation. cbn. rewrite Hid. cbn.
  rewrite (bool_decide_eq_false_2 (b = "")) by done. cbn.
  assert (default true (payload_commit p) = true) as ->.
  { destruct (payload_commit p) as [[|] |]; done. }
  eexists. split; [done |]. cbn.
  assert (b ∉ (if decide (b ∈ positionUpdateTimeouts t)
               then positionUpdateTimeouts t ∖ {[ b ]} else positionUpdateTimeouts t))
    as Hout by (destruct (decide _); set_solver).
  split; [done |]. split; [apply lookup_delete_eq |]. split; [done |]. split.
  - unfold positionTimerFires. cbn. by rewrite decide_False.
  - intros b' Hne. rewrite lookup_delete_ne by done. split; [done |].
    destruct (decide _); set_solver.
Qed.

(** X26.  [emitWorkflowOperation] throws exactly when the socket is in a
    workflow, the operation is [update-position] on a [block], and the
    payload is [null] or [undefined]; for every other operation a
    missing payload is sent as it is. *)
Theorem emit_throws_iff connected operation target payload operationId now t :
  emitWorkflowOperation connected operation target payload operationId now t = None
  ↔ connected = true ∧ operation = "update-position" ∧ target = "block" ∧ payload = None.
Proof.
  unfold emitWorkflowOperation. split.
  - destruct connected; cbn [negb]; [| done].
    destruct (decide (operation = "update-position")) as [-> | Ho].
    2:{ by rewrite (bool_decide_eq_false_2 _ Ho). }
    destruct (decide (target = "block")) as [-> | Ht].
    2:{ rewrite (bool_decide_eq_false_2 _ Ht), andb_false_r. done. }
    destruct payload as [p |]; [| done]. cbn.
    destruct (truthy _); [destruct (default _ _) |]; done.
  - by intros (-> & -> & -> & ->).
Qed.
End Throttle.

Lemma idle_parked_iff_armed : parked_iff_armed PositionThrottle.idle.
Proof.
  intros b. cbn. rewrite lookup_empty. split; [by intros [? ?] |].
  intros Hb. by apply not_elem_of_empty in Hb.
Defined.

Lemma parked_updates_have_timers_witness :
  parked_iff_armed (PositionThrottle.run PositionThrottle.idle drag_and_drop).
Proof.
  exact (parked_updates_have_timers PositionThrottle.idle drag_and_drop
           idle_parked_iff_armed).
Defined.

Lemma last_position_wins_witness :
  let t' := PositionThrottle.run PositionThrottle.idle
              (dragged "b1" <$> ([ ([], None, 10) ] ++ [ ([], None, 20) ])) in
  PositionThrottle.emitted t' = PositionThrottle.emitted PositionThrottle.idle
  ∧ PositionThrottle.positionTimerFires "b1" t'
    = {| PositionThrottle.pendingPositionUpdates :=
           PositionThrottle.pendingPositionUpdates PositionThrottle.idle;
         PositionThrottle.positionUpdateTimeouts :=
           PositionThrottle.positionUpdateTimeouts PositionThrottle.idle;
         PositionThrottle.emitted :=
           PositionThrottle.emitted PositionThrottle.idle
           ++ [ drag_message "b1" ([], None, 20) ] |}.
Proof.
  apply (last_position_wins "b1" PositionThrottle.idle [ ([], None, 10) ] ([], None, 20)).
  - discriminate.
  - apply lookup_empty.
  - apply not_elem_of_empty.
Defined.

Lemma commit_discards_parked_position_witness :
  ∃ t',
    PositionThrottle.emitWorkflowOperation true "update-position" "block" (Some drop_b1)
      None 30 PositionThrottle.idle = Some t'
    ∧ PositionThrottle.emitted t'
      = PositionThrottle.emitted PositionThrottle.idle
        ++ [ {| PositionThrottle.op_operation := "update-position";
                PositionThrottle.op_target := "block";
                PositionThrottle.op_payload := Some drop_b1;
                PositionThrottle.op_timestamp := 30;
                PositionThrottle.op_operationId := None |} ]
    ∧ PositionThrottle.pendingPositionUpdates t' !! "b1" = None
    ∧ ("b1" ∉ PositionThrottle.positionUpdateTimeouts t')
    ∧ PositionThrottle.positionTimerFires "b1" t' = t'
    ∧ ∀ b', b' ≠ "b1" →
        PositionThrottle.pendingPositionUpdates t' !! b'
        = PositionThrottle.pendingPositionUpdates PositionThrottle.idle !! b'
        ∧ (b' ∈ PositionThrottle.positionUpdateTimeouts t'
           ↔ b' ∈ PositionThrottle.positionUpdateTimeouts PositionThrottle.idle).
Proof.
  apply (commit_discards_parked_position drop_b1 None 30 PositionThrottle.idle "b1").
  - reflexivity.
  - discriminate.
  - discriminate.
Defined.

(** * The workspace initializer's retries ([initializeWorkspace]) *)

Section Initializer.
Import WorkspaceInitializer.

Lemma attempt_unfold fuel answers workspaceId retryAttempt :
  workspaceId ≠ "" →
  initializeWorkspace (S fuel) answers workspaceId false retryAttempt
  = let a := answers retryAttempt in
    let started :=
      [ SetState {| isInitializing := true; isReady := false; error := None;
                    retryCount := retryAttempt |};
        Load "loadWorkflows" workspaceId; Load "fetchFolders" workspaceId ] in
    if critical_ok a then
      Some (started ++ secondaryLoads workspaceId a ++ [ SetState (settled a retryAttempt) ])
    else if decide (retryAttempt < 2) then
      rest ← initializeWorkspace fuel answers workspaceId false (retryAttempt + 1);
      Some (started ++ [ SetTimeout (1000 * (retryAttempt + 1)) ] ++ rest)
    else Some (started ++ [ SetState (settled a retryAttempt) ]).
Proof.
  intros Hws. cbn [initializeWorkspace]. rewrite truthy_Some by done. cbn [negb orb].
  unfold settled, critical_ok, failure_message, MAX_RETRIES, RETRY_DELAY.
  destruct (answers retryAttempt) as [[|] [|] h]; cbn; try done.
  all: by destruct (decide (retryAttempt < 2)).
Qed.

Lemma states_app t1 t2 : states (t1 ++ t2) = states t1 ++ states t2.
Proof. unfold states. apply omap_app. Qed.

Lemma waits_app t1 t2 : waits (t1 ++ t2) = waits t1 ++ waits t2.
Proof. unfold waits. apply omap_app. Qed.

Lemma secondary_quiet ws a :
  states (secondaryLoads ws a) = [] ∧ waits (secondaryLoads ws a) = [].
Proof. unfold secondaryLoads. by destruct a as [w f h]; cbn; repeat destruct (h _). Qed.

(** X27.  For a workspace id that is not empty, the initializer makes at
    most three attempts, an attempt being repeated only when a critical
    load failed; it waits 1000 ms before the second and 2000 ms before
    the third; and the last state it sets is [ready] when the last
    attempt loaded workflows and folders, and otherwise, after the third
    attempt, the error message of that attempt.  [retryCount] is the
    number of the last attempt, counted from 0. *)
Theorem initialization_settles_within_three_attempts answers workspaceId :
  workspaceId ≠ "" →
  ∃ trace attempt,
    initializeWorkspace 3 answers workspaceId false 0 = Some trace
    ∧ 0 ≤ attempt ≤ 2
    ∧ (∀ j, 0 ≤ j < attempt → critical_ok (answers j) = false)
    ∧ (critical_ok (answers attempt) = false → attempt = 2)
    ∧ last (states trace) = Some (settled (answers attempt) attempt)
    ∧ waits trace = take (Z.to_nat attempt) [1000; 2000].
Proof.
  intros Hws.
  rewrite attempt_unfold by done. cbv zeta.
  destruct (critical_ok (answers 0)) eqn:H0.
  { eexists _, 0. split; [done |]. split; [lia |]. split; [intros; lia |].
    split; [by rewrite H0 |].
    rewrite !states_app, !waits_app.
    destruct (secondary_quiet workspaceId (answers 0)) as [-> ->]. done. }
  rewrite decide_True by lia. rewrite attempt_unfold by done. cbv zeta.
  change (0 + 1) with 1.
  destruct (critical_ok (answers 1)) eqn:H1.
  { cbn [mbind option_bind]. eexists _, 1. split; [done |]. split; [lia |].
    split; [intros j Hj; by replace j with 0 by lia |].
    split; [by rewrite H1 |].
    rewrite !states_app, !waits_app.
    destruct (secondary_quiet workspaceId (answers 1)) as [-> ->]. done. }
  rewrite decide_True by lia. rewrite attempt_unfold by done. cbv zeta.
  change (1 + 1) with 2.
  destruct (critical_ok (answers 2)) eqn:H2.
  { cbn [mbind option_bind]. eexists _, 2. split; [done |]. split; [lia |].
    split.
    { intros j Hj. assert (j = 0 ∨ j = 1) as [-> | ->] by lia; done. }
    split; [by rewrite H2 |].
    rewrite !states_app, !waits_app.
    destruct (secondary_quiet workspaceId (answers 2)) as [-> ->]. done. }
  rewrite decide_False by lia. cbn [mbind option_bind].
  eexists _, 2. split; [done |]. split; [lia |].
  split.
  { intros j Hj. assert (j = 0 ∨ j = 1) as [-> | ->] by lia; done. }
  split; [done |]. done.
Qed.
End Initializer.

Lemma initialization_settles_within_three_attempts_witness :
  ∃ trace attempt,
    WorkspaceInitializer.initializeWorkspace 3 folders_never_load "WS1" false 0 = Some trace
    ∧ 0 ≤ attempt ≤ 2
    ∧ (∀ j, 0 ≤ j < attempt → critical_ok (folders_never_load j) = false)
    ∧ (critical_ok (folders_never_load attempt) = false → attempt = 2)
    ∧ last (WorkspaceInitializer.states trace)
      = Some (settled (folders_never_load attempt) attempt)
    ∧ WorkspaceInitializer.waits trace = take (Z.to_nat attempt) [1000; 2000].
Proof.
  apply (initialization_settles_within_three_attempts folders_never_load "WS1").
  discriminate.
Defined.
